(** * cupid-8: a CHIP-8 / SCHIP interpreter

    A shallow embedding of [src/cupid-8.c] and the properties of its
    instruction semantics.

    Integers of the C program are modelled as [Z] with the conversions to
    [uint8_t] and [uint16_t] written out ([wrap8], [wrap16]).  The
    fixed-size arrays of the [Chip8] struct are lists indexed with stdpp's
    lookup and insert; an access outside the array is undefined behaviour
    in C and is modelled by the outcome [Fault]. *)

From Stdlib Require Import ZArith Lia Bool.
From stdpp Require Import base list numbers.

Open Scope Z_scope.

(** ** Constants of the source *)

Definition MEMORY_SIZE : Z := 4096.
Definition REGISTER_COUNT : Z := 16.
Definition STACK_SIZE : Z := 16.
Definition NORMAL_WIDTH : Z := 64.
Definition NORMAL_HEIGHT : Z := 32.
Definition EXT_WIDTH : Z := 128.
Definition EXT_HEIGHT : Z := 64.
Definition MAX_WIDTH : Z := EXT_WIDTH.
Definition MAX_HEIGHT : Z := EXT_HEIGHT.
Definition START_ADDRESS : Z := 0x200.

(** ** Machine integers *)

Definition wrap8 (z : Z) : Z := z mod 256.
Definition wrap16 (z : Z) : Z := z mod 65536.

(** ** Outcomes of a call

    [Ok a]: the call returns [a].  [Exit code]: the program called
    [exit(code)].  [Fault]: undefined behaviour (array index out of bounds,
    remainder by zero).  [Pending]: the call is still looping when the
    supplied input runs out. *)

Inductive Outcome (A : Type) : Type :=
| Ok (a : A)
| Exit (code : Z)
| Fault
| Pending.

Arguments Ok {A} a.
Arguments Exit {A} code.
Arguments Fault {A}.
Arguments Pending {A}.

Definition bind {A B : Type} (m : Outcome A) (k : A -> Outcome B) : Outcome B :=
  match m with
  | Ok a => k a
  | Exit code => Exit code
  | Fault => Fault
  | Pending => Pending
  end.

Notation "'let*' x ':=' m 'in' k" := (bind m (fun x => k))
  (at level 10, x pattern, m at level 100, k at level 200).

(** [for (i ...) body]: the loop body run on every index of [l] in order. *)
Fixpoint forM {S : Type} (l : list Z) (body : Z -> S -> Outcome S) (s : S)
  : Outcome S :=
  match l with
  | [] => Ok s
  | i :: l' => let* s' := body i s in forM l' body s'
  end.

(** The indices [lo, lo+1, ..., hi-1]. *)
Definition range (lo hi : Z) : list Z := seqZ lo (hi - lo).

(** ** Arrays *)

Definition load (a : list Z) (i : Z) : Outcome Z :=
  if 0 <=? i then
    match a !! Z.to_nat i with
    | Some v => Ok v
    | None => Fault
    end
  else Fault.

Definition store (a : list Z) (i v : Z) : Outcome (list Z) :=
  if (0 <=? i) && (i <? Z.of_nat (length a))
  then Ok (<[Z.to_nat i := v]> a)
  else Fault.

(** ** The machine state

    The fields of the [Chip8] struct followed by the file-scope variables
    [screen_width], [screen_height], [extended_mode] and the colour pair
    ([fg_r],[fg_g],[fg_b]) / ([bg_r],[bg_g],[bg_b]). *)

Record Chip8 : Type := mkChip8 {
  memory : list Z;
  V : list Z;
  I : Z;
  pc : Z;
  stack : list Z;
  sp : Z;
  delay_timer : Z;
  sound_timer : Z;
  display : list Z;
  keys : list Z;
  screen_width : Z;
  screen_height : Z;
  extended_mode : Z;
  fg : Z * Z * Z;
  bg : Z * Z * Z
}.

Definition set_memory (v : list Z) (c : Chip8) : Chip8 :=
  mkChip8 v (V c) (I c) (pc c) (stack c) (sp c) (delay_timer c) (sound_timer c)
    (display c) (keys c) (screen_width c) (screen_height c) (extended_mode c)
    (fg c) (bg c).
Definition set_V (v : list Z) (c : Chip8) : Chip8 :=
  mkChip8 (memory c) v (I c) (pc c) (stack c) (sp c) (delay_timer c)
    (sound_timer c) (display c) (keys c) (screen_width c) (screen_height c)
    (extended_mode c) (fg c) (bg c).
Definition set_I (v : Z) (c : Chip8) : Chip8 :=
  mkChip8 (memory c) (V c) v (pc c) (stack c) (sp c) (delay_timer c)
    (sound_timer c) (display c) (keys c) (screen_width c) (screen_height c)
    (extended_mode c) (fg c) (bg c).
Definition set_pc (v : Z) (c : Chip8) : Chip8 :=
  mkChip8 (memory c) (V c) (I c) v (stack c) (sp c) (delay_timer c)
    (sound_timer c) (display c) (keys c) (screen_width c) (screen_height c)
    (extended_mode c) (fg c) (bg c).
Definition set_stack (v : list Z) (c : Chip8) : Chip8 :=
  mkChip8 (memory c) (V c) (I c) (pc c) v (sp c) (delay_timer c)
    (sound_timer c) (display c) (keys c) (screen_width c) (screen_height c)
    (extended_mode c) (fg c) (bg c).
Definition set_sp (v : Z) (c : Chip8) : Chip8 :=
  mkChip8 (memory c) (V c) (I c) (pc c) (stack c) v (delay_timer c)
    (sound_timer c) (display c) (keys c) (screen_width c) (screen_height c)
    (extended_mode c) (fg c) (bg c).
Definition set_delay_timer (v : Z) (c : Chip8) : Chip8 :=
  mkChip8 (memory c) (V c) (I c) (pc c) (stack c) (sp c) v (sound_timer c)
    (display c) (keys c) (screen_width c) (screen_height c) (extended_mode c)
    (fg c) (bg c).
Definition set_sound_timer (v : Z) (c : Chip8) : Chip8 :=
  mkChip8 (memory c) (V c) (I c) (pc c) (stack c) (sp c) (delay_timer c) v
    (display c) (keys c) (screen_width c) (screen_height c) (extended_mode c)
    (fg c) (bg c).
Definition set_display (v : list Z) (c : Chip8) : Chip8 :=
  mkChip8 (memory c) (V c) (I c) (pc c) (stack c) (sp c) (delay_timer c)
    (sound_timer c) v (keys c) (screen_width c) (screen_height c)
    (extended_mode c) (fg c) (bg c).
Definition set_keys (v : list Z) (c : Chip8) : Chip8 :=
  mkChip8 (memory c) (V c) (I c) (pc c) (stack c) (sp c) (delay_timer c)
    (sound_timer c) (display c) v (screen_width c) (screen_height c)
    (extended_mode c) (fg c) (bg c).
(** The assignments to the mode variables made by 00FE and 00FF. *)
Definition set_mode (ext w h : Z) (fgc bgc : Z * Z * Z) (c : Chip8) : Chip8 :=
  mkChip8 (memory c) (V c) (I c) (pc c) (stack c) (sp c) (delay_timer c)
    (sound_timer c) (display c) (keys c) w h ext fgc bgc.

(** [memset(a, 0, sizeof a)] for an array of [n] bytes. *)
Definition zeroed (n : Z) : list Z := replicate (Z.to_nat n) 0.

(** [memcpy(dst + off, src, length src)], also the effect of [fread] into
    [dst + off]: the caller guarantees that the bytes fit. *)
Definition blit_bytes (dst : list Z) (off : Z) (src : list Z) : list Z :=
  take (Z.to_nat off) dst ++ src
    ++ drop (Z.to_nat off + length src)%nat dst.

(** ** Font set *)

Definition chip8_fontset : list Z :=
  [ 0xF0; 0x90; 0x90; 0x90; 0xF0;
    0x20; 0x60; 0x20; 0x20; 0x70;
    0xF0; 0x10; 0xF0; 0x80; 0xF0;
    0xF0; 0x10; 0xF0; 0x10; 0xF0;
    0x90; 0x90; 0xF0; 0x10; 0x10;
    0xF0; 0x80; 0xF0; 0x10; 0xF0;
    0xF0; 0x80; 0xF0; 0x90; 0xF0;
    0xF0; 0x10; 0x20; 0x40; 0x40;
    0xF0; 0x90; 0xF0; 0x90; 0xF0;
    0xF0; 0x90; 0xF0; 0x10; 0xF0;
    0xF0; 0x90; 0xF0; 0x90; 0x90;
    0xE0; 0x90; 0xE0; 0x90; 0xE0;
    0xF0; 0x80; 0x80; 0x80; 0xF0;
    0xE0; 0x90; 0x90; 0x90; 0xE0;
    0xF0; 0x80; 0xF0; 0x80; 0xF0;
    0xF0; 0x80; 0xF0; 0x80; 0x80 ].

(** ** initializeChip8 *)

Definition initializeChip8 (c : Chip8) : Chip8 :=
  let c := set_pc START_ADDRESS c in
  let c := set_I 0 c in
  let c := set_sp 0 c in
  let c := set_memory (zeroed MEMORY_SIZE) c in
  let c := set_V (zeroed REGISTER_COUNT) c in
  let c := set_stack (zeroed STACK_SIZE) c in
  let c := set_display (zeroed (MAX_WIDTH * MAX_HEIGHT)) c in
  let c := set_keys (zeroed 16) c in
  let c := set_delay_timer 0 c in
  let c := set_sound_timer 0 c in
  set_memory (blit_bytes (memory c) 0x50 chip8_fontset) c.

(** The program image at start: the static [chip8] object is
    zero-initialised and the file-scope variables hold their initialisers. *)
Definition chip8_static : Chip8 :=
  mkChip8 (zeroed MEMORY_SIZE) (zeroed REGISTER_COUNT) 0 0 (zeroed STACK_SIZE)
    0 0 0 (zeroed (MAX_WIDTH * MAX_HEIGHT)) (zeroed 16)
    NORMAL_WIDTH NORMAL_HEIGHT 0 (255, 255, 255) (0, 0, 0).

(** ** loadROM

    The file named on the command line is [None] when [fopen] fails and
    [Some bytes] otherwise; [rom_size] is the length of the file.  The
    result pairs the returned int with the memory after the call. *)

Definition loadROM (c : Chip8) (rom : option (list Z)) : Z * Chip8 :=
  match rom with
  | None => (0, c)
  | Some bytes =>
      let rom_size := Z.of_nat (length bytes) in
      if rom_size >? MEMORY_SIZE - START_ADDRESS then (0, c)
      else (1, set_memory (blit_bytes (memory c) START_ADDRESS bytes) c)
  end.

(** ** fetchOpcode *)

Definition fetchOpcode (c : Chip8) : Outcome Z :=
  let* hi := load (memory c) (pc c) in
  let* lo := load (memory c) (pc c + 1) in
  Ok (wrap16 (Z.lor (Z.shiftl hi 8) lo)).

(** ** Scrolling helpers *)

(** [display[dst] = display[src]] and [display[dst] = 0]. *)
Definition copy_cell (dst src : Z) (c : Chip8) : Outcome Chip8 :=
  let* v := load (display c) src in
  let* d := store (display c) dst v in
  Ok (set_display d c).

Definition clear_cell (dst : Z) (c : Chip8) : Outcome Chip8 :=
  let* d := store (display c) dst 0 in
  Ok (set_display d c).

Definition scroll_horizontal (direction : Z) (c : Chip8) : Outcome Chip8 :=
  let shift := 4 in
  if direction >? 0 then
    forM (range 0 (screen_height c)) (fun y c =>
      let* c :=
        forM (reverse (range shift (screen_width c))) (fun x c =>
          copy_cell (y * MAX_WIDTH + x) (y * MAX_WIDTH + (x - shift)) c) c in
      forM (range 0 shift) (fun x c => clear_cell (y * MAX_WIDTH + x) c) c) c
  else
    forM (range 0 (screen_height c)) (fun y c =>
      let* c :=
        forM (range 0 (screen_width c - shift)) (fun x c =>
          copy_cell (y * MAX_WIDTH + x) (y * MAX_WIDTH + (x + shift)) c) c in
      forM (range (screen_width c - shift) (screen_width c)) (fun x c =>
        clear_cell (y * MAX_WIDTH + x) c) c) c.

Definition scroll_down (n : Z) (c : Chip8) : Outcome Chip8 :=
  let* c :=
    forM (reverse (range n (screen_height c))) (fun y c =>
      forM (range 0 (screen_width c)) (fun x c =>
        copy_cell (y * MAX_WIDTH + x) ((y - n) * MAX_WIDTH + x) c) c) c in
  forM (range 0 n) (fun y c =>
    forM (range 0 (screen_width c)) (fun x c =>
      clear_cell (y * MAX_WIDTH + x) c) c) c.

(** ** Sprite drawing (case 0xD000)

    The body executed for a set sprite bit at ([row], [col]): the target
    coordinates are computed from the registers as they are at that moment. *)

Definition plot (x y row col : Z) (c : Chip8) : Outcome Chip8 :=
  let* vx := load (V c) x in
  if screen_width c =? 0 then Fault else
  let posX := Z.rem (vx + col) (screen_width c) in
  let* vy := load (V c) y in
  if screen_height c =? 0 then Fault else
  let posY := Z.rem (vy + row) (screen_height c) in
  let idx := posY * MAX_WIDTH + posX in
  let* cell := load (display c) idx in
  let* c :=
    if cell =? 1
    then let* v := store (V c) 0xF 1 in Ok (set_V v c)
    else Ok c in
  let* cell := load (display c) idx in
  let* d := store (display c) idx (wrap8 (Z.lxor cell 1)) in
  Ok (set_display d c).

(** [(byte & (0x80 >> col)) != 0] *)
Definition pixel_bit (byte col : Z) : bool :=
  negb (Z.land byte (Z.shiftr 0x80 col) =? 0).

Definition draw_sprite (x y n : Z) (c : Chip8) : Outcome Chip8 :=
  let '(spriteWidth, spriteHeight) :=
    if negb (extended_mode c =? 0) && (n =? 0) then (16, 16) else (8, n) in
  let* v := store (V c) 0xF 0 in
  let c := set_V v c in
  if spriteWidth =? 16 then
    forM (range 0 16) (fun row c =>
      let* byte1 := load (memory c) (I c + row * 2) in
      let* byte2 := load (memory c) (I c + row * 2 + 1) in
      forM (range 0 16) (fun col c =>
        let pixelBit :=
          if col <? 8 then pixel_bit byte1 col else pixel_bit byte2 (col - 8) in
        if pixelBit then plot x y row col c else Ok c) c) c
  else
    forM (range 0 spriteHeight) (fun row c =>
      let* spriteByte := load (memory c) (I c + row) in
      forM (range 0 spriteWidth) (fun col c =>
        let pixelBit := pixel_bit spriteByte col in
        if pixelBit then plot x y row col c else Ok c) c) c.

(** ** Keyboard events and the key wait of Fx0A *)

Inductive SDL_Keycode : Type :=
| SDLK_1 | SDLK_2 | SDLK_3 | SDLK_4
| SDLK_q | SDLK_w | SDLK_e | SDLK_r
| SDLK_a | SDLK_s | SDLK_d | SDLK_f
| SDLK_z | SDLK_x | SDLK_c | SDLK_v
| SDLK_other.

Inductive SDL_Event : Type :=
| SDL_KEYDOWN (sym : SDL_Keycode)
| SDL_KEYUP (sym : SDL_Keycode)
| SDL_QUIT
| SDL_OTHER.

Definition mapKey (key : SDL_Keycode) : Z :=
  match key with
  | SDLK_1 => 0x1 | SDLK_2 => 0x2 | SDLK_3 => 0x3 | SDLK_4 => 0xC
  | SDLK_q => 0x4 | SDLK_w => 0x5 | SDLK_e => 0x6 | SDLK_r => 0xD
  | SDLK_a => 0x7 | SDLK_s => 0x8 | SDLK_d => 0x9 | SDLK_f => 0xE
  | SDLK_z => 0xA | SDLK_x => 0x0 | SDLK_c => 0xB | SDLK_v => 0xF
  | SDLK_other => -1
  end.

(** The inner loop [while (SDL_PollEvent(&event))] of Fx0A on the events
    queued at that moment; the flag is [key_pressed].  The switch of Fx0A
    assigns to a key the value that [mapKey] returns for it. *)
Fixpoint poll_key (x : Z) (events : list SDL_Event) (key_pressed : bool)
  (c : Chip8) : Outcome (bool * Chip8) :=
  match events with
  | [] => Ok (key_pressed, c)
  | SDL_KEYDOWN sym :: events' =>
      match sym with
      | SDLK_other => poll_key x events' key_pressed c
      | _ =>
          let* v := store (V c) x (mapKey sym) in
          poll_key x events' true (set_V v c)
      end
  | SDL_QUIT :: _ => Exit 0
  | _ :: events' => poll_key x events' key_pressed c
  end.

(** The outer loop [while (!key_pressed)]: one element of [polls] per
    iteration, holding the events that are queued during it. *)
Fixpoint wait_key (x : Z) (polls : list (list SDL_Event)) (c : Chip8)
  : Outcome Chip8 :=
  match polls with
  | [] => Pending
  | events :: polls' =>
      let* r := poll_key x events false c in
      if fst r then Ok (snd r) else wait_key x polls' (snd r)
  end.

(** What a cycle takes from outside the machine: the value returned by
    [rand()] and the events polled while Fx0A waits. *)
Record Env : Type := mkEnv {
  rand : Z;
  polls : list (list SDL_Event)
}.

(** ** emulateCycle *)

(** [chip8->V[i]] read and written, [chip8->memory[i]] written. *)
Definition get_V (i : Z) (c : Chip8) : Outcome Z := load (V c) i.

Definition put_V (i v : Z) (c : Chip8) : Outcome Chip8 :=
  let* l := store (V c) i v in Ok (set_V l c).

Definition put_memory (i v : Z) (c : Chip8) : Outcome Chip8 :=
  let* l := store (memory c) i v in Ok (set_memory l c).

(** [chip8->pc += 2] *)
Definition skip (c : Chip8) : Chip8 := set_pc (wrap16 (pc c + 2)) c.

(** The inner switch of case 0x8000. *)
Definition alu (opcode x y : Z) (c : Chip8) : Outcome Chip8 :=
  match Z.land opcode 0x000F with
  | 0x0 =>
      let* vy := get_V y c in put_V x vy c
  | 0x1 =>
      let* vx := get_V x c in
      let* vy := get_V y c in put_V x (wrap8 (Z.lor vx vy)) c
  | 0x2 =>
      let* vx := get_V x c in
      let* vy := get_V y c in put_V x (wrap8 (Z.land vx vy)) c
  | 0x3 =>
      let* vx := get_V x c in
      let* vy := get_V y c in put_V x (wrap8 (Z.lxor vx vy)) c
  | 0x4 =>
      let* vx := get_V x c in
      let* vy := get_V y c in
      let sum := wrap16 (vx + vy) in
      let* c := put_V 0xF (if sum >? 255 then 1 else 0) c in
      put_V x (wrap8 (Z.land sum 0xFF)) c
  | 0x5 =>
      let* vx := get_V x c in
      let* vy := get_V y c in
      let* c := put_V 0xF (if vx >? vy then 1 else 0) c in
      let* vx := get_V x c in
      let* vy := get_V y c in
      put_V x (wrap8 (vx - vy)) c
  | 0x6 =>
      let* vx := get_V x c in
      let* c := put_V 0xF (wrap8 (Z.land vx 0x1)) c in
      let* vx := get_V x c in
      put_V x (wrap8 (Z.shiftr vx 1)) c
  | 0x7 =>
      let* vy := get_V y c in
      let* vx := get_V x c in
      let* c := put_V 0xF (if vy >? vx then 1 else 0) c in
      let* vy := get_V y c in
      let* vx := get_V x c in
      put_V x (wrap8 (vy - vx)) c
  | 0xE =>
      let* vx := get_V x c in
      let* c := put_V 0xF (wrap8 (Z.shiftr (Z.land vx 0x80) 7)) c in
      let* vx := get_V x c in
      put_V x (wrap8 (Z.shiftl vx 1)) c
  | _ => Ok c
  end.

(** The inner switch of case 0xE000. *)
Definition key_skip (opcode x : Z) (c : Chip8) : Outcome Chip8 :=
  match Z.land opcode 0x00FF with
  | 0x9E =>
      let* vx := get_V x c in
      let* k := load (keys c) vx in
      if negb (k =? 0) then Ok (skip c) else Ok c
  | 0xA1 =>
      let* vx := get_V x c in
      let* k := load (keys c) vx in
      if k =? 0 then Ok (skip c) else Ok c
  | _ => Ok c
  end.

(** The inner switch of case 0xF000. *)
Definition misc (env : Env) (opcode x : Z) (c : Chip8) : Outcome Chip8 :=
  match Z.land opcode 0x00FF with
  | 0x07 => put_V x (delay_timer c) c
  | 0x0A => wait_key x (polls env) c
  | 0x15 => let* vx := get_V x c in Ok (set_delay_timer vx c)
  | 0x18 => let* vx := get_V x c in Ok (set_sound_timer vx c)
  | 0x1E => let* vx := get_V x c in Ok (set_I (wrap16 (I c + vx)) c)
  | 0x29 => let* vx := get_V x c in Ok (set_I (wrap16 (0x50 + vx * 5)) c)
  | 0x33 =>
      let* value := get_V x c in
      let* c := put_memory (I c) (wrap8 (Z.quot value 100)) c in
      let* c := put_memory (I c + 1) (wrap8 (Z.rem (Z.quot value 10) 10)) c in
      put_memory (I c + 2) (wrap8 (Z.rem value 10)) c
  | 0x55 =>
      forM (range 0 (x + 1)) (fun i c =>
        let* vi := get_V i c in put_memory (I c + i) vi c) c
  | 0x65 =>
      forM (range 0 (x + 1)) (fun i c =>
        let* b := load (memory c) (I c + i) in put_V i b c) c
  | _ => Ok c
  end.

(** The switch on [opcode & 0xF000]. *)
Definition execute (env : Env) (opcode x y kk nnn n : Z) (c : Chip8)
  : Outcome Chip8 :=
  match Z.land opcode 0xF000 with
  | 0x0000 =>
      match opcode with
      | 0x00E0 => Ok (set_display (zeroed (MAX_WIDTH * MAX_HEIGHT)) c)
      | 0x00EE =>
          let c := set_sp (wrap8 (sp c - 1)) c in
          let* ret := load (stack c) (sp c) in
          Ok (set_pc ret c)
      | _ => Ok c
      end
  | 0x1000 => Ok (set_pc nnn c)
  | 0x2000 =>
      let* s := store (stack c) (sp c) (pc c) in
      let c := set_stack s c in
      let c := set_sp (wrap8 (sp c + 1)) c in
      Ok (set_pc nnn c)
  | 0x3000 =>
      let* vx := get_V x c in
      if vx =? kk then Ok (skip c) else Ok c
  | 0x4000 =>
      let* vx := get_V x c in
      if negb (vx =? kk) then Ok (skip c) else Ok c
  | 0x5000 =>
      let* vx := get_V x c in
      let* vy := get_V y c in
      if vx =? vy then Ok (skip c) else Ok c
  | 0x6000 => put_V x kk c
  | 0x7000 => let* vx := get_V x c in put_V x (wrap8 (vx + kk)) c
  | 0x8000 => alu opcode x y c
  | 0x9000 =>
      let* vx := get_V x c in
      let* vy := get_V y c in
      if negb (vx =? vy) then Ok (skip c) else Ok c
  | 0xA000 => Ok (set_I nnn c)
  | 0xB000 => let* v0 := get_V 0 c in Ok (set_pc (wrap16 (nnn + v0)) c)
  | 0xC000 => put_V x (wrap8 (Z.land (Z.rem (rand env) 256) kk)) c
  | 0xD000 => draw_sprite x y n c
  | 0xE000 => key_skip opcode x c
  | 0xF000 => misc env opcode x c
  | _ => Ok c
  end.

(** The timer decrements that end [emulateCycle]; [main] runs the same
    two statements when 16 ms have elapsed. *)
Definition tick (c : Chip8) : Chip8 :=
  let c :=
    if delay_timer c >? 0
    then set_delay_timer (wrap8 (delay_timer c - 1)) c else c in
  if sound_timer c >? 0
  then set_sound_timer (wrap8 (sound_timer c - 1)) c else c.

Definition emulateCycle (env : Env) (c : Chip8) : Outcome Chip8 :=
  let* opcode := fetchOpcode c in
  let c := set_pc (wrap16 (pc c + 2)) c in
  let x := wrap8 (Z.shiftr (Z.land opcode 0x0F00) 8) in
  let y := wrap8 (Z.shiftr (Z.land opcode 0x00F0) 4) in
  let kk := wrap8 (Z.land opcode 0x00FF) in
  let nnn := wrap16 (Z.land opcode 0x0FFF) in
  let n := wrap8 (Z.land opcode 0x000F) in
  if Z.land opcode 0xF0FF =? 0x00FB then scroll_horizontal 1 c
  else if Z.land opcode 0xF0FF =? 0x00FC then scroll_horizontal (-1) c
  else if Z.land opcode 0xF0FF =? 0x00FD then Exit 0
  else if Z.land opcode 0xF0FF =? 0x00FE then
    Ok (set_display (zeroed (MAX_WIDTH * MAX_HEIGHT))
          (set_mode 0 NORMAL_WIDTH NORMAL_HEIGHT (255, 255, 255) (0, 0, 0) c))
  else if Z.land opcode 0xF0FF =? 0x00FF then
    Ok (set_display (zeroed (MAX_WIDTH * MAX_HEIGHT))
          (set_mode 1 EXT_WIDTH EXT_HEIGHT (0, 255, 255) (0, 0, 128) c))
  else if (Z.land opcode 0xF000 =? 0x0000) && (Z.land opcode 0x00F0 =? 0x00C0)
  then
    let n_rows := Z.land opcode 0x000F in
    scroll_down n_rows c
  else
    let* c := execute env opcode x y kk nnn n c in
    Ok (tick c).

(** ** main

    [Host] says which of the SDL set-up calls succeed; a [Frame] is what one
    iteration of the main loop takes from outside: the events polled, the
    environment of the cycle, and whether 16 ms have elapsed since the last
    timer update.  The result pairs how the process ends with the number of
    calls of [emulateCycle] made before that.  [drawGraphics], the audio
    device and [SDL_Delay] only read the machine and are left out. *)

Record Host : Type := mkHost {
  sdl_init_ok : bool;
  window_ok : bool;
  renderer_ok : bool
}.

Record Frame : Type := mkFrame {
  frame_events : list SDL_Event;
  frame_env : Env;
  frame_elapsed : bool
}.

(** The event loop at the head of each iteration; the flag is [running]. *)
Fixpoint pump (events : list SDL_Event) (running : bool) (c : Chip8)
  : Outcome (bool * Chip8) :=
  match events with
  | [] => Ok (running, c)
  | SDL_QUIT :: events' => pump events' false c
  | SDL_KEYDOWN sym :: events' =>
      let keyIndex := mapKey sym in
      if negb (keyIndex =? -1) then
        let* k := store (keys c) keyIndex 1 in pump events' running (set_keys k c)
      else pump events' running c
  | SDL_KEYUP sym :: events' =>
      let keyIndex := mapKey sym in
      if negb (keyIndex =? -1) then
        let* k := store (keys c) keyIndex 0 in pump events' running (set_keys k c)
      else pump events' running c
  | SDL_OTHER :: events' => pump events' running c
  end.

Fixpoint main_loop (frames : list Frame) (c : Chip8) (cycles : nat)
  : Outcome Z * nat :=
  match frames with
  | [] => (Pending, cycles)
  | f :: frames' =>
      match pump (frame_events f) true c with
      | Ok (running, c) =>
          match emulateCycle (frame_env f) c with
          | Ok c =>
              let c := if frame_elapsed f then tick c else c in
              if running then main_loop frames' c (S cycles)
              else (Ok 0, S cycles)
          | Exit code => (Exit code, S cycles)
          | Fault => (Fault, S cycles)
          | Pending => (Pending, S cycles)
          end
      | Exit code => (Exit code, cycles)
      | Fault => (Fault, cycles)
      | Pending => (Pending, cycles)
      end
  end.

Definition main (argc : Z) (rom : option (list Z)) (host : Host)
  (frames : list Frame) : Outcome Z * nat :=
  if argc <? 2 then (Ok 1, 0%nat)
  else
    let c := initializeChip8 chip8_static in
    let '(loaded, c) := loadROM c rom in
    if loaded =? 0 then (Ok 1, 0%nat)
    else if negb (sdl_init_ok host) then (Ok 1, 0%nat)
    else if negb (window_ok host) then (Ok 1, 0%nat)
    else if negb (renderer_ok host) then (Ok 1, 0%nat)
    else main_loop frames c 0%nat.

(** * Vocabulary of the statements *)

(** A hexadecimal digit, and the opcode with the four digits [t x y n]. *)
Definition nibble (z : Z) : Prop := 0 <= z < 16.

Definition opcode_of (t x y n : Z) : Z := 4096 * t + 256 * x + 16 * y + n.

(** The value of register [V[i]]. *)
Definition reg (c : Chip8) (i : Z) : Z := V c !!! Z.to_nat i.

(** The machine after [initializeChip8] and a successful [loadROM] of
    [prog], as [main] builds it. *)
Definition boot (prog : list Z) : Chip8 :=
  snd (loadROM (initializeChip8 chip8_static) (Some prog)).

Definition quiet : Env := mkEnv 0 [].

(** [n] cycles in a row, as long as they return. *)
Fixpoint run (n : nat) (env : Env) (c : Chip8) : Outcome Chip8 :=
  match n with
  | O => Ok c
  | S n' => let* c' := emulateCycle env c in run n' env c'
  end.

(** The bit-field identities used by the decoder, as a check on one
    opcode, and a bounded universal quantifier to run it on all of them. *)
Definition fields_ok (op : Z) : bool :=
  (Z.land op 0xF000 =? 4096 * (op / 4096))
  && (Z.shiftr (Z.land op 0x0F00) 8 =? (op / 256) mod 16)
  && (Z.shiftr (Z.land op 0x00F0) 4 =? (op / 16) mod 16)
  && (Z.land op 0x00FF =? op mod 256)
  && (Z.land op 0x0FFF =? op mod 4096)
  && (Z.land op 0x000F =? op mod 16)
  && (Z.land op 0xF0FF =? 4096 * (op / 4096) + op mod 256)
  && (Z.land op 0x00F0 =? 16 * ((op / 16) mod 16)).

Fixpoint all_from (n : nat) (p : Z -> bool) (z : Z) : bool :=
  match n with
  | O => true
  | S n' => p z && all_from n' p (z + 1)
  end.

(** The machine with [V[i]] replaced by [v]. *)
Definition with_reg (i v : Z) (c : Chip8) : Chip8 :=
  set_V (<[Z.to_nat i := v]> (V c)) c.

(** ** Well-formed machines

    What the C types and the two display modes guarantee: the sizes of the
    arrays, the ranges of [uint8_t] and [uint16_t] objects, and mode
    variables set together as 00FE and 00FF (and the initialisers) set
    them. *)

Definition len (l : list Z) : Z := Z.of_nat (length l).

Definition in_range (bound : Z) (l : list Z) : Prop :=
  Forall (fun v => 0 <= v < bound) l.

Record wf (c : Chip8) : Prop := mk_wf {
  wf_memory_size : len (memory c) = MEMORY_SIZE;
  wf_V_size : len (V c) = REGISTER_COUNT;
  wf_stack_size : len (stack c) = STACK_SIZE;
  wf_display_size : len (display c) = MAX_WIDTH * MAX_HEIGHT;
  wf_keys_size : len (keys c) = 16;
  wf_memory : in_range 256 (memory c);
  wf_V : in_range 256 (V c);
  wf_stack : in_range 65536 (stack c);
  wf_display : in_range 256 (display c);
  wf_keys : in_range 256 (keys c);
  wf_I : 0 <= I c < 65536;
  wf_pc : 0 <= pc c < 65536;
  wf_sp : 0 <= sp c < 256;
  wf_delay_timer : 0 <= delay_timer c < 256;
  wf_sound_timer : 0 <= sound_timer c < 256;
  wf_mode :
    (extended_mode c = 0 /\ screen_width c = NORMAL_WIDTH
      /\ screen_height c = NORMAL_HEIGHT)
    \/ (extended_mode c = 1 /\ screen_width c = EXT_WIDTH
      /\ screen_height c = EXT_HEIGHT)
}.

(** The same conditions as a computation. *)
Definition in_rangeb (bound : Z) (l : list Z) : bool :=
  forallb (fun v => (0 <=? v) && (v <? bound)) l.

Definition below (bound z : Z) : bool := (0 <=? z) && (z <? bound).

Definition wfb (c : Chip8) : bool :=
  (len (memory c) =? MEMORY_SIZE)
  && (len (V c) =? REGISTER_COUNT)
  && (len (stack c) =? STACK_SIZE)
  && (len (display c) =? MAX_WIDTH * MAX_HEIGHT)
  && (len (keys c) =? 16)
  && in_rangeb 256 (memory c)
  && in_rangeb 256 (V c)
  && in_rangeb 65536 (stack c)
  && in_rangeb 256 (display c)
  && in_rangeb 256 (keys c)
  && below 65536 (I c)
  && below 65536 (pc c)
  && below 256 (sp c)
  && below 256 (delay_timer c)
  && below 256 (sound_timer c)
  && (((extended_mode c =? 0) && (screen_width c =? NORMAL_WIDTH)
        && (screen_height c =? NORMAL_HEIGHT))
      || ((extended_mode c =? 1) && (screen_width c =? EXT_WIDTH)
        && (screen_height c =? EXT_HEIGHT))).

(** [keeps f v o]: if the call returns, field [f] of the machine it returns
    is [v]. *)
Definition keeps (f : Chip8 -> Z) (v : Z) (o : Outcome Chip8) : Prop :=
  forall c', o = Ok c' -> f c' = v.

(** ** Sprites as the specification describes them *)

(** The sprite of Dxyn is 16 by 16 in extended mode with n = 0 and 8 by n
    otherwise. *)
Definition sprite_wide (c : Chip8) (n : Z) : bool :=
  negb (extended_mode c =? 0) && (n =? 0).

Definition sprite_width (c : Chip8) (n : Z) : Z :=
  if sprite_wide c n then 16 else 8.

Definition sprite_height (c : Chip8) (n : Z) : Z :=
  if sprite_wide c n then 16 else n.

(** Number of bytes read from [memory[I..]]. *)
Definition sprite_bytes (c : Chip8) (n : Z) : Z :=
  if sprite_wide c n then 32 else n.

Definition byte_at (c : Chip8) (a : Z) : Z := memory c !!! Z.to_nat a.

(** The sprite bit at ([row], [col]): the most significant bit of a byte
    is its leftmost pixel; a wide row is two bytes. *)
Definition sprite_bit (c : Chip8) (n row col : Z) : bool :=
  if sprite_wide c n then
    if col <? 8 then Z.testbit (byte_at c (I c + 2 * row)) (7 - col)
    else Z.testbit (byte_at c (I c + 2 * row + 1)) (15 - col)
  else Z.testbit (byte_at c (I c + row)) (7 - col).

(** The index in the backing array of the cell a sprite bit lands on. *)
Definition cell_index (c : Chip8) (x y row col : Z) : Z :=
  ((reg c y + row) mod screen_height c) * MAX_WIDTH
  + (reg c x + col) mod screen_width c.

(** The cells of the set sprite bits, row by row. *)
Definition row_targets (c : Chip8) (x y n row : Z) : list Z :=
  flat_map
    (fun col =>
       if sprite_bit c n row col then [cell_index c x y row col] else [])
    (range 0 (sprite_width c n)).

Definition targets (c : Chip8) (x y n : Z) : list Z :=
  flat_map (row_targets c x y n) (range 0 (sprite_height c n)).

(** XOR of one cell with 1, with the collision flag: it becomes true when
    the cell was 1, that is when the XOR turns it to 0. *)
Definition flip_cell (v : Z) : Z := Z.lxor v 1.

Definition xor_cell (s : list Z * bool) (i : Z) : list Z * bool :=
  (alter flip_cell (Z.to_nat i) (fst s),
   snd s || (fst s !!! Z.to_nat i =? 1)).

Definition xor_cells (ts : list Z) (d : list Z) : list Z * bool :=
  fold_left xor_cell ts (d, false).

(** The machine during a draw that started on [c0]: display [d] and
    collision flag [f] in VF. *)
Definition paint (c0 : Chip8) (s : list Z * bool) : Chip8 :=
  set_display (fst s) (with_reg 0xF (Z.b2z (snd s)) c0).

(** What the display is during a draw: full size, cells in byte range. *)
Definition canvas (d : list Z) : Prop :=
  len d = MAX_WIDTH * MAX_HEIGHT /\ in_range 256 d.

(** ** Machines used as examples *)

(** 5123 at 0x200. *)
Definition example_skip : Chip8 := boot [0x51; 0x23].

(** 8346 and 834E with V3 = 0x85. *)
Definition example_shr : Chip8 := with_reg 3 0x85 (boot [0x83; 0x46]).
Definition example_shl : Chip8 := with_reg 3 0x85 (boot [0x83; 0x4E]).

(** F01E with I = 0xFFFF and V0 = 1. *)
Definition example_add_I : Chip8 :=
  set_I 0xFFFF (with_reg 0 1 (boot [0xF0; 0x1E])).

(** 03FB and 01FB with the top-left cell of the display set. *)
Definition example_scroll (second : Z) : Chip8 :=
  let c := boot [second; 0xFB] in
  set_display (<[0%nat := 1]> (display c)) c.

(** 2208 at 0x200 and 00EE at 0x208. *)
Definition example_call : Chip8 :=
  boot [0x22; 0x08; 0; 0; 0; 0; 0; 0; 0x00; 0xEE].

(** 600A with the delay timer at 3 and the sound timer at 0. *)
Definition example_timer : Chip8 := set_delay_timer 3 (boot [0x60; 0x0A]).

(** The programs V0 = 7; V1 = 7; V0 -= V1 (8015) and
    V0 = 7; V1 = 7; V0 = V1 - V0 (8017). *)
Definition example_sub : Chip8 := boot [0x60; 7; 0x61; 7; 0x80; 0x15].
Definition example_subn : Chip8 := boot [0x60; 7; 0x61; 7; 0x80; 0x17].

(** D015 twice, I at the glyph of 0, V0 = 62 and V1 = 30: the sprite
    wraps around the right and the bottom edge. *)
Definition example_draw : Chip8 :=
  set_I 0x50 (with_reg 0 62 (with_reg 1 30
    (boot [0xD0; 0x15; 0xD0; 0x15]))).

(** DF01 with VF = 5 and I at the glyph of 0 (first row 0xF0). *)
Definition example_draw_VF : Chip8 :=
  with_reg 0xF 5 (set_I 0x50 (boot [0xDF; 0x01])).

(** DF01 twice with VF = V0 = 0 and I at a sprite row 0xC0. *)
Definition example_double_VF : Chip8 :=
  set_I 0x204 (boot [0xDF; 0x01; 0xDF; 0x01; 0xC0]).


(** ** Invariants of the machine *)

(** [stays P o]: if the call returns, the machine it returns satisfies
    [P]. *)
Definition stays (P : Chip8 -> Prop) (o : Outcome Chip8) : Prop :=
  forall c', o = Ok c' -> P c'.

(** A well-formed machine whose display cells are below [b]. *)
Definition sound (b : Z) (c : Chip8) : Prop :=
  wf c /\ in_range b (display c).

(** One cycle per environment of [envs], as long as they return. *)
Fixpoint run_envs (envs : list Env) (c : Chip8) : Outcome Chip8 :=
  match envs with
  | [] => Ok c
  | env :: envs' => let* c' := emulateCycle env c in run_envs envs' c'
  end.

(** ** The keypad and the cells of the display *)

(** The latch of key [k]. *)
Definition key (c : Chip8) (k : Z) : Z := keys c !!! Z.to_nat k.

(** Whether a batch of events holds a window-close event. *)
Definition has_quit (events : list SDL_Event) : bool :=
  existsb (fun e => match e with SDL_QUIT => true | _ => false end) events.

(** The key of the last key-down event of a batch that the keypad maps. *)
Fixpoint last_key (events : list SDL_Event) : option SDL_Keycode :=
  match events with
  | [] => None
  | e :: events' =>
      match last_key events' with
      | Some sym => Some sym
      | None =>
          match e with
          | SDL_KEYDOWN sym => if mapKey sym =? -1 then None else Some sym
          | _ => None
          end
      end
  end.

(** A batch without a window-close event and without a mapped key-down. *)
Definition idle (events : list SDL_Event) : Prop :=
  has_quit events = false /\ last_key events = None.

(** The latch of key [k] after a batch of events, from its value [old]
    before: the last event that concerns the key decides. *)
Fixpoint key_after (k : Z) (events : list SDL_Event) (old : Z) : Z :=
  match events with
  | [] => old
  | SDL_KEYDOWN sym :: events' =>
      key_after k events' (if mapKey sym =? k then 1 else old)
  | SDL_KEYUP sym :: events' =>
      key_after k events' (if mapKey sym =? k then 0 else old)
  | _ :: events' => key_after k events' old
  end.

(** The cell at column [x] of row [y] of a display array. *)
Definition cell_at (d : list Z) (x y : Z) : Z :=
  d !!! Z.to_nat (y * MAX_WIDTH + x).

(** ** drawGraphics

    The function only talks to the renderer; it is modelled by the
    sequence of SDL calls it makes, in order. *)

Definition WINDOW_SCALE : Z := 10.

Inductive SDL_Call : Type :=
| SDL_SetRenderDrawColor (r g b a : Z)
| SDL_RenderClear
| SDL_RenderFillRect (x y w h : Z)
| SDL_RenderPresent.

Definition drawGraphics (c : Chip8) : Outcome (list SDL_Call) :=
  let '(bg_r, bg_g, bg_b) := bg c in
  let '(fg_r, fg_g, fg_b) := fg c in
  let calls := [SDL_SetRenderDrawColor bg_r bg_g bg_b 255; SDL_RenderClear] in
  let* calls :=
    forM (range 0 (screen_height c)) (fun y calls =>
      forM (range 0 (screen_width c)) (fun x calls =>
        let* v := load (display c) (y * MAX_WIDTH + x) in
        if negb (v =? 0) then
          Ok (calls ++
                [SDL_SetRenderDrawColor fg_r fg_g fg_b 255;
                 SDL_RenderFillRect (x * WINDOW_SCALE) (y * WINDOW_SCALE)
                   WINDOW_SCALE WINDOW_SCALE])
        else Ok calls) calls) calls in
  Ok (calls ++ [SDL_RenderPresent]).

(** The squares filled for the lit cells among columns [xs] of row [y],
    and for the rows [ys]. *)
Definition row_calls (c : Chip8) (xs : list Z) (y : Z) : list SDL_Call :=
  xs ≫= fun x =>
    if negb (cell_at (display c) x y =? 0) then
      [SDL_SetRenderDrawColor (fg c).1.1 (fg c).1.2 (fg c).2 255;
       SDL_RenderFillRect (x * WINDOW_SCALE) (y * WINDOW_SCALE)
         WINDOW_SCALE WINDOW_SCALE]
    else [].

Definition screen_calls (c : Chip8) (xs ys : list Z) : list SDL_Call :=
  ys ≫= row_calls c xs.

(** ** Machines for the instruction theorems

    Each is the machine at start for a ROM of one or two instructions,
    with the registers the instruction reads. *)

Definition example_add : Chip8 :=
  with_reg 1 0x90 (with_reg 0 0x80 (boot [0x80; 0x14])).
Definition example_load_imm : Chip8 := boot [0x6A; 0x2B].
Definition example_or : Chip8 :=
  with_reg 1 0x0F (with_reg 0 0xF0 (boot [0x80; 0x11])).
Definition example_skip_imm : Chip8 := with_reg 2 0x33 (boot [0x32; 0x33]).
Definition example_jump_V0 : Chip8 := with_reg 0 0xFF (boot [0xBF; 0xFF]).
Definition example_key : Chip8 := with_reg 0 5 (boot [0xE0; 0x9E]).
Definition example_key_out : Chip8 := with_reg 0 0x10 (boot [0xE0; 0xA1]).
Definition example_random : Chip8 := boot [0xC0; 0x0F].
Definition example_draw_none : Chip8 := boot [0xD0; 0x10].
Definition example_return : Chip8 := boot [0x00; 0xEE].
Definition example_deep_call : Chip8 := set_sp 16 (boot [0x22; 0x00]).
Definition example_timer_read : Chip8 :=
  with_reg 0 5 (boot [0xF0; 0x15; 0xF1; 0x07]).
Definition example_sys : Chip8 := boot [0x01; 0x23].
Definition example_unknown : Chip8 := boot [0xF0; 0xFF].
Definition example_clear : Chip8 :=
  let c := boot [0x00; 0xE0] in
  set_display (<[200%nat := 1]> (display c)) c.
Definition example_mode : Chip8 := boot [0x00; 0xFF].
Definition example_scroll_timer : Chip8 :=
  set_delay_timer 9 (boot [0x00; 0xFB]).
Definition example_store : Chip8 :=
  set_I 0x300 (with_reg 1 0x22 (with_reg 0 0x11 (boot [0xF1; 0x55]))).
Definition example_load : Chip8 := set_I 0x200 (boot [0xF1; 0x65]).
Definition example_bcd : Chip8 :=
  set_I 0x300 (with_reg 0 0xEA (boot [0xF0; 0x33])).
Definition example_font : Chip8 := with_reg 0 0xA (boot [0xF0; 0x29]).
Definition example_wait : Chip8 := boot [0xF0; 0x0A].
Definition example_scroll_left : Chip8 :=
  let c := boot [0x00; 0xFC] in
  set_display (<[9%nat := 1]> (display c)) c.
Definition example_scroll_down : Chip8 :=
  let c := boot [0x00; 0xC3] in
  set_display (<[9%nat := 1]> (display c)) c.
Definition example_pc_end : Chip8 := set_pc 0xFFF (boot [0x12; 0x00]).

(** An environment whose [rand()] returns 0x1234, and one in which a batch
    without keys is followed by a batch with two key presses. *)
Definition example_rand : Env := mkEnv 0x1234 [].
Definition example_polls : Env :=
  mkEnv 0 [[SDL_OTHER; SDL_KEYUP SDLK_q];
           [SDL_KEYDOWN SDLK_q; SDL_KEYDOWN SDLK_other; SDL_KEYDOWN SDLK_w];
           [SDL_QUIT]].

(** A frame in which the window is closed between two key events. *)
Definition example_quit_frame : Frame :=
  mkFrame [SDL_KEYDOWN SDLK_1; SDL_QUIT; SDL_KEYDOWN SDLK_2] quiet false.

(** A machine in extended mode with two cells set, one of them with a
    value other than 1. *)
Definition example_frame : Chip8 :=
  let c := set_mode 1 EXT_WIDTH EXT_HEIGHT (0, 255, 255) (0, 0, 128)
             (boot [0x12; 0x00]) in
  set_display (<[130%nat := 7]> (<[3%nat := 1]> (display c))) c.

(** * Basic facts about outcomes, arrays and decoding *)

Lemma bind_Ok {A B : Type} (a : A) (k : A -> Outcome B) : bind (Ok a) k = k a.
Proof. reflexivity. Qed.

Lemma bind_Ok_inv {A B : Type} (m : Outcome A) (k : A -> Outcome B) (b : B) :
  bind m k = Ok b -> exists a, m = Ok a /\ k a = Ok b.
Proof. destruct m; simpl; intros H; try discriminate. eauto. Qed.

Lemma load_total (a : list Z) (i : Z) :
  0 <= i < Z.of_nat (length a) -> load a i = Ok (a !!! Z.to_nat i).
Proof.
  intros [H0 H1]. unfold load.
  destruct (Z.leb_spec 0 i); [|lia].
  assert (Hlt : (Z.to_nat i < length a)%nat) by lia.
  rewrite (list_lookup_lookup_total_lt a _ Hlt). reflexivity.
Qed.

Lemma load_Ok_inv (a : list Z) (i v : Z) :
  load a i = Ok v ->
  0 <= i < Z.of_nat (length a) /\ a !! Z.to_nat i = Some v.
Proof.
  unfold load. destruct (Z.leb_spec 0 i); [|discriminate].
  destruct (a !! Z.to_nat i) as [w|] eqn:E; [|discriminate].
  intros [= ->]. apply lookup_lt_Some in E as E'. split; [lia|done].
Qed.

Lemma store_total (a : list Z) (i v : Z) :
  0 <= i < Z.of_nat (length a) -> store a i v = Ok (<[Z.to_nat i := v]> a).
Proof.
  intros [H0 H1]. unfold store.
  destruct (Z.leb_spec 0 i); [|lia]. destruct (Z.ltb_spec i (Z.of_nat (length a))); [|lia].
  reflexivity.
Qed.

Lemma store_Ok_inv (a : list Z) (i v : Z) (a' : list Z) :
  store a i v = Ok a' ->
  0 <= i < Z.of_nat (length a) /\ a' = <[Z.to_nat i := v]> a.
Proof.
  unfold store. destruct (Z.leb_spec 0 i); [|discriminate].
  destruct (Z.ltb_spec i (Z.of_nat (length a))); [|discriminate].
  intros [= <-]. split; [lia|done].
Qed.

Lemma get_V_reg (c : Chip8) (x : Z) :
  len (V c) = 16 -> nibble x -> get_V x c = Ok (reg c x).
Proof. intros HV Hx. apply load_total. unfold nibble, len in *. lia. Qed.

Lemma put_V_with_reg (c : Chip8) (x v : Z) :
  len (V c) = 16 -> nibble x -> put_V x v c = Ok (with_reg x v c).
Proof.
  intros HV Hx. unfold put_V. rewrite store_total; [done|].
  unfold nibble, len in *. lia.
Qed.

Lemma all_from_spec (n : nat) (p : Z -> bool) :
  forall a z, all_from n p a = true -> a <= z < a + Z.of_nat n -> p z = true.
Proof.
  induction n as [|n IH]; intros a z H Hz; [lia|].
  simpl in H. apply andb_true_iff in H as [Ha Hrest].
  destruct (Z.eq_dec z a) as [->|Hne]; [exact Ha|].
  apply (IH (a + 1)); [exact Hrest|lia].
Qed.

Lemma fields_ok_all : all_from (Z.to_nat 65536) fields_ok 0 = true.
Proof. vm_compute. reflexivity. Qed.

Lemma fields_ok_word (op : Z) : 0 <= op < 65536 -> fields_ok op = true.
Proof. intros H. apply (all_from_spec _ _ 0 op fields_ok_all). lia. Qed.

Lemma opcode_of_word (t x y n : Z) :
  nibble t -> nibble x -> nibble y -> nibble n ->
  0 <= opcode_of t x y n < 65536.
Proof. unfold nibble, opcode_of. lia. Qed.

(** The fields that [emulateCycle] extracts from the opcode [t x y n]. *)
Lemma opcode_of_fields (t x y n : Z) :
  nibble t -> nibble x -> nibble y -> nibble n ->
  let op := opcode_of t x y n in
  Z.land op 0xF000 = 4096 * t
  /\ wrap8 (Z.shiftr (Z.land op 0x0F00) 8) = x
  /\ wrap8 (Z.shiftr (Z.land op 0x00F0) 4) = y
  /\ wrap8 (Z.land op 0x00FF) = 16 * y + n
  /\ wrap16 (Z.land op 0x0FFF) = 256 * x + 16 * y + n
  /\ wrap8 (Z.land op 0x000F) = n
  /\ Z.land op 0x000F = n
  /\ Z.land op 0x00FF = 16 * y + n
  /\ Z.land op 0xF0FF = 4096 * t + 16 * y + n
  /\ Z.land op 0x00F0 = 16 * y.
Proof.
  intros Ht Hx Hy Hn op.
  pose proof (fields_ok_word op (opcode_of_word t x y n Ht Hx Hy Hn)) as F.
  unfold fields_ok in F.
  repeat (apply andb_true_iff in F as [F ?]).
  repeat match goal with H : (_ =? _) = true |- _ => apply Z.eqb_eq in H end.
  assert (D1 : op / 4096 = t)
    by (subst op; unfold nibble, opcode_of in *; Z.div_mod_to_equations; lia).
  assert (D2 : (op / 256) mod 16 = x)
    by (subst op; unfold nibble, opcode_of in *; Z.div_mod_to_equations; lia).
  assert (D3 : (op / 16) mod 16 = y)
    by (subst op; unfold nibble, opcode_of in *; Z.div_mod_to_equations; lia).
  assert (D4 : op mod 256 = 16 * y + n)
    by (subst op; unfold nibble, opcode_of in *; Z.div_mod_to_equations; lia).
  assert (D5 : op mod 4096 = 256 * x + 16 * y + n)
    by (subst op; unfold nibble, opcode_of in *; Z.div_mod_to_equations; lia).
  assert (D6 : op mod 16 = n)
    by (subst op; unfold nibble, opcode_of in *; Z.div_mod_to_equations; lia).
  rewrite D1, ?D2, ?D3, ?D4, ?D5, ?D6 in *.
  unfold wrap8, wrap16, nibble in *.
  repeat split;
    match goal with
    | H : ?l = _ |- context [?l] =>
        rewrite H; first [lia | apply Z.mod_small; lia]
    end.
Qed.

Lemma fetchOpcode_word (c : Chip8) (op : Z) :
  fetchOpcode c = Ok op -> 0 <= op < 65536.
Proof.
  unfold fetchOpcode. intros H.
  apply bind_Ok_inv in H as (hi & _ & H).
  apply bind_Ok_inv in H as (lo & _ & H).
  injection H as <-. unfold wrap16. apply Z.mod_pos_bound. lia.
Qed.

Lemma in_rangeb_sound (bound : Z) (l : list Z) :
  in_rangeb bound l = true -> in_range bound l.
Proof.
  unfold in_rangeb, in_range. rewrite forallb_forall, Forall_forall.
  intros H v Hv.
  pose proof (H v Hv) as E. lia.
Qed.

Lemma below_sound (bound z : Z) : below bound z = true -> 0 <= z < bound.
Proof. unfold below. lia. Qed.

Lemma wfb_sound (c : Chip8) : wfb c = true -> wf c.
Proof.
  unfold wfb. intros H.
  apply andb_true_iff in H as [H Hmode].
  repeat (apply andb_true_iff in H as [H ?]).
  constructor;
    try (apply in_rangeb_sound; assumption);
    try (apply below_sound; assumption);
    try (apply Z.eqb_eq; assumption).
  apply orb_true_iff in Hmode as [M|M]; [left|right];
    apply andb_true_iff in M as [M M3]; apply andb_true_iff in M as [M1 M2];
    apply Z.eqb_eq in M1, M2, M3; auto.
Qed.

Lemma in_range_lookup_total (bound : Z) (l : list Z) (i : nat) :
  in_range bound l -> (i < length l)%nat -> 0 <= l !!! i < bound.
Proof.
  intros H Hi. unfold in_range in H. rewrite Forall_lookup in H.
  apply (H i). apply list_lookup_lookup_total_lt. exact Hi.
Qed.

Lemma wf_reg_byte (c : Chip8) (x : Z) :
  wf c -> nibble x -> 0 <= reg c x < 256.
Proof.
  intros W Hx. apply in_range_lookup_total; [apply W|].
  pose proof (wf_V_size c W) as HV. unfold nibble, len, REGISTER_COUNT in *. lia.
Qed.

Lemma reg_with_reg_eq (c : Chip8) (i v : Z) :
  len (V c) = 16 -> nibble i -> reg (with_reg i v c) i = v.
Proof.
  intros HV Hi. unfold reg, with_reg. simpl.
  apply list_lookup_total_insert_eq. unfold nibble, len in *. lia.
Qed.

Lemma reg_with_reg_ne (c : Chip8) (i j v : Z) :
  nibble i -> nibble j -> i <> j -> reg (with_reg i v c) j = reg c j.
Proof.
  intros Hi Hj Hne. unfold reg, with_reg. simpl.
  apply list_lookup_total_insert_ne. unfold nibble in *. lia.
Qed.

Lemma len_V_with_reg (c : Chip8) (i v : Z) :
  len (V (with_reg i v c)) = len (V c).
Proof. unfold with_reg, len. simpl. rewrite length_insert. reflexivity. Qed.

Lemma fetch_in_memory (c : Chip8) (op : Z) :
  wf c -> fetchOpcode c = Ok op -> 0 <= pc c /\ pc c + 1 < MEMORY_SIZE.
Proof.
  intros W Hfetch. unfold fetchOpcode in Hfetch.
  apply bind_Ok_inv in Hfetch as (hi & Hhi & H).
  apply bind_Ok_inv in H as (lo & Hlo & _).
  apply load_Ok_inv in Hhi as [? _]. apply load_Ok_inv in Hlo as [? _].
  pose proof (wf_memory_size c W) as M. unfold len in M. lia.
Qed.

(** * Decoding and dispatch *)

(** The tests of the extended opcodes, as tests on the digits. *)
Lemma low_byte_test (t y n k1 k0 : Z) :
  0 <= t -> 0 <= y < 16 -> 0 <= n < 16 -> 0 <= k1 < 16 -> 0 <= k0 < 16 ->
  (4096 * t + 16 * y + n =? 16 * k1 + k0)
  = (t =? 0) && (y =? k1) && (n =? k0).
Proof.
  intros Ht Hy Hn H1 H0.
  destruct (Z.eqb_spec t 0), (Z.eqb_spec y k1), (Z.eqb_spec n k0); simpl;
    first [apply Z.eqb_eq | apply Z.eqb_neq]; lia.
Qed.

Lemma third_digit_test (t y k : Z) :
  0 <= t -> 0 <= y < 16 -> 0 <= k < 16 ->
  (4096 * t =? 0) && (16 * y =? 16 * k) = (t =? 0) && (y =? k).
Proof.
  intros Ht Hy Hk.
  destruct (Z.eqb_spec t 0), (Z.eqb_spec y k); simpl;
    rewrite ?andb_false_r;
    first [ reflexivity
          | apply andb_true_iff; split; apply Z.eqb_eq; lia
          | apply andb_false_iff; right; apply Z.eqb_neq; lia
          | apply andb_false_iff; left; apply Z.eqb_neq; lia ].
Qed.

Section Dispatch.
Variables (env : Env) (c : Chip8) (t x y n : Z).
Hypotheses (Ht : nibble t) (Hx : nibble x) (Hy : nibble y) (Hn : nibble n).
Hypothesis Hfetch : fetchOpcode c = Ok (opcode_of t x y n).

(** One cycle on the opcode [t x y n], with every test of the decoder
    rewritten as a test on the digits. *)
Lemma emulateCycle_dispatch :
  emulateCycle env c =
    if (t =? 0) && (y =? 0xF) && (n =? 0xB) then scroll_horizontal 1 (skip c)
    else if (t =? 0) && (y =? 0xF) && (n =? 0xC)
    then scroll_horizontal (-1) (skip c)
    else if (t =? 0) && (y =? 0xF) && (n =? 0xD) then Exit 0
    else if (t =? 0) && (y =? 0xF) && (n =? 0xE) then
      Ok (set_display (zeroed (MAX_WIDTH * MAX_HEIGHT))
            (set_mode 0 NORMAL_WIDTH NORMAL_HEIGHT (255, 255, 255) (0, 0, 0)
               (skip c)))
    else if (t =? 0) && (y =? 0xF) && (n =? 0xF) then
      Ok (set_display (zeroed (MAX_WIDTH * MAX_HEIGHT))
            (set_mode 1 EXT_WIDTH EXT_HEIGHT (0, 255, 255) (0, 0, 128)
               (skip c)))
    else if (t =? 0) && (y =? 0xC) then scroll_down n (skip c)
    else
      let* c' :=
        execute env (opcode_of t x y n) x y (16 * y + n)
          (256 * x + 16 * y + n) n (skip c) in
      Ok (tick c').
Proof.
  destruct (opcode_of_fields t x y n Ht Hx Hy Hn)
    as (F1 & F2 & F3 & F4 & F5 & F6 & F7 & F8 & F9 & F10).
  unfold emulateCycle. rewrite Hfetch, bind_Ok. cbv zeta.
  rewrite F1, F2, F3, F4, F5, F6, F7, F9, F10. fold (skip c).
  change (4096 * t + 16 * y + n =? 0xFB)
    with (4096 * t + 16 * y + n =? 16 * 0xF + 0xB).
  change (4096 * t + 16 * y + n =? 0xFC)
    with (4096 * t + 16 * y + n =? 16 * 0xF + 0xC).
  change (4096 * t + 16 * y + n =? 0xFD)
    with (4096 * t + 16 * y + n =? 16 * 0xF + 0xD).
  change (4096 * t + 16 * y + n =? 0xFE)
    with (4096 * t + 16 * y + n =? 16 * 0xF + 0xE).
  change (4096 * t + 16 * y + n =? 0xFF)
    with (4096 * t + 16 * y + n =? 16 * 0xF + 0xF).
  change (16 * y =? 0xC0) with (16 * y =? 16 * 0xC).
  rewrite !(low_byte_test t y n 0xF) by (unfold nibble in *; lia).
  rewrite (third_digit_test t y 0xC) by (unfold nibble in *; lia).
  reflexivity.
Qed.

(** An opcode whose first digit is not 0 goes to the standard table. *)
Lemma emulateCycle_standard :
  t <> 0 ->
  emulateCycle env c =
    let* c' :=
      execute env (opcode_of t x y n) x y (16 * y + n)
        (256 * x + 16 * y + n) n (skip c) in
    Ok (tick c').
Proof.
  intros Hne. rewrite emulateCycle_dispatch.
  destruct (Z.eqb_spec t 0) as [?|_]; [contradiction|]. reflexivity.
Qed.

(** Every opcode outside the six extended patterns goes there too. *)
Lemma emulateCycle_not_extended :
  ~ (t = 0 /\ (y = 0xC \/ (y = 0xF /\ 0xB <= n))) ->
  emulateCycle env c =
    let* c' :=
      execute env (opcode_of t x y n) x y (16 * y + n)
        (256 * x + 16 * y + n) n (skip c) in
    Ok (tick c').
Proof.
  intros Hne. rewrite emulateCycle_dispatch. unfold nibble in *.
  destruct (Z.eqb_spec t 0); [|reflexivity].
  destruct (Z.eqb_spec y 0xC); [lia|].
  destruct (Z.eqb_spec y 0xF); [|reflexivity].
  destruct (Z.eqb_spec n 0xB); [lia|].
  destruct (Z.eqb_spec n 0xC); [lia|].
  destruct (Z.eqb_spec n 0xD); [lia|].
  destruct (Z.eqb_spec n 0xE); [lia|].
  destruct (Z.eqb_spec n 0xF); [lia|].
  reflexivity.
Qed.

Lemma execute_top :
  Z.land (opcode_of t x y n) 0xF000 = 4096 * t.
Proof. apply (opcode_of_fields t x y n Ht Hx Hy Hn). Qed.

Lemma execute_low :
  Z.land (opcode_of t x y n) 0x000F = n
  /\ Z.land (opcode_of t x y n) 0x00FF = 16 * y + n.
Proof.
  destruct (opcode_of_fields t x y n Ht Hx Hy Hn)
    as (F1 & F2 & F3 & F4 & F5 & F6 & F7 & F8 & F9 & F10).
  split; assumption.
Qed.
End Dispatch.

(** * Register instructions *)

(** Rewrite a cycle whose fetch is [H] to the case of the standard table
    selected by the first digit of the opcode. *)
Ltac nibbles := first [assumption | unfold nibble in *; lia].

Ltac run_standard H :=
  match type of H with
  | fetchOpcode ?c = Ok (opcode_of ?t ?x ?y ?n) =>
      rewrite (emulateCycle_standard _ c t x y n) by nibbles;
      unfold execute;
      rewrite (execute_top t x y n) by nibbles;
      let v := eval compute in (4096 * t) in
      change (4096 * t) with v;
      cbv iota beta zeta
  end.

(** The same for the inner switches on the low digit or the low byte. *)
Ltac run_inner H :=
  match type of H with
  | fetchOpcode ?c = Ok (opcode_of ?t ?x ?y ?n) =>
      let L := fresh "L" in
      assert (L := execute_low t x y n ltac:(nibbles) ltac:(nibbles)
                     ltac:(nibbles) ltac:(nibbles));
      unfold alu, misc, key_skip;
      rewrite ?(proj1 L), ?(proj2 L); clear L;
      try (let v := eval compute in (16 * y + n) in
           change (16 * y + n) with v);
      cbv iota beta zeta
  end.

Lemma V_tick (c : Chip8) : V (tick c) = V c.
Proof.
  unfold tick.
  destruct (delay_timer c >? 0); simpl;
    match goal with |- context [if ?b then _ else _] => destruct b end;
    reflexivity.
Qed.

Lemma reg_tick (c : Chip8) (i : Z) : reg (tick c) i = reg c i.
Proof. unfold reg. rewrite V_tick. reflexivity. Qed.

Lemma I_tick (c : Chip8) : I (tick c) = I c.
Proof.
  unfold tick.
  destruct (delay_timer c >? 0); simpl;
    match goal with |- context [if ?b then _ else _] => destruct b end;
    reflexivity.
Qed.

Lemma land_1_bit0 (v : Z) : Z.land v 1 = Z.b2z (Z.testbit v 0).
Proof. rewrite Z.bit0_mod. apply (Z.land_ones v 1). lia. Qed.

Lemma land_128_bit7 (v : Z) :
  Z.shiftr (Z.land v 0x80) 7 = Z.b2z (Z.testbit v 7).
Proof.
  rewrite Z.shiftr_land. change (Z.shiftr 0x80 7) with 1.
  rewrite land_1_bit0, Z.shiftr_spec by lia. reflexivity.
Qed.

Lemma wrap8_small (v : Z) : 0 <= v < 256 -> wrap8 v = v.
Proof. apply Z.mod_small. Qed.

Lemma wrap8_b2z (b : bool) : wrap8 (Z.b2z b) = Z.b2z b.
Proof. destruct b; reflexivity. Qed.

Section Registers.
Variables (env : Env) (c : Chip8) (x y n : Z).
Hypotheses (Hx : nibble x) (Hy : nibble y) (Hn : nibble n).
Hypothesis W : wf c.

(** C9: every opcode 5xy_ skips the next instruction when Vx = Vy and
    every opcode 9xy_ skips it when Vx <> Vy, whatever the last digit. *)
Theorem skip_on_registers_ignores_last_digit :
  (fetchOpcode c = Ok (opcode_of 5 x y n) ->
   emulateCycle env c =
     Ok (tick (if reg c x =? reg c y then skip (skip c) else skip c)))
  /\ (fetchOpcode c = Ok (opcode_of 9 x y n) ->
      emulateCycle env c =
        Ok (tick (if reg c x =? reg c y then skip c else skip (skip c)))).
Proof.
  pose proof (wf_V_size c W : len (V (skip c)) = 16) as HV.
  split; intros Hfetch.
  - run_standard Hfetch.
    rewrite !get_V_reg, !bind_Ok by assumption.
    change (reg (skip c)) with (reg c).
    destruct (reg c x =? reg c y); reflexivity.
  - run_standard Hfetch.
    rewrite !get_V_reg, !bind_Ok by assumption.
    change (reg (skip c)) with (reg c).
    destruct (reg c x =? reg c y); reflexivity.
Qed.

(** What 8xy5 and 8xy7 do for any operands: the flag is written first
    and the subtraction reads the registers after that. *)
Lemma sub_effect :
  (fetchOpcode c = Ok (opcode_of 8 x y 5) ->
   emulateCycle env c =
     Ok (tick
           (let c1 :=
              with_reg 0xF (if reg c x >? reg c y then 1 else 0) (skip c) in
            with_reg x (wrap8 (reg c1 x - reg c1 y)) c1)))
  /\ (fetchOpcode c = Ok (opcode_of 8 x y 7) ->
      emulateCycle env c =
        Ok (tick
              (let c1 :=
                 with_reg 0xF (if reg c y >? reg c x then 1 else 0) (skip c) in
               with_reg x (wrap8 (reg c1 y - reg c1 x)) c1))).
Proof.
  pose proof (wf_V_size c W : len (V (skip c)) = 16) as HV.
  split; intros Hfetch; run_standard Hfetch; run_inner Hfetch.
  - rewrite !get_V_reg, !bind_Ok by nibbles.
    rewrite put_V_with_reg, bind_Ok by nibbles.
    rewrite !get_V_reg, !bind_Ok by (rewrite ?len_V_with_reg; nibbles).
    rewrite put_V_with_reg, bind_Ok by (rewrite ?len_V_with_reg; nibbles).
    reflexivity.
  - rewrite !get_V_reg, !bind_Ok by nibbles.
    rewrite put_V_with_reg, bind_Ok by nibbles.
    rewrite !get_V_reg, !bind_Ok by (rewrite ?len_V_with_reg; nibbles).
    rewrite put_V_with_reg, bind_Ok by (rewrite ?len_V_with_reg; nibbles).
    reflexivity.
Qed.

(** With operands other than VF: Vx receives the difference modulo 256
    and VF is 1 exactly when the minuend is strictly greater. *)
Lemma sub_flag_is_strict :
  x <> 0xF -> y <> 0xF ->
  (fetchOpcode c = Ok (opcode_of 8 x y 5) ->
   exists c', emulateCycle env c = Ok c'
     /\ reg c' x = (reg c x - reg c y) mod 256
     /\ (reg c' 0xF = 1 <-> reg c x > reg c y)
     /\ (reg c' 0xF = 0 <-> reg c x <= reg c y))
  /\ (fetchOpcode c = Ok (opcode_of 8 x y 7) ->
      exists c', emulateCycle env c = Ok c'
        /\ reg c' x = (reg c y - reg c x) mod 256
        /\ (reg c' 0xF = 1 <-> reg c y > reg c x)
        /\ (reg c' 0xF = 0 <-> reg c y <= reg c x)).
Proof.
  intros HxF HyF.
  pose proof (wf_V_size c W : len (V (skip c)) = 16) as HV.
  assert (HF : nibble 0xF) by (unfold nibble; lia).
  destruct sub_effect as [S5 S7].
  split; intros Hfetch; eexists;
    (split; [first [apply S5; exact Hfetch | apply S7; exact Hfetch]|]);
    cbv zeta; rewrite !reg_tick;
    rewrite reg_with_reg_eq by (rewrite ?len_V_with_reg; nibbles);
    rewrite !(reg_with_reg_ne (with_reg 0xF _ (skip c)) x 0xF) by nibbles;
    rewrite !(reg_with_reg_ne (skip c) 0xF x) by nibbles;
    rewrite !(reg_with_reg_ne (skip c) 0xF y) by nibbles;
    rewrite reg_with_reg_eq by nibbles;
    change (reg (skip c)) with (reg c); unfold wrap8;
    (split; [reflexivity|]).
  - destruct (Z.gtb_spec (reg c x) (reg c y)); split; split; intros; lia.
  - destruct (Z.gtb_spec (reg c y) (reg c x)); split; split; intros; lia.
Qed.

(** C10: 8xy6 and 8xyE shift Vx in place.  VF receives bit 0 (bit 7) of
    Vx first; the value shifted is then read from Vx, which for x = F
    is the flag just written.  Neither y nor Vy occurs in the result. *)
Theorem shifts_ignore_Vy :
  let vx := reg c x in
  let b0 := Z.b2z (Z.testbit vx 0) in
  let b7 := Z.b2z (Z.testbit vx 7) in
  (fetchOpcode c = Ok (opcode_of 8 x y 6) ->
   emulateCycle env c =
     Ok (tick (with_reg x (Z.shiftr (if x =? 0xF then b0 else vx) 1)
                 (with_reg 0xF b0 (skip c)))))
  /\ (fetchOpcode c = Ok (opcode_of 8 x y 0xE) ->
      emulateCycle env c =
        Ok (tick (with_reg x
                    (Z.shiftl (if x =? 0xF then b7 else vx) 1 mod 256)
                    (with_reg 0xF b7 (skip c))))).
Proof.
  intros vx b0 b7.
  pose proof (wf_V_size c W : len (V (skip c)) = 16) as HV.
  assert (HF : nibble 0xF) by (unfold nibble; lia).
  assert (Hvx : 0 <= vx < 256) by (apply wf_reg_byte; assumption).
  assert (Hread : forall b, 0 <= b <= 1 ->
            reg (with_reg 0xF b (skip c)) x = if x =? 0xF then b else vx).
  { intros b Hb. destruct (Z.eqb_spec x 0xF) as [->|Hne].
    - apply reg_with_reg_eq; nibbles.
    - apply reg_with_reg_ne; nibbles. }
  split; intros Hfetch; run_standard Hfetch; run_inner Hfetch.
  - rewrite get_V_reg, bind_Ok by nibbles.
    change (reg (skip c) x) with vx.
    rewrite land_1_bit0, wrap8_b2z. fold b0.
    rewrite put_V_with_reg, bind_Ok by nibbles.
    rewrite get_V_reg, bind_Ok by (rewrite ?len_V_with_reg; nibbles).
    rewrite put_V_with_reg, bind_Ok by (rewrite ?len_V_with_reg; nibbles).
    rewrite Hread by (subst b0; destruct (Z.testbit vx 0); simpl; lia).
    rewrite wrap8_small; [reflexivity|].
    rewrite Z.shiftr_div_pow2 by lia. change (2 ^ 1) with 2.
    assert (0 <= b0 <= 1) by (subst b0; destruct (Z.testbit vx 0); simpl; lia).
    destruct (x =? 0xF); Z.div_mod_to_equations; lia.
  - rewrite get_V_reg, bind_Ok by nibbles.
    change (reg (skip c) x) with vx.
    rewrite land_128_bit7, wrap8_b2z. fold b7.
    rewrite put_V_with_reg, bind_Ok by nibbles.
    rewrite get_V_reg, bind_Ok by (rewrite ?len_V_with_reg; nibbles).
    rewrite put_V_with_reg, bind_Ok by (rewrite ?len_V_with_reg; nibbles).
    rewrite Hread by (subst b7; destruct (Z.testbit vx 7); simpl; lia).
    reflexivity.
Qed.

(** C3 as the code has it: Fx1E adds Vx to the 16-bit I, so the sum is
    reduced modulo 65536; it is the literal sum when that fits. *)
Theorem add_to_I_wraps_at_16_bits :
  fetchOpcode c = Ok (opcode_of 0xF x 1 0xE) ->
  exists c', emulateCycle env c = Ok c'
    /\ I c' = (I c + reg c x) mod 65536
    /\ (I c + reg c x < 65536 -> I c' = I c + reg c x).
Proof.
  intros Hfetch.
  pose proof (wf_V_size c W : len (V (skip c)) = 16) as HV.
  eexists. split.
  - run_standard Hfetch. run_inner Hfetch.
    rewrite get_V_reg, !bind_Ok by nibbles. reflexivity.
  - rewrite I_tick. simpl. change (reg (skip c) x) with (reg c x).
    unfold wrap16. split; [reflexivity|]. intros Hlt.
    apply Z.mod_small.
    pose proof (wf_I c W). pose proof (wf_reg_byte c x W Hx). lia.
Qed.
End Registers.


(** * Dispatch of the extended opcodes, call and return *)

Section Extended.
Variables (env : Env) (c : Chip8) (t x y n : Z).
Hypotheses (Ht : nibble t) (Hx : nibble x) (Hy : nibble y) (Hn : nibble n).
Hypothesis Hfetch : fetchOpcode c = Ok (opcode_of t x y n).

(** C4 as the code has it: the extended effects are selected by the first
    digit 0 and the low byte FB, FC, FD, FE, FF (or third digit C), with
    any second digit [x]; every other opcode goes to the standard table
    and is followed by the timer update. *)
Theorem extended_dispatch_ignores_second_digit :
  (t = 0 -> y = 0xF -> n = 0xB ->
   emulateCycle env c = scroll_horizontal 1 (skip c))
  /\ (t = 0 -> y = 0xF -> n = 0xC ->
      emulateCycle env c = scroll_horizontal (-1) (skip c))
  /\ (t = 0 -> y = 0xF -> n = 0xD -> emulateCycle env c = Exit 0)
  /\ (t = 0 -> y = 0xF -> n = 0xE ->
      emulateCycle env c =
        Ok (set_display (zeroed (MAX_WIDTH * MAX_HEIGHT))
              (set_mode 0 NORMAL_WIDTH NORMAL_HEIGHT (255, 255, 255)
                 (0, 0, 0) (skip c))))
  /\ (t = 0 -> y = 0xF -> n = 0xF ->
      emulateCycle env c =
        Ok (set_display (zeroed (MAX_WIDTH * MAX_HEIGHT))
              (set_mode 1 EXT_WIDTH EXT_HEIGHT (0, 255, 255) (0, 0, 128)
                 (skip c))))
  /\ (t = 0 -> y = 0xC -> emulateCycle env c = scroll_down n (skip c))
  /\ (~ (t = 0 /\ (y = 0xC \/ (y = 0xF /\ 0xB <= n))) ->
      emulateCycle env c =
        let* c' :=
          execute env (opcode_of t x y n) x y (16 * y + n)
            (256 * x + 16 * y + n) n (skip c) in
        Ok (tick c')).
Proof.
  repeat split; intros;
    try (apply emulateCycle_not_extended; assumption);
    rewrite (emulateCycle_dispatch env c t x y n Ht Hx Hy Hn Hfetch);
    subst; reflexivity.
Qed.
End Extended.

Section CallReturn.
Variables (env env' : Env) (c : Chip8) (x y n : Z).
Hypotheses (Hx : nibble x) (Hy : nibble y) (Hn : nibble n).
Hypothesis W : wf c.
Hypothesis Hfetch : fetchOpcode c = Ok (opcode_of 2 x y n).
Hypothesis Hsp : sp c < STACK_SIZE.

(** C8: 2nnn stores the program counter already advanced past the call
    at [stack[sp]], increments [sp] and jumps to nnn; a 00EE executed
    in any later state [r] with that stack pointer and that stack slot
    returns to the instruction after the call with [sp] as before it. *)
Theorem call_then_return :
  exists c1,
    emulateCycle env c = Ok c1
    /\ pc c1 = 256 * x + 16 * y + n
    /\ sp c1 = sp c + 1
    /\ stack c1 !! Z.to_nat (sp c) = Some (pc c + 2)
    /\ forall r,
         sp r = sp c1 ->
         stack r !! Z.to_nat (sp c) = Some (pc c + 2) ->
         fetchOpcode r = Ok 0x00EE ->
         exists c2,
           emulateCycle env' r = Ok c2
           /\ pc c2 = pc c + 2 /\ sp c2 = sp c.
Proof.
  destruct (fetch_in_memory c _ W Hfetch) as [Hpc0 Hpc1]. unfold MEMORY_SIZE in Hpc1.
  pose proof (wf_sp c W) as Hsp0. unfold STACK_SIZE in Hsp.
  pose proof (wf_stack_size c W) as Hst. unfold STACK_SIZE in Hst.
  assert (Epc : wrap16 (pc c + 2) = pc c + 2)
    by (apply Z.mod_small; lia).
  assert (Esp : wrap8 (sp c + 1) = sp c + 1)
    by (apply Z.mod_small; lia).
  eexists. split; [|split; [|split; [|split]]].
  - run_standard Hfetch.
    rewrite store_total, bind_Ok by (simpl; unfold len in Hst; lia).
    reflexivity.
  - unfold tick. simpl.
    repeat match goal with |- context [if ?b then _ else _] => destruct b end;
      reflexivity.
  - unfold tick. simpl.
    repeat match goal with |- context [if ?b then _ else _] => destruct b end;
      simpl; exact Esp.
  - unfold tick. simpl. rewrite Epc.
    repeat match goal with |- context [if ?b then _ else _] => destruct b end;
      simpl; apply list_lookup_insert_eq; unfold len in Hst; lia.
  - intros r Hr Hslot HfetchR.
    assert (Esp1 : sp r = sp c + 1).
    { rewrite Hr. unfold tick. simpl.
      repeat match goal with |- context [if ?b then _ else _] => destruct b end;
        simpl; exact Esp. }
    clear Hr.
    change 0x00EE with (opcode_of 0 0 0xE 0xE) in HfetchR.
    assert (N0 : nibble 0) by (unfold nibble; lia).
    assert (NE : nibble 0xE) by (unfold nibble; lia).
    rewrite (emulateCycle_not_extended env' r 0 0 0xE 0xE N0 N0 NE NE HfetchR)
      by lia.
    unfold execute. rewrite (execute_top 0 0 0xE 0xE) by assumption.
    change (4096 * 0) with 0. change (opcode_of 0 0 0xE 0xE) with 0x00EE.
    cbv iota beta zeta. simpl sp. simpl stack. rewrite Esp1.
    replace (wrap8 (sp c + 1 - 1)) with (sp c)
      by (unfold wrap8; rewrite Z.mod_small; lia).
    unfold load. destruct (Z.leb_spec 0 (sp c)); [|lia].
    rewrite Hslot, bind_Ok. eexists. split; [reflexivity|].
    unfold tick. simpl.
    repeat match goal with |- context [if ?b then _ else _] => destruct b end;
      simpl; split; reflexivity.
Qed.
End CallReturn.

(** * Timers *)

(** ** Fields that an instruction does not assign

    [f] is a field of the machine that no setter but its own changes;
    [own] is the low byte of the Fx__ instruction that assigns it. *)

Section Keeps.
Variable f : Chip8 -> Z.
Variable own : Z.
Hypothesis f_set_memory : forall l c, f (set_memory l c) = f c.
Hypothesis f_set_V : forall l c, f (set_V l c) = f c.
Hypothesis f_set_I : forall v c, f (set_I v c) = f c.
Hypothesis f_set_pc : forall v c, f (set_pc v c) = f c.
Hypothesis f_set_stack : forall l c, f (set_stack l c) = f c.
Hypothesis f_set_sp : forall v c, f (set_sp v c) = f c.
Hypothesis f_set_display : forall l c, f (set_display l c) = f c.
Hypothesis f_set_mode :
  forall e w h a b c, f (set_mode e w h a b c) = f c.
Hypothesis f_set_delay_timer :
  own <> 0x15 -> forall v c, f (set_delay_timer v c) = f c.
Hypothesis f_set_sound_timer :
  own <> 0x18 -> forall v c, f (set_sound_timer v c) = f c.

Lemma keeps_Ok (v : Z) (c : Chip8) : f c = v -> keeps f v (Ok c).
Proof. intros H c' [= <-]. exact H. Qed.

Lemma keeps_bind {A : Type} (v : Z) (m : Outcome A)
  (k : A -> Outcome Chip8) :
  (forall a, keeps f v (k a)) -> keeps f v (bind m k).
Proof.
  intros H c' E. apply bind_Ok_inv in E as (a & _ & E). exact (H a c' E).
Qed.

Lemma keeps_bind_state (v : Z) (m : Outcome Chip8)
  (k : Chip8 -> Outcome Chip8) :
  keeps f v m -> (forall c1, f c1 = v -> keeps f v (k c1)) ->
  keeps f v (bind m k).
Proof.
  intros Hm Hk c' E. apply bind_Ok_inv in E as (c1 & E1 & E).
  exact (Hk c1 (Hm c1 E1) c' E).
Qed.

Lemma keeps_forM (v : Z) (body : Z -> Chip8 -> Outcome Chip8) :
  (forall i c1, f c1 = v -> keeps f v (body i c1)) ->
  forall l c, f c = v -> keeps f v (forM l body c).
Proof.
  intros Hbody l. induction l as [|i l IH]; intros c Hc; simpl.
  - apply keeps_Ok, Hc.
  - apply keeps_bind_state; [apply Hbody, Hc|]. intros c1 Hc1. apply IH, Hc1.
Qed.

(** Split a goal [keeps f v o] along the structure of [o]. *)
Ltac field_eq :=
  unfold skip;
  repeat first
    [ rewrite f_set_memory | rewrite f_set_V | rewrite f_set_I
    | rewrite f_set_pc | rewrite f_set_stack | rewrite f_set_sp
    | rewrite f_set_display | rewrite f_set_mode ];
  try first [assumption | reflexivity].

Ltac keeps_step :=
  match goal with
  | |- keeps _ _ (Ok _) => apply keeps_Ok; field_eq
  | |- keeps _ _ (forM _ _ _) => apply keeps_forM; [intros ? ? ?|field_eq]
  | |- keeps _ _ (@bind Chip8 _ _ _) =>
      apply keeps_bind_state; [|intros ? ?]
  | |- keeps _ _ (bind _ _) => apply keeps_bind; intros ?
  | |- keeps _ _ (if ?b then _ else _) => destruct b
  | |- keeps _ _ (let '(_, _) := ?p in _) => destruct p
  end.

Ltac keeps_auto := repeat keeps_step.

Lemma keeps_put_V (v i w : Z) (c : Chip8) :
  f c = v -> keeps f v (put_V i w c).
Proof. intros H. unfold put_V. keeps_auto. Qed.

Lemma keeps_put_memory (v i w : Z) (c : Chip8) :
  f c = v -> keeps f v (put_memory i w c).
Proof. intros H. unfold put_memory. keeps_auto. Qed.

Lemma keeps_copy_cell (v dst src : Z) (c : Chip8) :
  f c = v -> keeps f v (copy_cell dst src c).
Proof. intros H. unfold copy_cell. keeps_auto. Qed.

Lemma keeps_clear_cell (v dst : Z) (c : Chip8) :
  f c = v -> keeps f v (clear_cell dst c).
Proof. intros H. unfold clear_cell. keeps_auto. Qed.

Lemma keeps_scroll_horizontal (v d : Z) (c : Chip8) :
  f c = v -> keeps f v (scroll_horizontal d c).
Proof.
  intros H. unfold scroll_horizontal. cbv zeta.
  keeps_auto;
    first [apply keeps_copy_cell | apply keeps_clear_cell]; assumption.
Qed.

Lemma keeps_scroll_down (v n : Z) (c : Chip8) :
  f c = v -> keeps f v (scroll_down n c).
Proof.
  intros H. unfold scroll_down.
  keeps_auto;
    first [apply keeps_copy_cell | apply keeps_clear_cell]; assumption.
Qed.

Lemma keeps_plot (v x y row col : Z) (c : Chip8) :
  f c = v -> keeps f v (plot x y row col c).
Proof.
  intros H. unfold plot. cbv zeta.
  keeps_auto; try (intros ? [=]).
Qed.

Lemma keeps_draw_sprite (v x y n : Z) (c : Chip8) :
  f c = v -> keeps f v (draw_sprite x y n c).
Proof.
  intros H. unfold draw_sprite.
  destruct (negb (extended_mode c =? 0) && (n =? 0)); cbv zeta iota beta;
    keeps_auto; try (apply keeps_plot; assumption).
Qed.

Lemma keeps_poll_key (v x : Z) (events : list SDL_Event) :
  forall pressed c r,
    f c = v -> poll_key x events pressed c = Ok r -> f (snd r) = v.
Proof.
  induction events as [|e events IH]; intros pressed c r Hc E; simpl in E.
  - injection E as <-. exact Hc.
  - destruct e as [sym|sym| |]; try discriminate; try (eapply IH; eassumption).
    destruct sym;
      try (apply bind_Ok_inv in E as (l & _ & E);
           eapply IH; [|exact E]; rewrite f_set_V; exact Hc).
    eapply IH; eassumption.
Qed.

Lemma keeps_wait_key (v x : Z) (polls : list (list SDL_Event)) :
  forall c, f c = v -> keeps f v (wait_key x polls c).
Proof.
  induction polls as [|events polls IH]; intros c Hc c' E; simpl in E.
  - discriminate.
  - apply bind_Ok_inv in E as (r & Er & E).
    pose proof (keeps_poll_key v x events false c r Hc Er) as Hr.
    destruct (fst r).
    + injection E as <-. exact Hr.
    + exact (IH (snd r) Hr c' E).
Qed.

Ltac keeps_leaf :=
  first [ apply keeps_put_V | apply keeps_put_memory | apply keeps_wait_key
        | apply keeps_plot | apply keeps_draw_sprite ];
  first [assumption | reflexivity].

Lemma keeps_alu (v opcode x y : Z) (c : Chip8) :
  f c = v -> keeps f v (alu opcode x y c).
Proof.
  intros H. unfold alu, get_V.
  repeat case_match; keeps_auto; try keeps_leaf.
Qed.

Lemma keeps_key_skip (v opcode x : Z) (c : Chip8) :
  f c = v -> keeps f v (key_skip opcode x c).
Proof.
  intros H. unfold key_skip, get_V. repeat case_match; keeps_auto.
Qed.

Lemma keeps_misc (env : Env) (v opcode x : Z) (c : Chip8) :
  Z.land opcode 0x00FF <> own ->
  f c = v -> keeps f v (misc env opcode x c).
Proof.
  intros Hown H. unfold misc, get_V.
  repeat case_match; subst; keeps_auto; try keeps_leaf.
  - rewrite f_set_delay_timer; [reflexivity|congruence].
  - rewrite f_set_sound_timer; [reflexivity|congruence].
Qed.

Lemma keeps_execute (env : Env) (v opcode x y kk nnn n : Z) (c : Chip8) :
  Z.land opcode 0xF000 <> 0xF000 \/ Z.land opcode 0x00FF <> own ->
  f c = v -> keeps f v (execute env opcode x y kk nnn n c).
Proof.
  intros Hown H. unfold execute, get_V. cbv zeta.
  repeat case_match; subst; keeps_auto; try keeps_leaf;
    try (apply keeps_alu; reflexivity);
    try (apply keeps_key_skip; reflexivity).
  apply keeps_misc; [|reflexivity]. destruct Hown; [congruence|assumption].
Qed.

(** A cycle that returns either leaves [f] as it was (extended opcodes)
    or ends with the timer update on a machine where [f] is as it was. *)
Lemma keeps_cycle (env : Env) (c c' : Chip8) (op : Z) :
  fetchOpcode c = Ok op ->
  Z.land op 0xF000 <> 0xF000 \/ Z.land op 0x00FF <> own ->
  emulateCycle env c = Ok c' ->
  f c' = f c \/ exists c1, f c1 = f c /\ c' = tick c1.
Proof.
  intros Hfetch Hown E. unfold emulateCycle in E.
  rewrite Hfetch, bind_Ok in E. cbv zeta in E. fold (skip c) in E.
  assert (Hskip : f (skip c) = f c) by (unfold skip; apply f_set_pc).
  repeat match type of E with
         | (if ?b then _ else _) = _ => destruct b
         end.
  - left. exact (keeps_scroll_horizontal _ _ _ Hskip c' E).
  - left. exact (keeps_scroll_horizontal _ _ _ Hskip c' E).
  - discriminate.
  - left. injection E as <-. rewrite f_set_display, f_set_mode. exact Hskip.
  - left. injection E as <-. rewrite f_set_display, f_set_mode. exact Hskip.
  - left. exact (keeps_scroll_down _ _ _ Hskip c' E).
  - right. apply bind_Ok_inv in E as (c1 & E1 & E). injection E as <-.
    exists c1. split; [|reflexivity].
    exact (keeps_execute env _ _ _ _ _ _ _ _ Hown Hskip c1 E1).
Qed.
End Keeps.

(** ** The timer update *)

Lemma tick_fields (c : Chip8) :
  delay_timer (tick c) =
    (if delay_timer c >? 0 then wrap8 (delay_timer c - 1) else delay_timer c)
  /\ sound_timer (tick c) =
       (if sound_timer c >? 0 then wrap8 (sound_timer c - 1)
        else sound_timer c).
Proof.
  unfold tick. destruct (delay_timer c >? 0); simpl;
    destruct (sound_timer c >? 0); simpl; split; reflexivity.
Qed.

Lemma tick_delay_timer (c : Chip8) :
  0 <= delay_timer c < 256 ->
  delay_timer (tick c) =
    if delay_timer c =? 0 then 0 else delay_timer c - 1.
Proof.
  intros H. rewrite (proj1 (tick_fields c)).
  destruct (Z.gtb_spec (delay_timer c) 0), (Z.eqb_spec (delay_timer c) 0);
    try lia. apply wrap8_small. lia.
Qed.

Lemma tick_sound_timer (c : Chip8) :
  0 <= sound_timer c < 256 ->
  sound_timer (tick c) =
    if sound_timer c =? 0 then 0 else sound_timer c - 1.
Proof.
  intros H. rewrite (proj2 (tick_fields c)).
  destruct (Z.gtb_spec (sound_timer c) 0), (Z.eqb_spec (sound_timer c) 0);
    try lia. apply wrap8_small. lia.
Qed.

Lemma tick_delay_le (c : Chip8) : delay_timer (tick c) <= delay_timer c.
Proof.
  rewrite (proj1 (tick_fields c)).
  destruct (Z.gtb_spec (delay_timer c) 0); [|lia].
  unfold wrap8. etransitivity; [apply Z.mod_le; lia|lia].
Qed.

Lemma tick_sound_le (c : Chip8) : sound_timer (tick c) <= sound_timer c.
Proof.
  rewrite (proj2 (tick_fields c)).
  destruct (Z.gtb_spec (sound_timer c) 0); [|lia].
  unfold wrap8. etransitivity; [apply Z.mod_le; lia|lia].
Qed.

(** An opcode of the F group with low byte [kk] is [F x kk] for a digit x. *)
Lemma opcode_F_low (op k1 k0 : Z) :
  0 <= op < 65536 -> nibble k1 -> nibble k0 ->
  Z.land op 0xF000 = 0xF000 -> Z.land op 0x00FF = 16 * k1 + k0 ->
  exists x, nibble x /\ op = opcode_of 0xF x k1 k0.
Proof.
  intros Hop H1 H0 Htop Hlow.
  pose proof (fields_ok_word op Hop) as F. unfold fields_ok in F.
  repeat (apply andb_true_iff in F as [F ?]).
  repeat match goal with H : (_ =? _) = true |- _ => apply Z.eqb_eq in H end.
  exists ((op / 256) mod 16). unfold nibble, opcode_of in *.
  split; [apply Z.mod_pos_bound; lia|].
  assert (E1 : 4096 * (op / 4096) = 0xF000) by congruence.
  assert (E2 : op mod 256 = 16 * k1 + k0) by congruence.
  clear - Hop E1 E2. Z.div_mod_to_equations. lia.
Qed.

(** C6: the timer update decrements each timer that is not zero and leaves
    a zero timer at zero; after a cycle that returns, the delay timer is
    not above its value before unless the opcode is Fx15, and the sound
    timer is not unless the opcode is Fx18. *)
Theorem timers_only_count_down (env : Env) (c c' : Chip8) (op : Z) :
  wf c ->
  fetchOpcode c = Ok op ->
  emulateCycle env c = Ok c' ->
  delay_timer (tick c) = (if delay_timer c =? 0 then 0 else delay_timer c - 1)
  /\ sound_timer (tick c) =
       (if sound_timer c =? 0 then 0 else sound_timer c - 1)
  /\ 0 <= delay_timer (tick c) /\ 0 <= sound_timer (tick c)
  /\ ((forall x, nibble x -> op <> opcode_of 0xF x 1 5) ->
      delay_timer c' <= delay_timer c)
  /\ ((forall x, nibble x -> op <> opcode_of 0xF x 1 8) ->
      sound_timer c' <= sound_timer c).
Proof.
  intros W Hfetch E.
  pose proof (wf_delay_timer c W) as Hd. pose proof (wf_sound_timer c W) as Hs.
  pose proof (fetchOpcode_word c op Hfetch) as Hop.
  assert (N1 : nibble 1) by (unfold nibble; lia).
  assert (N5 : nibble 5) by (unfold nibble; lia).
  assert (N8 : nibble 8) by (unfold nibble; lia).
  split; [apply tick_delay_timer, Hd|].
  split; [apply tick_sound_timer, Hs|].
  split; [rewrite tick_delay_timer by exact Hd;
          destruct (delay_timer c =? 0) eqn:?; lia|].
  split; [rewrite tick_sound_timer by exact Hs;
          destruct (sound_timer c =? 0) eqn:?; lia|].
  split; intros Hnot.
  - assert (Hown : Z.land op 0xF000 <> 0xF000 \/ Z.land op 0x00FF <> 0x15).
    { destruct (Z.eq_dec (Z.land op 0xF000) 0xF000) as [Et|]; [|left; done].
      destruct (Z.eq_dec (Z.land op 0x00FF) 0x15) as [El|]; [|right; done].
      destruct (opcode_F_low op 1 5 Hop N1 N5 Et El) as (x & Hx & ->).
      exfalso. exact (Hnot x Hx eq_refl). }
    destruct (keeps_cycle delay_timer 0x15
                (fun _ _ => eq_refl) (fun _ _ => eq_refl)
                (fun _ _ => eq_refl) (fun _ _ => eq_refl)
                (fun _ _ => eq_refl) (fun _ _ => eq_refl)
                (fun _ _ => eq_refl) (fun _ _ _ _ _ _ => eq_refl)
                (fun H => False_ind _ (H eq_refl))
                (fun _ _ _ => eq_refl) env c c' op Hfetch Hown E)
      as [->|(c1 & <- & ->)]; [lia|apply tick_delay_le].
  - assert (Hown : Z.land op 0xF000 <> 0xF000 \/ Z.land op 0x00FF <> 0x18).
    { destruct (Z.eq_dec (Z.land op 0xF000) 0xF000) as [Et|]; [|left; done].
      destruct (Z.eq_dec (Z.land op 0x00FF) 0x18) as [El|]; [|right; done].
      destruct (opcode_F_low op 1 8 Hop N1 N8 Et El) as (x & Hx & ->).
      exfalso. exact (Hnot x Hx eq_refl). }
    destruct (keeps_cycle sound_timer 0x18
                (fun _ _ => eq_refl) (fun _ _ => eq_refl)
                (fun _ _ => eq_refl) (fun _ _ => eq_refl)
                (fun _ _ => eq_refl) (fun _ _ => eq_refl)
                (fun _ _ => eq_refl) (fun _ _ _ _ _ _ => eq_refl)
                (fun _ _ _ => eq_refl)
                (fun H => False_ind _ (H eq_refl))
                env c c' op Hfetch Hown E)
      as [->|(c1 & <- & ->)]; [lia|apply tick_sound_le].
Qed.

(** * Loading the program image *)

Section Blit.
Variables (dst src : list Z) (off : Z).
Hypothesis Hoff : 0 <= off.
Hypothesis Hfit : off + len src <= len dst.

Lemma blit_bytes_len : len (blit_bytes dst off src) = len dst.
Proof.
  unfold blit_bytes, len in *.
  rewrite !length_app, length_take, length_drop. lia.
Qed.

Lemma blit_bytes_inside (i : Z) :
  0 <= i < len src ->
  blit_bytes dst off src !! Z.to_nat (off + i) = src !! Z.to_nat i.
Proof.
  intros Hi. unfold blit_bytes, len in *.
  rewrite lookup_app_r by (rewrite length_take; lia).
  rewrite length_take.
  replace (Z.to_nat (off + i) - Z.to_nat off `min` length dst)%nat
    with (Z.to_nat i) by lia.
  apply lookup_app_l. lia.
Qed.

Lemma blit_bytes_outside (a : Z) :
  0 <= a -> a < off \/ off + len src <= a ->
  blit_bytes dst off src !! Z.to_nat a = dst !! Z.to_nat a.
Proof.
  intros Ha Hout. unfold blit_bytes, len in *. destruct Hout as [Hlo|Hhi].
  - rewrite lookup_app_l by (rewrite length_take; lia).
    apply lookup_take_lt. lia.
  - rewrite lookup_app_r by (rewrite length_take; lia).
    rewrite length_take.
    rewrite lookup_app_r by lia.
    rewrite lookup_drop. f_equal. lia.
Qed.
End Blit.

Lemma loadROM_file (c : Chip8) (bytes : list Z) :
  loadROM c (Some bytes)
  = if len bytes >? MEMORY_SIZE - START_ADDRESS then (0, c)
    else (1, set_memory (blit_bytes (memory c) START_ADDRESS bytes) c).
Proof. reflexivity. Qed.

(** C7: [loadROM] returns 0 exactly when the file cannot be opened or is
    longer than 4096 - 0x200 bytes; a file that is too long leaves the
    machine as it was; otherwise the bytes of the file are in memory from
    0x200 on and nothing else has changed; and [main] returns 1 after a
    failed load without having run a cycle. *)
Theorem load_program (c : Chip8) (rom : option (list Z)) :
  len (memory c) = MEMORY_SIZE ->
  (fst (loadROM c rom) = 0 <->
     rom = None
     \/ exists bytes, rom = Some bytes
          /\ len bytes > MEMORY_SIZE - START_ADDRESS)
  /\ (forall bytes, rom = Some bytes ->
        len bytes > MEMORY_SIZE - START_ADDRESS ->
        snd (loadROM c rom) = c)
  /\ (forall bytes, rom = Some bytes ->
        len bytes <= MEMORY_SIZE - START_ADDRESS ->
        let c' := snd (loadROM c rom) in
        fst (loadROM c rom) = 1
        /\ c' = set_memory (memory c') c
        /\ len (memory c') = MEMORY_SIZE
        /\ (forall i, 0 <= i < len bytes ->
              memory c' !! Z.to_nat (START_ADDRESS + i) = bytes !! Z.to_nat i)
        /\ (forall a, 0 <= a ->
              a < START_ADDRESS \/ START_ADDRESS + len bytes <= a ->
              memory c' !! Z.to_nat a = memory c !! Z.to_nat a))
  /\ (fst (loadROM (initializeChip8 chip8_static) rom) = 0 ->
      forall argc host frames, main argc rom host frames = (Ok 1, 0%nat)).
Proof.
  intros Hmem. split; [|split; [|split]].
  - destruct rom as [bytes|]; [|split; auto].
    rewrite loadROM_file.
    destruct (Z.gtb_spec (len bytes) (MEMORY_SIZE - START_ADDRESS)); simpl.
    + split; [|reflexivity]. intros _. right. exists bytes. split; [done|lia].
    + split; [discriminate|]. intros [?|(b & [= <-] & ?)]; [discriminate|lia].
  - intros bytes -> Hlen. rewrite loadROM_file.
    destruct (Z.gtb_spec (len bytes) (MEMORY_SIZE - START_ADDRESS));
      [reflexivity|lia].
  - intros bytes -> Hlen. rewrite loadROM_file.
    destruct (Z.gtb_spec (len bytes) (MEMORY_SIZE - START_ADDRESS)); [lia|].
    cbv zeta. simpl fst. simpl snd. simpl memory.
    unfold MEMORY_SIZE, START_ADDRESS in *.
    split; [reflexivity|]. split; [reflexivity|].
    split; [rewrite blit_bytes_len; [assumption|lia|lia]|].
    split.
    + intros i Hi. apply blit_bytes_inside; lia.
    + intros a Ha Hout. apply blit_bytes_outside; lia.
  - intros Hfail argc host frames. unfold main.
    destruct (argc <? 2); [reflexivity|].
    destruct (loadROM (initializeChip8 chip8_static) rom) as [loaded c1].
    simpl in Hfail. subst loaded. reflexivity.
Qed.

(** * Sprite drawing *)

(** ** XOR of cells *)

Lemma flip_cell_involutive (v : Z) : flip_cell (flip_cell v) = v.
Proof.
  unfold flip_cell. rewrite Z.lxor_assoc, Z.lxor_nilpotent.
  apply Z.lxor_0_r.
Qed.

Lemma flip_cell_near (v : Z) :
  0 <= v -> flip_cell v = if Z.even v then v + 1 else v - 1.
Proof.
  intros H. unfold flip_cell.
  destruct v as [|p|p]; [reflexivity| |lia].
  destruct p; simpl; try reflexivity; lia.
Qed.

Lemma flip_cell_byte (v : Z) : 0 <= v < 256 -> 0 <= flip_cell v < 256.
Proof.
  intros H. rewrite flip_cell_near by lia.
  destruct (Z.even v) eqn:E.
  - apply Z.even_spec in E as [k ->]. lia.
  - rewrite <- Z.negb_odd in E. apply negb_false_iff, Z.odd_spec in E.
    destruct E as [k ->]. lia.
Qed.

Lemma flip_cell_one (v : Z) : v = 1 -> flip_cell v = 0.
Proof. intros ->. reflexivity. Qed.

Lemma alter_flip_twice (i : nat) (d : list Z) :
  alter flip_cell i (alter flip_cell i d) = d.
Proof.
  apply list_eq. intros j. destruct (decide (i = j)) as [->|Hne].
  - rewrite !list_lookup_alter_eq. destruct (d !! j) as [v|]; simpl; [|done].
    rewrite flip_cell_involutive. reflexivity.
  - rewrite !list_lookup_alter_ne by exact Hne. reflexivity.
Qed.

Lemma alter_flip_swap (i j : nat) (d : list Z) :
  alter flip_cell i (alter flip_cell j d)
  = alter flip_cell j (alter flip_cell i d).
Proof.
  destruct (decide (i = j)) as [->|Hne]; [reflexivity|].
  apply list_eq. intros k.
  destruct (decide (i = k)) as [->|Hik], (decide (j = k)) as [->|Hjk];
    try congruence.
  - rewrite list_lookup_alter_eq, !list_lookup_alter_ne by congruence.
    rewrite list_lookup_alter_eq. reflexivity.
  - rewrite list_lookup_alter_ne, !list_lookup_alter_eq by congruence.
    rewrite list_lookup_alter_ne by congruence. reflexivity.
  - rewrite !list_lookup_alter_ne by congruence. reflexivity.
Qed.

(** The display after XOR of the cells [ts] does not depend on the flag
    and is a fold of [alter]. *)
Lemma fst_fold_xor_cell (ts : list Z) :
  forall s,
    fst (fold_left xor_cell ts s)
    = fold_left (fun d i => alter flip_cell (Z.to_nat i) d) ts (fst s).
Proof.
  induction ts as [|i ts IH]; intros s; simpl; [reflexivity|].
  rewrite IH. reflexivity.
Qed.

Lemma fold_flip_swap (ts : list Z) :
  forall (i : nat) (d : list Z),
    fold_left (fun d i => alter flip_cell (Z.to_nat i) d) ts
      (alter flip_cell i d)
    = alter flip_cell i
        (fold_left (fun d i => alter flip_cell (Z.to_nat i) d) ts d).
Proof.
  induction ts as [|j ts IH]; intros i d; simpl; [reflexivity|].
  rewrite alter_flip_swap. apply IH.
Qed.

(** XOR of the same cells a second time gives the first display back. *)
Lemma xor_cells_twice (ts : list Z) (d : list Z) :
  fst (xor_cells ts (fst (xor_cells ts d))) = d.
Proof.
  unfold xor_cells. rewrite !fst_fold_xor_cell. simpl.
  revert d. induction ts as [|i ts IH]; intros d; simpl; [reflexivity|].
  rewrite (fold_flip_swap ts (Z.to_nat i) d).
  rewrite alter_flip_twice. apply IH.
Qed.

Lemma snd_fold_xor_cell (ts : list Z) :
  forall s,
    snd (fold_left xor_cell ts s) = snd s || snd (xor_cells ts (fst s)).
Proof.
  unfold xor_cells.
  induction ts as [|i ts IH]; intros s; simpl; [rewrite orb_false_r; done|].
  rewrite (IH (xor_cell s i)), (IH (xor_cell (fst s, false) i)). simpl.
  rewrite orb_assoc. reflexivity.
Qed.

(** The flag is set exactly when one of the XORs finds its cell at 1. *)
Lemma xor_cells_flag (ts : list Z) :
  forall d,
    snd (xor_cells ts d) = true
    <-> exists ts1 i ts2,
          ts = ts1 ++ i :: ts2
          /\ fst (xor_cells ts1 d) !!! Z.to_nat i = 1.
Proof.
  induction ts as [|j ts IH] using rev_ind; intros d.
  - simpl. split; [discriminate|].
    intros (ts1 & i & ts2 & E & _). destruct ts1; discriminate.
  - unfold xor_cells. rewrite fold_left_app. simpl.
    fold (xor_cells ts d). rewrite orb_true_iff, IH, Z.eqb_eq. split.
    + intros [(ts1 & i & ts2 & -> & Hc)|Hc].
      * exists ts1, i, (ts2 ++ [j]). split; [|exact Hc].
        rewrite <- app_assoc. reflexivity.
      * exists ts, j, []. split; [reflexivity|exact Hc].
    + intros (ts1 & i & ts2 & E & Hc).
      destruct ts2 as [|k ts2 _] using rev_ind.
      * apply app_inj_tail in E as [-> ->]. right. exact Hc.
      * left. rewrite app_comm_cons, app_assoc in E.
        apply app_inj_tail in E as [-> _]. eauto.
Qed.

(** ** The bit test of the code *)

Lemma land_pow2_zero (b k : Z) :
  0 <= k -> (Z.land b (2 ^ k) =? 0) = negb (Z.testbit b k).
Proof.
  intros Hk. destruct (Z.testbit b k) eqn:E; simpl.
  - apply Z.eqb_neq. intros H0.
    assert (T : Z.testbit (Z.land b (2 ^ k)) k = true)
      by (rewrite Z.land_spec, E, Z.pow2_bits_true by lia; reflexivity).
    rewrite H0, Z.bits_0 in T. discriminate.
  - apply Z.eqb_eq, Z.bits_inj'. intros m Hm.
    rewrite Z.land_spec, Z.bits_0.
    destruct (Z.eq_dec m k) as [->|Hne].
    + rewrite E. reflexivity.
    + rewrite Z.pow2_bits_false by lia. apply andb_false_r.
Qed.

Lemma pixel_bit_testbit (b col : Z) :
  0 <= col < 8 -> pixel_bit b col = Z.testbit b (7 - col).
Proof.
  intros H. unfold pixel_bit.
  replace (Z.shiftr 0x80 col) with (2 ^ (7 - col)).
  - rewrite land_pow2_zero by lia. apply negb_involutive.
  - change 0x80 with (2 ^ 7). rewrite Z.shiftr_div_pow2 by lia.
    replace 7 with ((7 - col) + col) at 2 by lia.
    rewrite Z.pow_add_r by lia. rewrite Z.div_mul; [reflexivity|].
    apply Z.pow_nonzero; lia.
Qed.

(** ** The loops of case 0xD000 *)

Lemma insert_flip_alter (d : list Z) (i : nat) :
  <[i := flip_cell (d !!! i)]> d = alter flip_cell i d.
Proof.
  apply list_eq. intros j. destruct (decide (i = j)) as [->|Hne].
  - rewrite list_lookup_alter_eq.
    destruct (d !! j) as [v|] eqn:E.
    + rewrite list_lookup_insert_eq by (eapply lookup_lt_Some; exact E).
      simpl. rewrite (list_lookup_total_correct _ _ _ E). reflexivity.
    + rewrite list_insert_ge by (apply lookup_ge_None; exact E).
      simpl. exact E.
  - rewrite list_lookup_insert_ne, list_lookup_alter_ne by exact Hne.
    reflexivity.
Qed.

Lemma canvas_xor_cell (s : list Z * bool) (i : Z) :
  canvas (fst s) -> canvas (fst (xor_cell s i)).
Proof.
  intros [Hl Hr]. split; simpl.
  - unfold len in *. rewrite length_alter. exact Hl.
  - apply Forall_alter; [exact Hr|]. intros v _. apply flip_cell_byte.
Qed.

Lemma canvas_fold (ts : list Z) :
  forall s, canvas (fst s) -> canvas (fst (fold_left xor_cell ts s)).
Proof.
  induction ts as [|i ts IH]; intros s H; simpl; [exact H|].
  apply IH, canvas_xor_cell, H.
Qed.

Section Draw.
Variables (c0 : Chip8) (x y n : Z).
Hypotheses (Hx : nibble x) (Hy : nibble y).
Hypotheses (HxF : x <> 0xF) (HyF : y <> 0xF).
Hypothesis W : wf c0.

Lemma screen_bounds :
  0 < screen_width c0 <= MAX_WIDTH /\ 0 < screen_height c0 <= MAX_HEIGHT.
Proof.
  destruct (wf_mode c0 W) as [(_ & -> & ->)|(_ & -> & ->)];
    unfold MAX_WIDTH, MAX_HEIGHT, EXT_WIDTH, EXT_HEIGHT, NORMAL_WIDTH,
      NORMAL_HEIGHT; lia.
Qed.

Lemma cell_index_bounds (row col : Z) :
  0 <= row -> 0 <= col ->
  0 <= cell_index c0 x y row col < MAX_WIDTH * MAX_HEIGHT.
Proof.
  intros Hrow Hcol. destruct screen_bounds as [Hw Hh].
  pose proof (wf_reg_byte c0 x W Hx). pose proof (wf_reg_byte c0 y W Hy).
  unfold cell_index, MAX_WIDTH, MAX_HEIGHT, EXT_WIDTH, EXT_HEIGHT in *.
  pose proof (Z.mod_pos_bound (reg c0 y + row) (screen_height c0)).
  pose proof (Z.mod_pos_bound (reg c0 x + col) (screen_width c0)).
  nia.
Qed.

Lemma reg_paint (s : list Z * bool) (i : Z) :
  nibble i -> i <> 0xF -> get_V i (paint c0 s) = Ok (reg c0 i).
Proof.
  intros Hi HiF. pose proof (wf_V_size c0 W) as HV.
  rewrite get_V_reg; [|exact (eq_trans (len_V_with_reg c0 _ _) HV)|exact Hi].
  f_equal. apply (reg_with_reg_ne c0 0xF i); unfold nibble in *; lia.
Qed.

(** One set sprite bit. *)
Lemma plot_paint (s : list Z * bool) (row col : Z) :
  canvas (fst s) -> 0 <= row -> 0 <= col ->
  plot x y row col (paint c0 s)
  = Ok (paint c0 (xor_cell s (cell_index c0 x y row col))).
Proof.
  intros [Hl Hr] Hrow Hcol. destruct s as [d f]. simpl in Hl, Hr.
  destruct screen_bounds as [Hw Hh].
  pose proof (cell_index_bounds row col Hrow Hcol) as Hidx.
  pose proof (wf_reg_byte c0 x W Hx) as Bx.
  pose proof (wf_reg_byte c0 y W Hy) as By.
  pose proof (wf_V_size c0 W) as HV. unfold REGISTER_COUNT in HV.
  unfold plot. fold (get_V x (paint c0 (d, f))).
  fold (get_V y (paint c0 (d, f))).
  change (screen_width (paint c0 (d, f))) with (screen_width c0).
  change (screen_height (paint c0 (d, f))) with (screen_height c0).
  rewrite reg_paint, bind_Ok by assumption.
  destruct (Z.eqb_spec (screen_width c0) 0) as [?|_]; [lia|].
  cbv zeta. rewrite reg_paint, bind_Ok by assumption.
  destruct (Z.eqb_spec (screen_height c0) 0) as [?|_]; [lia|].
  rewrite !Z.rem_mod_nonneg by lia.
  fold (cell_index c0 x y row col).
  set (i := cell_index c0 x y row col) in *.
  change (display (paint c0 (d, f))) with d.
  rewrite load_total, bind_Ok by (unfold len in Hl; lia).
  set (cell := d !!! Z.to_nat i).
  assert (Hcell : 0 <= cell < 256)
    by (apply in_range_lookup_total; [exact Hr|unfold len in Hl; lia]).
  assert (Hflip : wrap8 (Z.lxor cell 1) = flip_cell cell)
    by (apply wrap8_small, flip_cell_byte, Hcell).
  unfold xor_cell, paint. simpl fst. simpl snd. fold cell.
  destruct (cell =? 1) eqn:E.
  - rewrite store_total
      by (simpl; rewrite length_insert; unfold len in HV; lia).
    rewrite !bind_Ok. simpl display.
    rewrite load_total, bind_Ok by (unfold len in Hl; lia). fold cell.
    rewrite store_total, bind_Ok by (unfold len in Hl; lia).
    rewrite Hflip. unfold cell at 1. rewrite insert_flip_alter.
    rewrite orb_true_r. unfold with_reg, set_display, set_V. simpl.
    rewrite list_insert_insert_eq. reflexivity.
  - rewrite !bind_Ok. simpl display.
    rewrite load_total, bind_Ok by (unfold len in Hl; lia). fold cell.
    rewrite store_total, bind_Ok by (unfold len in Hl; lia).
    rewrite Hflip. unfold cell at 1. rewrite insert_flip_alter.
    rewrite orb_false_r. reflexivity.
Qed.

(** The loop over the columns of one row; [bitf] is the bit test made
    by the code. *)
Lemma cols_loop (bitf : Z -> bool) (row : Z) (cols : list Z) :
  0 <= row ->
  Forall (fun col => 0 <= col /\ bitf col = sprite_bit c0 n row col) cols ->
  forall s, canvas (fst s) ->
    forM cols
      (fun col c => if bitf col then plot x y row col c else Ok c)
      (paint c0 s)
    = Ok (paint c0
            (fold_left xor_cell
               (flat_map
                  (fun col =>
                     if sprite_bit c0 n row col
                     then [cell_index c0 x y row col] else [])
                  cols) s)).
Proof.
  intros Hrow Hcols. induction Hcols as [|col cols [Hcol Hbit] _ IH];
    intros s Hs; simpl; [reflexivity|].
  rewrite Hbit. destruct (sprite_bit c0 n row col); simpl.
  - rewrite plot_paint, bind_Ok by assumption.
    apply IH, canvas_xor_cell, Hs.
  - apply IH, Hs.
Qed.

Hypothesis Hfit : I c0 + sprite_bytes c0 n <= MEMORY_SIZE.

Lemma sprite_byte_load (s : list Z * bool) (a : Z) :
  0 <= a < MEMORY_SIZE ->
  load (memory (paint c0 s)) a = Ok (byte_at c0 a).
Proof.
  intros Ha. change (memory (paint c0 s)) with (memory c0).
  apply load_total. pose proof (wf_memory_size c0 W) as M.
  unfold len in M. lia.
Qed.

(** The loop over the rows of an 8-wide sprite. *)
Lemma rows_loop_narrow (rows : list Z) :
  sprite_wide c0 n = false ->
  Forall (fun row => 0 <= row /\ I c0 + row < MEMORY_SIZE) rows ->
  forall s, canvas (fst s) ->
    forM rows
      (fun row c =>
         let* spriteByte := load (memory c) (I c + row) in
         forM (range 0 8)
           (fun col c =>
              let pixelBit := pixel_bit spriteByte col in
              if pixelBit then plot x y row col c else Ok c) c)
      (paint c0 s)
    = Ok (paint c0
            (fold_left xor_cell (flat_map (row_targets c0 x y n) rows) s)).
Proof.
  intros Hwide Hrows. pose proof (wf_I c0 W) as HI.
  induction Hrows as [|row rows [Hrow Hmem] _ IH]; intros s Hs;
    [reflexivity|].
  cbn [forM flat_map]. change (I (paint c0 s)) with (I c0).
  rewrite sprite_byte_load, bind_Ok by lia. cbv zeta.
  rewrite (cols_loop (pixel_bit (byte_at c0 (I c0 + row))) row (range 0 8)
             Hrow); [| |exact Hs].
  - rewrite bind_Ok, fold_left_app. unfold row_targets at 2.
    unfold sprite_width. rewrite Hwide.
    apply IH, canvas_fold, Hs.
  - apply Forall_seqZ. intros col Hcol. split; [lia|].
    unfold sprite_bit. rewrite Hwide. apply pixel_bit_testbit. lia.
Qed.

(** The loop over the rows of a 16-wide sprite. *)
Lemma rows_loop_wide (rows : list Z) :
  sprite_wide c0 n = true ->
  Forall (fun row => 0 <= row /\ I c0 + 2 * row + 1 < MEMORY_SIZE) rows ->
  forall s, canvas (fst s) ->
    forM rows
      (fun row c =>
         let* byte1 := load (memory c) (I c + row * 2) in
         let* byte2 := load (memory c) (I c + row * 2 + 1) in
         forM (range 0 16)
           (fun col c =>
              let pixelBit :=
                if col <? 8 then pixel_bit byte1 col
                else pixel_bit byte2 (col - 8) in
              if pixelBit then plot x y row col c else Ok c) c)
      (paint c0 s)
    = Ok (paint c0
            (fold_left xor_cell (flat_map (row_targets c0 x y n) rows) s)).
Proof.
  intros Hwide Hrows. pose proof (wf_I c0 W) as HI.
  induction Hrows as [|row rows [Hrow Hmem] _ IH]; intros s Hs;
    [reflexivity|].
  cbn [forM flat_map]. change (I (paint c0 s)) with (I c0).
  rewrite (Z.mul_comm row 2).
  rewrite !sprite_byte_load, !bind_Ok by lia. cbv zeta.
  rewrite (cols_loop
             (fun col =>
                if col <? 8
                then pixel_bit (byte_at c0 (I c0 + 2 * row)) col
                else pixel_bit (byte_at c0 (I c0 + 2 * row + 1)) (col - 8))
             row (range 0 16) Hrow); [| |exact Hs].
  - rewrite bind_Ok, fold_left_app. unfold row_targets at 2.
    unfold sprite_width. rewrite Hwide.
    apply IH, canvas_fold, Hs.
  - apply Forall_seqZ. intros col Hcol. split; [lia|].
    unfold sprite_bit. rewrite Hwide.
    destruct (Z.ltb_spec col 8).
    + apply pixel_bit_testbit. lia.
    + rewrite pixel_bit_testbit by lia. f_equal. lia.
Qed.

(** The whole of case 0xD000. *)
Lemma draw_sprite_paint :
  draw_sprite x y n c0
  = Ok (paint c0 (xor_cells (targets c0 x y n) (display c0))).
Proof.
  pose proof (wf_V_size c0 W) as HV. unfold REGISTER_COUNT in HV.
  assert (Hcanvas : canvas (display c0))
    by (split; [apply (wf_display_size c0 W)|apply (wf_display c0 W)]).
  unfold draw_sprite. fold (sprite_wide c0 n).
  unfold targets, xor_cells, sprite_height.
  unfold sprite_bytes in Hfit.
  destruct (sprite_wide c0 n) eqn:Hwide; cbv iota beta;
    rewrite store_total, bind_Ok by (unfold len in HV; lia); cbv zeta;
    change (set_V (<[Z.to_nat 0xF := 0]> (V c0)) c0)
      with (paint c0 (display c0, false)).
  - change (16 =? 16) with true. cbv iota.
    apply rows_loop_wide; [exact Hwide| |exact Hcanvas].
    apply Forall_seqZ. intros row Hrow. lia.
  - change (8 =? 16) with false. cbv iota.
    apply rows_loop_narrow; [exact Hwide| |exact Hcanvas].
    apply Forall_seqZ. intros row Hrow. lia.
Qed.
End Draw.

(** ** Well-formedness along a draw *)

Lemma tick_eq (c : Chip8) :
  tick c
  = set_sound_timer (sound_timer (tick c))
      (set_delay_timer (delay_timer (tick c)) c).
Proof.
  destruct c. unfold tick. simpl.
  repeat match goal with |- context [if ?b then _ else _] => destruct b end;
    reflexivity.
Qed.

Lemma wf_tick (c : Chip8) : wf c -> wf (tick c).
Proof.
  intros W.
  pose proof (tick_delay_timer c (wf_delay_timer c W)) as Ed.
  pose proof (tick_sound_timer c (wf_sound_timer c W)) as Es.
  pose proof (wf_delay_timer c W) as Hd.
  pose proof (wf_sound_timer c W) as Hs.
  rewrite tick_eq. destruct W. constructor; simpl; try assumption.
  - rewrite Ed. destruct (Z.eqb_spec (delay_timer c) 0); lia.
  - rewrite Es. destruct (Z.eqb_spec (sound_timer c) 0); lia.
Qed.

Lemma wf_skip (c : Chip8) : wf c -> wf (skip c).
Proof.
  intros W. destruct W. constructor; simpl; try assumption.
  unfold wrap16. apply Z.mod_pos_bound. lia.
Qed.

Lemma wf_paint (c : Chip8) (s : list Z * bool) :
  wf c -> canvas (fst s) -> wf (paint c s).
Proof.
  intros W [Hl Hr]. destruct W. constructor; simpl; try assumption.
  - unfold len in *. rewrite length_insert. assumption.
  - apply Forall_insert; [assumption|]. destruct (snd s); simpl; lia.
Qed.

Lemma fetchOpcode_same (c c' : Chip8) :
  memory c' = memory c -> pc c' = pc c -> fetchOpcode c' = fetchOpcode c.
Proof. intros Hm Hp. unfold fetchOpcode. rewrite Hm, Hp. reflexivity. Qed.

Lemma targets_same (c c' : Chip8) (x y n : Z) :
  memory c' = memory c -> I c' = I c ->
  extended_mode c' = extended_mode c ->
  screen_width c' = screen_width c -> screen_height c' = screen_height c ->
  reg c' x = reg c x -> reg c' y = reg c y ->
  targets c' x y n = targets c x y n.
Proof.
  intros Hm HI He Hw Hh Hx Hy.
  unfold targets, row_targets, sprite_height, sprite_width, sprite_bit,
    sprite_wide, cell_index, byte_at.
  rewrite Hm, HI, He, Hw, Hh, Hx, Hy. reflexivity.
Qed.

Section DrawCycle.
Variables (env : Env) (c : Chip8) (x y n : Z).
Hypothesis W : wf c.
Hypotheses (Hx : nibble x) (Hy : nibble y) (Hn : nibble n).
Hypotheses (HxF : x <> 0xF) (HyF : y <> 0xF).
Hypothesis Hfetch : fetchOpcode c = Ok (opcode_of 0xD x y n).
Hypothesis Hfit : I c + sprite_bytes c n <= MEMORY_SIZE.

Lemma draw_cycle :
  emulateCycle env c
  = Ok (tick (paint (skip c) (xor_cells (targets c x y n) (display c)))).
Proof.
  run_standard Hfetch.
  rewrite (draw_sprite_paint (skip c) x y n Hx Hy HxF HyF (wf_skip c W)
             Hfit).
  reflexivity.
Qed.

(** C1 for operands other than VF, with the sprite inside memory: the
    cycle XORs the cell of every set sprite bit, at
    ((Vx+col) mod width, (Vy+row) mod height) with row stride MAX_WIDTH,
    and leaves in VF whether one of those XORs found its cell at 1. *)
Theorem draw_xors_sprite :
  let r := xor_cells (targets c x y n) (display c) in
  exists c',
    emulateCycle env c = Ok c'
    /\ display c' = fst r
    /\ reg c' 0xF = Z.b2z (snd r)
    /\ (forall j, nibble j -> j <> 0xF -> reg c' j = reg c j)
    /\ (reg c' 0xF = 1 <->
        exists ts1 i ts2,
          targets c x y n = ts1 ++ i :: ts2
          /\ fst (xor_cells ts1 (display c)) !!! Z.to_nat i = 1
          /\ fst (xor_cells (ts1 ++ [i]) (display c)) !!! Z.to_nat i = 0).
Proof.
  intros r. pose proof (wf_V_size c W) as HV. unfold REGISTER_COUNT in HV.
  assert (HF : nibble 0xF) by (unfold nibble; lia).
  assert (EF : reg (tick (paint (skip c) r)) 0xF = Z.b2z (snd r)).
  { rewrite reg_tick. apply (reg_with_reg_eq (skip c)); assumption. }
  exists (tick (paint (skip c) r)).
  split; [apply draw_cycle|].
  split; [rewrite tick_eq; reflexivity|].
  split; [exact EF|].
  split.
  - intros j Hj HjF. rewrite reg_tick.
    apply (reg_with_reg_ne (skip c) 0xF j); unfold nibble in *; lia.
  - rewrite EF.
    assert (Hb : Z.b2z (snd r) = 1 <-> snd r = true)
      by (destruct (snd r); simpl; split; (discriminate || reflexivity)).
    rewrite Hb. subst r. rewrite xor_cells_flag.
    split; intros (ts1 & i & ts2 & E & Hc); exists ts1, i, ts2.
    + split; [exact E|]. split; [exact Hc|].
      unfold xor_cells. rewrite fold_left_app. simpl.
      fold (xor_cells ts1 (display c)).
      assert (Hcan : canvas (fst (xor_cells ts1 (display c)))).
      { apply canvas_fold. split;
          [apply (wf_display_size c W)|apply (wf_display c W)]. }
      assert (Hi : 0 <= i < MAX_WIDTH * MAX_HEIGHT).
      { assert (Hin : i ∈ targets c x y n)
          by (rewrite E; apply elem_of_app; right; apply list_elem_of_here).
        unfold targets in Hin.
        apply list_elem_of_In, in_flat_map in Hin as (row & Hrow & Hin).
        unfold row_targets in Hin.
        apply in_flat_map in Hin as (col & Hcol & Hin).
        apply list_elem_of_In, elem_of_seqZ in Hrow, Hcol.
        destruct (sprite_bit c n row col); [|destruct Hin].
        destruct Hin as [<-|[]].
        apply cell_index_bounds; (assumption || lia). }
      rewrite list_lookup_total_alter_eq
        by (destruct Hcan as [Hl _]; unfold len in Hl; lia).
      rewrite Hc. reflexivity.
    + split; [exact E|]. apply Hc.
Qed.
End DrawCycle.

Section DoubleDraw.
Variables (env env' : Env) (c : Chip8) (x y n : Z).
Hypothesis W : wf c.
Hypotheses (Hx : nibble x) (Hy : nibble y) (Hn : nibble n).
Hypotheses (HxF : x <> 0xF) (HyF : y <> 0xF).
Hypothesis Hfetch : fetchOpcode c = Ok (opcode_of 0xD x y n).
Hypothesis Hnext : fetchOpcode (skip c) = Ok (opcode_of 0xD x y n).
Hypothesis Hfit : I c + sprite_bytes c n <= MEMORY_SIZE.

(** C5 for operands other than VF, with the sprite inside memory: when
    the same Dxyn is executed twice in a row, the second draw finds I,
    Vx, Vy, the mode and the memory as the first did, gives the display
    back as it was before the first, and leaves in VF the collisions of
    the second draw. *)
Theorem double_draw_restores :
  exists c1 c2,
    emulateCycle env c = Ok c1
    /\ emulateCycle env' c1 = Ok c2
    /\ (I c1 = I c /\ reg c1 x = reg c x /\ reg c1 y = reg c y
        /\ memory c1 = memory c /\ extended_mode c1 = extended_mode c)
    /\ display c2 = display c
    /\ reg c2 0xF = Z.b2z (snd (xor_cells (targets c x y n) (display c1)))
    /\ (reg c2 0xF = 1 <->
        exists ts1 i ts2,
          targets c x y n = ts1 ++ i :: ts2
          /\ fst (xor_cells ts1 (display c1)) !!! Z.to_nat i = 1).
Proof.
  set (r1 := xor_cells (targets c x y n) (display c)).
  set (c1 := tick (paint (skip c) r1)).
  assert (HF : nibble 0xF) by (unfold nibble; lia).
  assert (Hcan : canvas (fst r1)).
  { apply canvas_fold. split;
      [apply (wf_display_size c W)|apply (wf_display c W)]. }
  assert (W1 : wf c1) by (apply wf_tick, wf_paint; [apply wf_skip, W|exact Hcan]).
  assert (Em : memory c1 = memory c) by (unfold c1; rewrite tick_eq; reflexivity).
  assert (Ep : pc c1 = pc (skip c)) by (unfold c1; rewrite tick_eq; reflexivity).
  assert (EI : I c1 = I c) by (unfold c1; rewrite tick_eq; reflexivity).
  assert (Ee : extended_mode c1 = extended_mode c)
    by (unfold c1; rewrite tick_eq; reflexivity).
  assert (Ew : screen_width c1 = screen_width c)
    by (unfold c1; rewrite tick_eq; reflexivity).
  assert (Eh : screen_height c1 = screen_height c)
    by (unfold c1; rewrite tick_eq; reflexivity).
  assert (Ed : display c1 = fst r1) by (unfold c1; rewrite tick_eq; reflexivity).
  assert (Er : forall j, nibble j -> j <> 0xF -> reg c1 j = reg c j).
  { intros j Hj HjF. unfold c1. rewrite reg_tick.
    apply (reg_with_reg_ne (skip c) 0xF j); unfold nibble in *; lia. }
  assert (Et : targets c1 x y n = targets c x y n)
    by (apply targets_same; auto).
  assert (Hfetch1 : fetchOpcode c1 = Ok (opcode_of 0xD x y n)).
  { rewrite <- Hnext. apply fetchOpcode_same; [exact Em|exact Ep]. }
  assert (Hfit1 : I c1 + sprite_bytes c1 n <= MEMORY_SIZE).
  { unfold sprite_bytes, sprite_wide in *. rewrite EI, Ee. exact Hfit. }
  pose proof (draw_cycle env' c1 x y n W1 Hx Hy Hn HxF HyF Hfetch1 Hfit1) as C2.
  rewrite Et in C2.
  set (r2 := xor_cells (targets c x y n) (display c1)) in *.
  assert (EF : reg (tick (paint (skip c1) r2)) 0xF = Z.b2z (snd r2)).
  { rewrite reg_tick. apply (reg_with_reg_eq (skip c1)); [|exact HF].
    apply (wf_V_size c1 W1). }
  exists c1, (tick (paint (skip c1) r2)).
  split; [apply draw_cycle; assumption|].
  split; [exact C2|].
  split; [auto|].
  split.
  - rewrite tick_eq. simpl. unfold r2. rewrite Ed. unfold r1.
    apply xor_cells_twice.
  - split; [exact EF|]. rewrite EF.
    assert (Hb : Z.b2z (snd r2) = 1 <-> snd r2 = true)
      by (destruct (snd r2); simpl; split; (discriminate || reflexivity)).
    rewrite Hb. unfold r2. apply xor_cells_flag.
Qed.
End DoubleDraw.


(** * The cycle keeps the machine well-formed *)

Lemma load_in_range (k : Z) (a : list Z) (i v : Z) :
  in_range k a -> load a i = Ok v -> 0 <= v < k.
Proof.
  intros Hr E. apply load_Ok_inv in E as [_ E].
  unfold in_range in Hr. rewrite Forall_lookup in Hr. exact (Hr _ _ E).
Qed.

Lemma store_len (a : list Z) (i v : Z) (a' : list Z) :
  store a i v = Ok a' -> len a' = len a.
Proof.
  intros E. apply store_Ok_inv in E as [_ ->]. unfold len.
  rewrite length_insert. reflexivity.
Qed.

Lemma store_in_range (k : Z) (a : list Z) (i v : Z) (a' : list Z) :
  in_range k a -> 0 <= v < k -> store a i v = Ok a' -> in_range k a'.
Proof.
  intros Hr Hv E. apply store_Ok_inv in E as [_ ->].
  apply Forall_insert; assumption.
Qed.

Lemma wrap8_range (z : Z) : 0 <= wrap8 z < 256.
Proof. unfold wrap8. apply Z.mod_pos_bound. lia. Qed.

Lemma wrap16_range (z : Z) : 0 <= wrap16 z < 65536.
Proof. unfold wrap16. apply Z.mod_pos_bound. lia. Qed.

Lemma in_range_weaken (k k' : Z) (l : list Z) :
  k <= k' -> in_range k l -> in_range k' l.
Proof.
  intros Hk. unfold in_range. apply Forall_impl. intros v Hv. lia.
Qed.

Lemma in_range_zeroed (k n : Z) : 0 < k -> in_range k (zeroed n).
Proof.
  intros Hk. unfold in_range, zeroed. apply Forall_replicate. lia.
Qed.

Lemma len_zeroed (n : Z) : 0 <= n -> len (zeroed n) = n.
Proof. intros Hn. unfold len, zeroed. rewrite length_replicate. lia. Qed.

Section Sound.
Variable b : Z.
Hypothesis Hb : 0 < b <= 256.
Hypothesis Hflip : forall v, 0 <= v < b -> 0 <= wrap8 (Z.lxor v 1) < b.

Lemma sound_set_V (l : list Z) (c : Chip8) :
  sound b c -> len l = 16 -> in_range 256 l -> sound b (set_V l c).
Proof.
  intros [W D] Hl Hr. split; [|exact D].
  destruct W. constructor; simpl; assumption.
Qed.

Lemma sound_set_memory (l : list Z) (c : Chip8) :
  sound b c -> len l = MEMORY_SIZE -> in_range 256 l ->
  sound b (set_memory l c).
Proof.
  intros [W D] Hl Hr. split; [|exact D].
  destruct W. constructor; simpl; assumption.
Qed.

Lemma sound_set_stack (l : list Z) (c : Chip8) :
  sound b c -> len l = STACK_SIZE -> in_range 65536 l ->
  sound b (set_stack l c).
Proof.
  intros [W D] Hl Hr. split; [|exact D].
  destruct W. constructor; simpl; assumption.
Qed.

Lemma sound_set_display (l : list Z) (c : Chip8) :
  sound b c -> len l = MAX_WIDTH * MAX_HEIGHT -> in_range b l ->
  sound b (set_display l c).
Proof.
  intros [W D] Hl Hr. split; [|exact Hr].
  destruct W. constructor; simpl; try assumption.
  apply (in_range_weaken b); [lia|exact Hr].
Qed.

Lemma sound_set_I (v : Z) (c : Chip8) :
  sound b c -> 0 <= v < 65536 -> sound b (set_I v c).
Proof.
  intros [W D] Hv. split; [|exact D].
  destruct W. constructor; simpl; assumption.
Qed.

Lemma sound_set_pc (v : Z) (c : Chip8) :
  sound b c -> 0 <= v < 65536 -> sound b (set_pc v c).
Proof.
  intros [W D] Hv. split; [|exact D].
  destruct W. constructor; simpl; assumption.
Qed.

Lemma sound_set_sp (v : Z) (c : Chip8) :
  sound b c -> 0 <= v < 256 -> sound b (set_sp v c).
Proof.
  intros [W D] Hv. split; [|exact D].
  destruct W. constructor; simpl; assumption.
Qed.

Lemma sound_set_delay_timer (v : Z) (c : Chip8) :
  sound b c -> 0 <= v < 256 -> sound b (set_delay_timer v c).
Proof.
  intros [W D] Hv. split; [|exact D].
  destruct W. constructor; simpl; assumption.
Qed.

Lemma sound_set_sound_timer (v : Z) (c : Chip8) :
  sound b c -> 0 <= v < 256 -> sound b (set_sound_timer v c).
Proof.
  intros [W D] Hv. split; [|exact D].
  destruct W. constructor; simpl; assumption.
Qed.

Lemma sound_skip (c : Chip8) : sound b c -> sound b (skip c).
Proof. intros H. apply sound_set_pc; [exact H|apply wrap16_range]. Qed.

Lemma sound_tick (c : Chip8) : sound b c -> sound b (tick c).
Proof.
  intros [W D]. split; [apply wf_tick, W|].
  rewrite tick_eq. exact D.
Qed.

Lemma stays_Ok (c : Chip8) : sound b c -> stays (sound b) (Ok c).
Proof. intros H c' [= <-]. exact H. Qed.

Lemma stays_bind {A : Type} (m : Outcome A) (k : A -> Outcome Chip8) :
  (forall a, m = Ok a -> stays (sound b) (k a)) ->
  stays (sound b) (bind m k).
Proof.
  intros H c' E. apply bind_Ok_inv in E as (a & Ea & E). exact (H a Ea c' E).
Qed.

Lemma stays_bind_state (m : Outcome Chip8) (k : Chip8 -> Outcome Chip8) :
  stays (sound b) m ->
  (forall c1, sound b c1 -> stays (sound b) (k c1)) ->
  stays (sound b) (bind m k).
Proof.
  intros Hm Hk c' E. apply bind_Ok_inv in E as (c1 & E1 & E).
  exact (Hk c1 (Hm c1 E1) c' E).
Qed.

Lemma stays_forM (body : Z -> Chip8 -> Outcome Chip8) :
  (forall i c1, sound b c1 -> stays (sound b) (body i c1)) ->
  forall l c, sound b c -> stays (sound b) (forM l body c).
Proof.
  intros Hbody l. induction l as [|i l IH]; intros c Hc; simpl.
  - apply stays_Ok, Hc.
  - apply stays_bind_state; [apply Hbody, Hc|]. intros c1 Hc1. apply IH, Hc1.
Qed.

Lemma stays_put_V (i v : Z) (c : Chip8) :
  sound b c -> 0 <= v < 256 -> stays (sound b) (put_V i v c).
Proof.
  intros H Hv. unfold put_V. apply stays_bind. intros l El.
  apply stays_Ok, sound_set_V; [exact H| |].
  - rewrite (store_len _ _ _ _ El). apply (wf_V_size c), H.
  - eapply store_in_range; [apply (wf_V c), H|exact Hv|exact El].
Qed.

Lemma stays_put_memory (i v : Z) (c : Chip8) :
  sound b c -> 0 <= v < 256 -> stays (sound b) (put_memory i v c).
Proof.
  intros H Hv. unfold put_memory. apply stays_bind. intros l El.
  apply stays_Ok, sound_set_memory; [exact H| |].
  - rewrite (store_len _ _ _ _ El). apply (wf_memory_size c), H.
  - eapply store_in_range; [apply (wf_memory c), H|exact Hv|exact El].
Qed.

Lemma get_V_range (i v : Z) (c : Chip8) :
  sound b c -> get_V i c = Ok v -> 0 <= v < 256.
Proof. intros H. apply load_in_range, (wf_V c), H. Qed.

Lemma stays_put_display (i v : Z) (c : Chip8) :
  sound b c -> 0 <= v < b ->
  stays (sound b)
    (let* d := store (display c) i v in Ok (set_display d c)).
Proof.
  intros H Hv. apply stays_bind. intros l El.
  apply stays_Ok, sound_set_display; [exact H| |].
  - rewrite (store_len _ _ _ _ El). apply (wf_display_size c), H.
  - eapply store_in_range; [apply H|exact Hv|exact El].
Qed.

Lemma stays_copy_cell (dst src : Z) (c : Chip8) :
  sound b c -> stays (sound b) (copy_cell dst src c).
Proof.
  intros H. unfold copy_cell. apply stays_bind. intros v Ev.
  apply stays_put_display; [exact H|].
  eapply load_in_range; [apply H|exact Ev].
Qed.

Lemma stays_clear_cell (dst : Z) (c : Chip8) :
  sound b c -> stays (sound b) (clear_cell dst c).
Proof. intros H. apply stays_put_display; [exact H|lia]. Qed.

Lemma stays_scroll_horizontal (d : Z) (c : Chip8) :
  sound b c -> stays (sound b) (scroll_horizontal d c).
Proof.
  intros H. unfold scroll_horizontal. cbv zeta.
  destruct (d >? 0); apply stays_forM; try exact H; intros y c1 H1;
    (apply stays_bind_state;
     [apply stays_forM; [intros ? ? ?; apply stays_copy_cell; assumption
                        |exact H1]
     |intros c2 H2; apply stays_forM;
      [intros ? ? ?; apply stays_clear_cell; assumption|exact H2]]).
Qed.

Lemma stays_scroll_down (n : Z) (c : Chip8) :
  sound b c -> stays (sound b) (scroll_down n c).
Proof.
  intros H. unfold scroll_down.
  apply stays_bind_state.
  - apply stays_forM; [|exact H]. intros y c1 H1.
    apply stays_forM; [|exact H1]. intros ? ? ?.
    apply stays_copy_cell; assumption.
  - intros c1 H1. apply stays_forM; [|exact H1]. intros y c2 H2.
    apply stays_forM; [|exact H2]. intros ? ? ?.
    apply stays_clear_cell; assumption.
Qed.

Lemma stays_plot (x y row col : Z) (c : Chip8) :
  sound b c -> stays (sound b) (plot x y row col c).
Proof.
  intros H. unfold plot. apply stays_bind. intros vx _.
  destruct (screen_width c =? 0); [intros ? [=]|]. cbv zeta.
  apply stays_bind. intros vy _.
  destruct (screen_height c =? 0); [intros ? [=]|].
  apply stays_bind. intros cell _.
  apply stays_bind_state.
  - destruct (cell =? 1); [|apply stays_Ok, H].
    fold (put_V 0xF 1 c). apply stays_put_V; [exact H|lia].
  - intros c1 H1. apply stays_bind. intros cell1 E1.
    apply stays_put_display; [exact H1|].
    apply Hflip. eapply load_in_range; [apply H1|exact E1].
Qed.

Lemma stays_draw_sprite (x y n : Z) (c : Chip8) :
  sound b c -> stays (sound b) (draw_sprite x y n c).
Proof.
  intros H. unfold draw_sprite.
  destruct (negb (extended_mode c =? 0) && (n =? 0)); cbv iota beta;
    (apply stays_bind; intros l El;
     assert (H1 : sound b (set_V l c));
     [ apply sound_set_V;
       [ exact H
       | rewrite (store_len _ _ _ _ El); apply (wf_V_size c), H
       | eapply store_in_range; [apply (wf_V c), H| |exact El]; lia ]
     | cbv zeta ]).
  - change (16 =? 16) with true. cbv iota.
    apply stays_forM; [|exact H1]. intros row c1 Hc1.
    apply stays_bind. intros b1 _. apply stays_bind. intros b2 _.
    apply stays_forM; [|exact Hc1]. intros col c2 Hc2. cbv zeta.
    match goal with |- stays _ (if ?t then _ else _) => destruct t end;
      [apply stays_plot, Hc2|apply stays_Ok, Hc2].
  - change (8 =? 16) with false. cbv iota.
    apply stays_forM; [|exact H1]. intros row c1 Hc1.
    apply stays_bind. intros b1 _.
    apply stays_forM; [|exact Hc1]. intros col c2 Hc2. cbv zeta.
    match goal with |- stays _ (if ?t then _ else _) => destruct t end;
      [apply stays_plot, Hc2|apply stays_Ok, Hc2].
Qed.

Lemma mapKey_range (sym : SDL_Keycode) :
  sym <> SDLK_other -> 0 <= mapKey sym < 16.
Proof. destruct sym; simpl; intros H; try lia. contradiction. Qed.

Lemma sound_poll_key (x : Z) (events : list SDL_Event) :
  forall pressed c r,
    sound b c -> poll_key x events pressed c = Ok r -> sound b (snd r).
Proof.
  induction events as [|e events IH]; intros pressed c r Hc E; simpl in E.
  - injection E as <-. exact Hc.
  - destruct e as [sym|sym| |]; try discriminate; try (eapply IH; eassumption).
    destruct sym;
      try (apply bind_Ok_inv in E as (l & El & E);
           eapply IH; [|exact E];
           apply sound_set_V;
           [ exact Hc
           | rewrite (store_len _ _ _ _ El); apply (wf_V_size c), Hc
           | eapply store_in_range; [apply (wf_V c), Hc| |exact El];
             simpl; lia ]).
    eapply IH; eassumption.
Qed.

Lemma stays_wait_key (x : Z) (polls : list (list SDL_Event)) :
  forall c, sound b c -> stays (sound b) (wait_key x polls c).
Proof.
  induction polls as [|events polls IH]; intros c Hc c' E; simpl in E.
  - discriminate.
  - apply bind_Ok_inv in E as (r & Er & E).
    pose proof (sound_poll_key x events false c r Hc Er) as Hr.
    destruct (fst r).
    + injection E as <-. exact Hr.
    + exact (IH (snd r) Hr c' E).
Qed.

Ltac in_bounds :=
  first
    [ apply wrap8_range | apply wrap16_range | lia
    | eapply get_V_range; eassumption
    | eapply load_in_range; [|eassumption];
      first [ apply wf_V | apply wf_memory | apply wf_stack ];
      match goal with H : sound _ _ |- _ => apply H end
    | match goal with H : sound _ ?c |- 0 <= delay_timer ?c < _ =>
        apply (wf_delay_timer c), H end
    | match goal with |- context [if ?t then _ else _] => destruct t; lia end ].

Ltac sound_leaf :=
  first
    [ assumption
    | apply sound_skip; sound_leaf
    | apply sound_set_I; [sound_leaf|in_bounds]
    | apply sound_set_pc; [sound_leaf|in_bounds]
    | apply sound_set_sp; [sound_leaf|in_bounds]
    | apply sound_set_delay_timer; [sound_leaf|in_bounds]
    | apply sound_set_sound_timer; [sound_leaf|in_bounds] ].

Ltac stays_step :=
  match goal with
  | |- stays _ (Ok _) => apply stays_Ok; try sound_leaf
  | |- stays _ (put_V _ _ _) => apply stays_put_V; [sound_leaf|in_bounds]
  | |- stays _ (put_memory _ _ _) =>
      apply stays_put_memory; [sound_leaf|in_bounds]
  | |- stays _ (forM _ _ _) => apply stays_forM; [intros ? ? ?|sound_leaf]
  | |- stays _ (@bind Chip8 _ _ _) => apply stays_bind_state; [|intros ? ?]
  | |- stays _ (bind _ _) => apply stays_bind; intros ? ?
  | |- stays _ (if ?t then _ else _) => destruct t
  end.

Lemma stays_alu (opcode x y : Z) (c : Chip8) :
  sound b c -> stays (sound b) (alu opcode x y c).
Proof.
  intros H. unfold alu. cbv zeta.
  repeat case_match; repeat stays_step.
Qed.

Lemma stays_key_skip (opcode x : Z) (c : Chip8) :
  sound b c -> stays (sound b) (key_skip opcode x c).
Proof.
  intros H. unfold key_skip. repeat case_match; repeat stays_step.
Qed.

Lemma stays_misc (env : Env) (opcode x : Z) (c : Chip8) :
  sound b c -> stays (sound b) (misc env opcode x c).
Proof.
  intros H. unfold misc.
  repeat case_match; repeat stays_step;
    try (apply stays_wait_key; assumption).
Qed.

Lemma sound_clear (c : Chip8) :
  sound b c -> sound b (set_display (zeroed (MAX_WIDTH * MAX_HEIGHT)) c).
Proof.
  intros H. apply sound_set_display; [exact H| |].
  - apply len_zeroed. unfold MAX_WIDTH, MAX_HEIGHT, EXT_WIDTH, EXT_HEIGHT. lia.
  - apply in_range_zeroed. lia.
Qed.

Lemma stays_execute (env : Env) (opcode x y kk nnn n : Z) (c : Chip8) :
  0 <= kk < 256 -> 0 <= nnn < 65536 ->
  sound b c -> stays (sound b) (execute env opcode x y kk nnn n c).
Proof.
  intros Hkk Hnnn H. unfold execute. cbv zeta.
  repeat case_match; repeat stays_step;
    try (apply stays_alu; assumption);
    try (apply stays_key_skip; assumption);
    try (apply stays_misc; assumption);
    try (apply stays_draw_sprite; assumption);
    try (apply sound_clear; assumption).
  - match goal with E : load _ _ = Ok ?a |- _ =>
      apply sound_set_pc;
        [ apply sound_set_sp; [exact H|in_bounds]
        | eapply load_in_range; [|exact E]; apply (wf_stack c), H ]
    end.
  - match goal with E : store _ _ _ = Ok ?a |- _ =>
      apply sound_set_pc; [|exact Hnnn];
      apply sound_set_sp; [|in_bounds];
      apply sound_set_stack;
        [ exact H
        | rewrite (store_len _ _ _ _ E); apply (wf_stack_size c), H
        | eapply store_in_range;
          [apply (wf_stack c), H|apply (wf_pc c), H|exact E] ]
    end.
Qed.

Lemma stays_cycle (env : Env) (c : Chip8) :
  sound b c -> stays (sound b) (emulateCycle env c).
Proof.
  intros H. unfold emulateCycle. apply stays_bind. intros opcode _.
  cbv zeta. fold (skip c).
  assert (Hs : sound b (skip c)) by (apply sound_skip, H).
  assert (Hmode0 :
    sound b (set_display (zeroed (MAX_WIDTH * MAX_HEIGHT))
               (set_mode 0 NORMAL_WIDTH NORMAL_HEIGHT (255, 255, 255)
                  (0, 0, 0) (skip c)))).
  { apply sound_clear. destruct Hs as [W D]. split; [|exact D].
    destruct W. constructor; simpl; try assumption. left. auto. }
  assert (Hmode1 :
    sound b (set_display (zeroed (MAX_WIDTH * MAX_HEIGHT))
               (set_mode 1 EXT_WIDTH EXT_HEIGHT (0, 255, 255) (0, 0, 128)
                  (skip c)))).
  { apply sound_clear. destruct Hs as [W D]. split; [|exact D].
    destruct W. constructor; simpl; try assumption. right. auto. }
  repeat match goal with
         | |- stays _ (if ?t then _ else _) => destruct t
         end.
  - apply stays_scroll_horizontal, Hs.
  - apply stays_scroll_horizontal, Hs.
  - intros ? [=].
  - apply stays_Ok, Hmode0.
  - apply stays_Ok, Hmode1.
  - apply stays_scroll_down, Hs.
  - apply stays_bind_state.
    + apply stays_execute; [apply wrap8_range|apply wrap16_range|exact Hs].
    + intros c1 H1. apply stays_Ok, sound_tick, H1.
Qed.
End Sound.

Lemma sound_256 (c : Chip8) : wf c <-> sound 256 c.
Proof. split; [intros W; split; [exact W|apply W]|intros [W _]; exact W]. Qed.

Lemma flip_in_byte (v : Z) : 0 <= v < 256 -> 0 <= wrap8 (Z.lxor v 1) < 256.
Proof. intros _. apply wrap8_range. Qed.

Lemma flip_in_bit (v : Z) : 0 <= v < 2 -> 0 <= wrap8 (Z.lxor v 1) < 2.
Proof.
  intros H. assert (E : v = 0 \/ v = 1) by lia.
  destruct E as [->| ->]; vm_compute; split; congruence.
Qed.

(** X1: a cycle that returns on a well-formed machine returns a
    well-formed machine: the arrays keep their sizes, every byte stays in
    0..255, the 16-bit fields in 0..65535, and the mode variables stay one
    of the two pairs. *)
Theorem cycle_keeps_well_formed (env : Env) (c c' : Chip8) :
  wf c -> emulateCycle env c = Ok c' -> wf c'.
Proof.
  intros W E. apply sound_256.
  refine (stays_cycle 256 _ flip_in_byte env c _ c' E); [lia|].
  apply sound_256, W.
Qed.

(** X2: when every display cell is 0 or 1 before a cycle, every display
    cell is 0 or 1 after it. *)
Theorem cycle_keeps_cells_binary (env : Env) (c c' : Chip8) :
  wf c -> in_range 2 (display c) -> emulateCycle env c = Ok c' ->
  in_range 2 (display c').
Proof.
  intros W D E.
  apply (stays_cycle 2 ltac:(lia) flip_in_bit env c (conj W D) c' E).
Qed.


(** * The machine at start *)

Lemma in_range_blit (k : Z) (dst src : list Z) (off : Z) :
  in_range k dst -> in_range k src -> in_range k (blit_bytes dst off src).
Proof.
  intros Hd Hs. unfold blit_bytes, in_range in *.
  repeat apply Forall_app_2; [apply Forall_take, Hd|exact Hs|].
  apply Forall_drop, Hd.
Qed.

Lemma wf_initialize : wf (initializeChip8 chip8_static).
Proof. apply wfb_sound. vm_compute. reflexivity. Qed.


Lemma boot_eq (prog : list Z) :
  len prog <= MEMORY_SIZE - START_ADDRESS ->
  boot prog
  = set_memory
      (blit_bytes (memory (initializeChip8 chip8_static)) START_ADDRESS prog)
      (initializeChip8 chip8_static).
Proof.
  intros Hlen. unfold boot. rewrite loadROM_file.
  destruct (Z.gtb_spec (len prog) (MEMORY_SIZE - START_ADDRESS)); [lia|].
  reflexivity.
Qed.

Lemma boot_sound (prog : list Z) :
  in_range 256 prog ->
  len prog <= MEMORY_SIZE - START_ADDRESS ->
  wf (boot prog) /\ in_range 1 (display (boot prog)).
Proof.
  intros Hprog Hlen. rewrite (boot_eq prog Hlen).
  pose proof wf_initialize as W0.
  pose proof (wf_memory_size _ W0) as M0.
  unfold MEMORY_SIZE, START_ADDRESS in *. split.
  - apply sound_256, sound_set_memory; [apply sound_256, W0| |].
    + rewrite blit_bytes_len; [exact M0|lia|lia].
    + apply in_range_blit; [apply W0|exact Hprog].
  - apply in_rangeb_sound. vm_compute. reflexivity.
Qed.


Lemma run_envs_sound (b : Z) :
  0 < b <= 256 ->
  (forall v, 0 <= v < b -> 0 <= wrap8 (Z.lxor v 1) < b) ->
  forall envs c c',
    sound b c -> run_envs envs c = Ok c' -> sound b c'.
Proof.
  intros Hb Hflip envs. induction envs as [|env envs IH]; intros c c' H E.
  - injection E as <-. exact H.
  - simpl in E. apply bind_Ok_inv in E as (c1 & E1 & E).
    apply (IH c1 c'); [|exact E].
    exact (stays_cycle b Hb Hflip env c H c1 E1).
Qed.

(** X4: every machine reached from a loaded program by cycles that return
    is well-formed and has only 0 and 1 in its display. *)
Theorem reachable_machines_are_sound (prog : list Z) (envs : list Env)
  (c : Chip8) :
  in_range 256 prog ->
  len prog <= MEMORY_SIZE - START_ADDRESS ->
  run_envs envs (boot prog) = Ok c ->
  wf c /\ in_range 2 (display c).
Proof.
  intros Hprog Hlen E.
  destruct (boot_sound prog Hprog Hlen) as [W D].
  apply (run_envs_sound 2 ltac:(lia) flip_in_bit envs (boot prog) c);
    [|exact E].
  split; [exact W|]. apply (in_range_weaken 1); [lia|exact D].
Qed.


(** * Arithmetic, jumps and skips *)

Lemma byte_log2 (z : Z) : 0 <= z < 256 -> Z.log2 z < 8.
Proof.
  intros H. destruct (Z.eq_dec z 0) as [->|Hz]; [simpl; lia|].
  apply Z.log2_lt_pow2; [lia|]. change (2 ^ 8) with 256. lia.
Qed.

Lemma log2_byte (z : Z) : 0 <= z -> Z.log2 z < 8 -> 0 <= z < 256.
Proof.
  intros H0 H. split; [exact H0|].
  destruct (Z.eq_dec z 0) as [->|Hz]; [lia|].
  change 256 with (2 ^ 8). apply Z.log2_lt_pow2; lia.
Qed.

Lemma lor_byte (a b0 : Z) :
  0 <= a < 256 -> 0 <= b0 < 256 -> 0 <= Z.lor a b0 < 256.
Proof.
  intros Ha Hb. apply log2_byte; [apply Z.lor_nonneg; lia|].
  rewrite Z.log2_lor by lia. apply Z.max_lub_lt; apply byte_log2; lia.
Qed.

Lemma land_byte (a b0 : Z) :
  0 <= a < 256 -> 0 <= b0 -> 0 <= Z.land a b0 < 256.
Proof.
  intros Ha Hb. apply log2_byte; [apply Z.land_nonneg; lia|].
  eapply Z.le_lt_trans; [apply Z.log2_land; lia|].
  eapply Z.le_lt_trans; [apply Z.le_min_l|]. apply byte_log2. lia.
Qed.

Lemma lxor_byte (a b0 : Z) :
  0 <= a < 256 -> 0 <= b0 < 256 -> 0 <= Z.lxor a b0 < 256.
Proof.
  intros Ha Hb. apply log2_byte; [apply Z.lxor_nonneg; lia|].
  eapply Z.le_lt_trans; [apply Z.log2_lxor; lia|].
  apply Z.max_lub_lt; apply byte_log2; lia.
Qed.

Section Operations.
Variables (env : Env) (c : Chip8) (x y n : Z).
Hypotheses (Hx : nibble x) (Hy : nibble y) (Hn : nibble n).
Hypothesis W : wf c.

(** X5: 8xy4 writes the carry of Vx + Vy into VF and then the sum modulo
    256 into Vx; both operands are read before the flag is written, and
    for x = F the sum overwrites the carry. *)
Theorem add_with_carry :
  fetchOpcode c = Ok (opcode_of 8 x y 4) ->
  emulateCycle env c
  = Ok (tick
          (with_reg x ((reg c x + reg c y) mod 256)
             (with_reg 0xF (if reg c x + reg c y >? 255 then 1 else 0)
                (skip c)))).
Proof.
  intros Hfetch.
  pose proof (wf_V_size c W : len (V (skip c)) = 16) as HV.
  pose proof (wf_reg_byte c x W Hx) as Bx.
  pose proof (wf_reg_byte c y W Hy) as By.
  run_standard Hfetch. run_inner Hfetch.
  rewrite !get_V_reg, !bind_Ok by nibbles.
  change (reg (skip c)) with (reg c).
  assert (E16 : wrap16 (reg c x + reg c y) = reg c x + reg c y)
    by (apply Z.mod_small; lia).
  rewrite E16.
  rewrite put_V_with_reg, bind_Ok by nibbles.
  rewrite put_V_with_reg by (rewrite ?len_V_with_reg; nibbles).
  change 0xFF with (Z.ones 8). rewrite Z.land_ones by lia.
  change (2 ^ 8) with 256. unfold wrap8. rewrite Z.mod_mod by lia.
  reflexivity.
Qed.

(** X6: the instructions with an immediate operand take it from the low
    digits of the opcode: 6xkk loads kk into Vx and 7xkk adds kk to Vx
    modulo 256, without writing VF; Annn sets I to nnn, 1nnn jumps to nnn
    and Bnnn to nnn + V0, which may lie beyond the 4096 bytes of memory. *)
Theorem immediate_operand_instructions :
  let kk := 16 * y + n in
  let nnn := 256 * x + 16 * y + n in
  (fetchOpcode c = Ok (opcode_of 6 x y n) ->
   emulateCycle env c = Ok (tick (with_reg x kk (skip c))))
  /\ (fetchOpcode c = Ok (opcode_of 7 x y n) ->
      emulateCycle env c
      = Ok (tick (with_reg x ((reg c x + kk) mod 256) (skip c))))
  /\ (fetchOpcode c = Ok (opcode_of 0xA x y n) ->
      emulateCycle env c = Ok (tick (set_I nnn (skip c))))
  /\ (fetchOpcode c = Ok (opcode_of 1 x y n) ->
      emulateCycle env c = Ok (tick (set_pc nnn (skip c))))
  /\ (fetchOpcode c = Ok (opcode_of 0xB x y n) ->
      emulateCycle env c = Ok (tick (set_pc (nnn + reg c 0) (skip c)))).
Proof.
  intros kk nnn. unfold kk, nnn.
  pose proof (wf_V_size c W : len (V (skip c)) = 16) as HV.
  assert (N0 : nibble 0) by (unfold nibble; lia).
  pose proof (wf_reg_byte c 0 W N0) as B0.
  repeat split; intros Hfetch; run_standard Hfetch; try reflexivity.
  - rewrite put_V_with_reg by nibbles. reflexivity.
  - rewrite get_V_reg, bind_Ok by nibbles.
    rewrite put_V_with_reg by nibbles. reflexivity.
  - rewrite get_V_reg, bind_Ok by nibbles.
    change (reg (skip c) 0) with (reg c 0).
    unfold wrap16. rewrite Z.mod_small by (unfold nibble in *; lia).
    reflexivity.
Qed.

(** X7: 8xy0, 8xy1, 8xy2 and 8xy3 store Vy, Vx OR Vy, Vx AND Vy and
    Vx XOR Vy in Vx and leave VF as it was. *)
Theorem bitwise_operations :
  (fetchOpcode c = Ok (opcode_of 8 x y 0) ->
   emulateCycle env c = Ok (tick (with_reg x (reg c y) (skip c))))
  /\ (fetchOpcode c = Ok (opcode_of 8 x y 1) ->
      emulateCycle env c
      = Ok (tick (with_reg x (Z.lor (reg c x) (reg c y)) (skip c))))
  /\ (fetchOpcode c = Ok (opcode_of 8 x y 2) ->
      emulateCycle env c
      = Ok (tick (with_reg x (Z.land (reg c x) (reg c y)) (skip c))))
  /\ (fetchOpcode c = Ok (opcode_of 8 x y 3) ->
      emulateCycle env c
      = Ok (tick (with_reg x (Z.lxor (reg c x) (reg c y)) (skip c)))).
Proof.
  pose proof (wf_V_size c W : len (V (skip c)) = 16) as HV.
  pose proof (wf_reg_byte c x W Hx) as Bx.
  pose proof (wf_reg_byte c y W Hy) as By.
  repeat split; intros Hfetch; run_standard Hfetch; run_inner Hfetch;
    rewrite !get_V_reg, !bind_Ok by nibbles;
    change (reg (skip c)) with (reg c);
    rewrite ?wrap8_small
      by first [apply lor_byte; lia | apply land_byte; lia
               | apply lxor_byte; lia];
    rewrite put_V_with_reg by nibbles; reflexivity.
Qed.

(** X8: 3xkk skips the next instruction exactly when Vx = kk and 4xkk
    exactly when it does not, so on the same machine one of the two
    advances pc by 4 and the other by 2. *)
Theorem skip_on_immediate :
  (fetchOpcode c = Ok (opcode_of 3 x y n) ->
   emulateCycle env c
   = Ok (tick (if reg c x =? 16 * y + n then skip (skip c) else skip c)))
  /\ (fetchOpcode c = Ok (opcode_of 4 x y n) ->
      emulateCycle env c
      = Ok (tick (if reg c x =? 16 * y + n then skip c else skip (skip c)))).
Proof.
  pose proof (wf_V_size c W : len (V (skip c)) = 16) as HV.
  split; intros Hfetch; run_standard Hfetch;
    rewrite get_V_reg, bind_Ok by nibbles;
    change (reg (skip c)) with (reg c);
    destruct (reg c x =? 16 * y + n); reflexivity.
Qed.

End Operations.

Lemma land_subset (a k : Z) : 0 <= k -> Z.land (Z.land a k) k = Z.land a k
  /\ Z.land a k <= k.
Proof.
  intros Hk. split.
  - rewrite <- Z.land_assoc, Z.land_diag. reflexivity.
  - apply (Z.ldiff_le (Z.land a k) k Hk).
    apply Z.bits_inj'. intros m Hm.
    rewrite Z.ldiff_spec, Z.land_spec, Z.bits_0.
    destruct (Z.testbit a m), (Z.testbit k m); reflexivity.
Qed.

Section Operations2.
Variables (env : Env) (c : Chip8) (x y n : Z).
Hypotheses (Hx : nibble x) (Hy : nibble y) (Hn : nibble n).
Hypothesis W : wf c.

(** X9: Ex9E skips the next instruction when the key whose number is in
    Vx is down and ExA1 when it is up; a value of Vx above 15 indexes
    outside [keys] (no bounds check). *)
Theorem skip_on_key :
  (reg c x < 16 ->
   (fetchOpcode c = Ok (opcode_of 0xE x 9 0xE) ->
    emulateCycle env c
    = Ok (tick (if key c (reg c x) =? 0 then skip c else skip (skip c))))
   /\ (fetchOpcode c = Ok (opcode_of 0xE x 0xA 1) ->
       emulateCycle env c
       = Ok (tick (if key c (reg c x) =? 0 then skip (skip c) else skip c))))
  /\ (16 <= reg c x ->
      fetchOpcode c = Ok (opcode_of 0xE x 9 0xE)
      \/ fetchOpcode c = Ok (opcode_of 0xE x 0xA 1) ->
      emulateCycle env c = Fault).
Proof.
  pose proof (wf_V_size c W : len (V (skip c)) = 16) as HV.
  pose proof (wf_reg_byte c x W Hx) as Bx.
  pose proof (wf_keys_size c W) as HK. unfold len in HK.
  split; [intros Hlt; split|intros Hge [Hfetch|Hfetch]]; try intros Hfetch;
    run_standard Hfetch; run_inner Hfetch;
    rewrite get_V_reg, bind_Ok by nibbles;
    change (reg (skip c) x) with (reg c x);
    change (keys (skip c)) with (keys c).
  - rewrite load_total, bind_Ok by lia. fold (key c (reg c x)).
    destruct (key c (reg c x) =? 0); reflexivity.
  - rewrite load_total, bind_Ok by lia. fold (key c (reg c x)).
    destruct (key c (reg c x) =? 0); reflexivity.
  - unfold load. destruct (Z.leb_spec 0 (reg c x)); [|lia].
    rewrite lookup_ge_None_2 by lia. reflexivity.
  - unfold load. destruct (Z.leb_spec 0 (reg c x)); [|lia].
    rewrite lookup_ge_None_2 by lia. reflexivity.
Qed.

(** X10: Cxkk stores in Vx the low byte of the value of [rand()] ANDed
    with kk: every bit of the result is a bit of kk, so it is at most kk. *)
Theorem random_is_masked :
  0 <= rand env ->
  fetchOpcode c = Ok (opcode_of 0xC x y n) ->
  let v := Z.land (rand env mod 256) (16 * y + n) in
  emulateCycle env c = Ok (tick (with_reg x v (skip c)))
  /\ Z.land v (16 * y + n) = v /\ 0 <= v <= 16 * y + n.
Proof.
  intros Hr Hfetch v.
  pose proof (wf_V_size c W : len (V (skip c)) = 16) as HV.
  assert (Hkk : 0 <= 16 * y + n < 256) by (unfold nibble in *; lia).
  assert (Hm : 0 <= rand env mod 256 < 256)
    by (apply Z.mod_pos_bound; lia).
  destruct (land_subset (rand env mod 256) (16 * y + n)) as [E1 E2]; [lia|].
  assert (Hv : 0 <= v < 256) by (apply land_byte; lia).
  split; [|split; [exact E1|split; [lia|exact E2]]].
  run_standard Hfetch.
  rewrite Z.rem_mod_nonneg by lia. fold v.
  rewrite wrap8_small by exact Hv.
  rewrite put_V_with_reg by nibbles. reflexivity.
Qed.

(** X11: in normal mode Dxy0 is a sprite without rows: it leaves the
    display as it is and only resets VF to 0, for any x and y. *)
Theorem draw_without_rows :
  extended_mode c = 0 ->
  fetchOpcode c = Ok (opcode_of 0xD x y 0) ->
  emulateCycle env c = Ok (tick (with_reg 0xF 0 (skip c))).
Proof.
  intros Hmode Hfetch.
  pose proof (wf_V_size c W : len (V (skip c)) = 16) as HV.
  assert (N0 : nibble 0) by (unfold nibble; lia).
  run_standard Hfetch. unfold draw_sprite.
  change (extended_mode (skip c)) with (extended_mode c). rewrite Hmode.
  rewrite store_total by (unfold len in HV; lia).
  reflexivity.
Qed.

(** X12: the stack is indexed without a bounds check: 2nnn with
    sp >= 16 writes outside [stack], and 00EE with sp = 0 decrements sp to
    255 and reads outside it. *)
Theorem stack_overflow_and_underflow :
  (STACK_SIZE <= sp c -> fetchOpcode c = Ok (opcode_of 2 x y n) ->
   emulateCycle env c = Fault)
  /\ (sp c = 0 -> fetchOpcode c = Ok 0x00EE -> emulateCycle env c = Fault).
Proof.
  pose proof (wf_stack_size c W) as HS. unfold STACK_SIZE in *.
  split; intros Hsp Hfetch.
  - run_standard Hfetch. unfold store.
    change (stack (skip c)) with (stack c). change (sp (skip c)) with (sp c).
    unfold len in HS.
    destruct (Z.ltb_spec (sp c) (Z.of_nat (length (stack c)))); [lia|].
    rewrite andb_false_r. reflexivity.
  - assert (N0 : nibble 0) by (unfold nibble; lia).
    assert (NE : nibble 0xE) by (unfold nibble; lia).
    change 0x00EE with (opcode_of 0 0 0xE 0xE) in Hfetch.
    rewrite (emulateCycle_not_extended env c 0 0 0xE 0xE N0 N0 NE NE Hfetch)
      by lia.
    unfold execute. rewrite (execute_top 0 0 0xE 0xE) by assumption.
    change (4096 * 0) with 0. change (opcode_of 0 0 0xE 0xE) with 0x00EE.
    cbv iota beta zeta. simpl sp. simpl stack. rewrite Hsp.
    change (wrap8 (0 - 1)) with 255. unfold load. simpl.
    rewrite lookup_ge_None_2 by (unfold len in HS; lia). reflexivity.
Qed.

(** X13: Fx15 followed by Fy07 does not read back Vx: the timer update
    at the end of the first cycle has already counted once, so Vy receives
    Vx - 1 (0 for Vx = 0), and the delay timer is at Vx - 2 (or 0) after
    the second cycle. *)
Theorem delay_timer_read_back (env' : Env) :
  fetchOpcode c = Ok (opcode_of 0xF x 1 5) ->
  fetchOpcode (skip c) = Ok (opcode_of 0xF y 0 7) ->
  exists c1 c2,
    emulateCycle env c = Ok c1
    /\ emulateCycle env' c1 = Ok c2
    /\ delay_timer c1 = Z.max 0 (reg c x - 1)
    /\ reg c2 y = Z.max 0 (reg c x - 1)
    /\ delay_timer c2 = Z.max 0 (reg c x - 2).
Proof.
  intros Hfetch Hnext.
  pose proof (wf_V_size c W : len (V (skip c)) = 16) as HV.
  pose proof (wf_reg_byte c x W Hx) as Bx.
  set (c1 := tick (set_delay_timer (reg c x) (skip c))).
  assert (E1 : emulateCycle env c = Ok c1).
  { run_standard Hfetch. run_inner Hfetch.
    rewrite get_V_reg, bind_Ok by nibbles. reflexivity. }
  assert (D1 : delay_timer c1 = Z.max 0 (reg c x - 1)).
  { unfold c1. rewrite tick_delay_timer by (simpl; exact Bx). simpl.
    change (reg (skip c) x) with (reg c x).
    destruct (Z.eqb_spec (reg c x) 0); lia. }
  assert (F1 : fetchOpcode c1 = Ok (opcode_of 0xF y 0 7)).
  { rewrite <- Hnext. apply fetchOpcode_same;
      unfold c1; rewrite tick_eq; reflexivity. }
  assert (HV1 : len (V (skip c1)) = 16).
  { unfold c1. change (V (skip ?m)) with (V m). rewrite V_tick. exact HV. }
  set (c2 := tick (with_reg y (delay_timer c1) (skip c1))).
  assert (E2 : emulateCycle env' c1 = Ok c2).
  { run_standard F1. run_inner F1.
    rewrite put_V_with_reg by nibbles. reflexivity. }
  exists c1, c2. split; [exact E1|]. split; [exact E2|]. split; [exact D1|].
  split.
  - unfold c2. rewrite reg_tick, (reg_with_reg_eq (skip c1)) by nibbles.
    exact D1.
  - unfold c2. rewrite tick_delay_timer; simpl.
    + change (delay_timer (skip c1)) with (delay_timer c1). rewrite D1.
      destruct (Z.eqb_spec (Z.max 0 (reg c x - 1)) 0); lia.
    + rewrite D1. lia.
Qed.
End Operations2.

(** * The zero page and the display modes *)

Lemma zero_page_default {A : Type} (op : Z) (a b d : A) :
  op <> 0x00E0 -> op <> 0x00EE ->
  match op with 0x00E0 => a | 0x00EE => b | _ => d end = d.
Proof.
  intros Ha Hb. destruct op as [|p|p]; try reflexivity.
  do 8 (destruct p as [p|p|]; try reflexivity); congruence.
Qed.

Lemma alu_default {A : Type} (n : Z) (a0 a1 a2 a3 a4 a5 a6 a7 aE d : A) :
  8 <= n < 16 -> n <> 0xE ->
  match n with
  | 0x0 => a0 | 0x1 => a1 | 0x2 => a2 | 0x3 => a3 | 0x4 => a4
  | 0x5 => a5 | 0x6 => a6 | 0x7 => a7 | 0xE => aE | _ => d
  end = d.
Proof.
  intros Hn HE. destruct n as [|p|p]; try reflexivity; try lia.
  do 4 (try (destruct p as [p|p|]; try reflexivity; try lia)).
Qed.

Lemma key_skip_default {A : Type} (k : Z) (a b d : A) :
  k <> 0x9E -> k <> 0xA1 ->
  match k with 0x9E => a | 0xA1 => b | _ => d end = d.
Proof.
  intros Ha Hb. destruct k as [|p|p]; try reflexivity.
  do 8 (destruct p as [p|p|]; try reflexivity); congruence.
Qed.

Lemma misc_default {A : Type} (k : Z) (a1 a2 a3 a4 a5 a6 a7 a8 a9 d : A) :
  k <> 0x07 /\ k <> 0x0A /\ k <> 0x15 /\ k <> 0x18 /\ k <> 0x1E
  /\ k <> 0x29 /\ k <> 0x33 /\ k <> 0x55 /\ k <> 0x65 ->
  match k with
  | 0x07 => a1 | 0x0A => a2 | 0x15 => a3 | 0x18 => a4 | 0x1E => a5
  | 0x29 => a6 | 0x33 => a7 | 0x55 => a8 | 0x65 => a9 | _ => d
  end = d.
Proof.
  intros H. destruct k as [|p|p]; try reflexivity.
  do 7 (try (destruct p as [p|p|]; try reflexivity;
             try (exfalso; intuition congruence))).
Qed.

Section ZeroPage.
Variables (env : Env) (c : Chip8) (x y n : Z).
Hypotheses (Hx : nibble x) (Hy : nibble y) (Hn : nibble n).
Hypothesis W : wf c.

(** X14: an opcode outside the instruction set does nothing, and never
    fails: 0nnn that is neither one of the extended patterns nor 00E0 nor
    00EE (a call of a machine-code routine on the original machine), 8xyn
    with n in 8..D or F, Exkk with kk other than 9E and A1, and Fxkk with
    kk outside the nine cases of the switch only advance pc and count the
    timers. *)
Theorem unknown_opcodes_are_ignored (t : Z) :
  fetchOpcode c = Ok (opcode_of t x y n) ->
  (t = 0 /\ y <> 0xC /\ ~ (y = 0xF /\ 0xB <= n)
   /\ ~ (x = 0 /\ y = 0xE /\ (n = 0 \/ n = 0xE)))
  \/ (t = 8 /\ 8 <= n /\ n <> 0xE)
  \/ (t = 0xE /\ 16 * y + n <> 0x9E /\ 16 * y + n <> 0xA1)
  \/ (t = 0xF
      /\ Forall (fun k => 16 * y + n <> k)
           [0x07; 0x0A; 0x15; 0x18; 0x1E; 0x29; 0x33; 0x55; 0x65]) ->
  emulateCycle env c = Ok (tick (skip c)).
Proof.
  intros Hfetch
    [(-> & HC & HF & HE)|[(-> & H8 & HE)|[(-> & H9 & HA)|(-> & HF)]]].
  - assert (N0 : nibble 0) by (unfold nibble; lia).
    rewrite (emulateCycle_not_extended env c 0 x y n N0 Hx Hy Hn Hfetch)
      by lia.
    unfold execute. rewrite (execute_top 0 x y n) by assumption.
    change (4096 * 0) with 0. cbv iota beta.
    rewrite zero_page_default;
      [reflexivity | unfold opcode_of, nibble in *; lia ..].
  - assert (N8 : nibble 8) by (unfold nibble; lia).
    run_standard Hfetch. unfold alu.
    rewrite (proj1 (execute_low 8 x y n N8 Hx Hy Hn)).
    rewrite alu_default by (unfold nibble in *; lia). reflexivity.
  - assert (NE : nibble 0xE) by (unfold nibble; lia).
    run_standard Hfetch. unfold key_skip.
    rewrite (proj2 (execute_low 0xE x y n NE Hx Hy Hn)).
    rewrite key_skip_default by assumption. reflexivity.
  - assert (NF : nibble 0xF) by (unfold nibble; lia).
    run_standard Hfetch. unfold misc.
    rewrite (proj2 (execute_low 0xF x y n NF Hx Hy Hn)).
    rewrite misc_default; [reflexivity|].
    repeat (apply list.Forall_cons in HF; destruct HF as [? HF]).
    cbv beta in *. tauto.
Qed.

(** X15: 00E0 clears the whole backing array of 128 x 64 cells, in either
    mode, and changes nothing else but pc and the timers. *)
Theorem clear_display :
  fetchOpcode c = Ok 0x00E0 ->
  exists c',
    emulateCycle env c = Ok c'
    /\ len (display c') = MAX_WIDTH * MAX_HEIGHT
    /\ (forall i, 0 <= i < MAX_WIDTH * MAX_HEIGHT ->
        display c' !!! Z.to_nat i = 0)
    /\ c' = tick (set_display (display c') (skip c)).
Proof.
  intros Hfetch.
  assert (N0 : nibble 0) by (unfold nibble; lia).
  assert (NE : nibble 0xE) by (unfold nibble; lia).
  change 0x00E0 with (opcode_of 0 0 0xE 0) in Hfetch.
  rewrite (emulateCycle_not_extended env c 0 0 0xE 0 N0 N0 NE N0 Hfetch)
    by lia.
  unfold execute. rewrite (execute_top 0 0 0xE 0) by assumption.
  change (4096 * 0) with 0. change (opcode_of 0 0 0xE 0) with 0x00E0.
  cbv iota beta. rewrite bind_Ok.
  set (z := zeroed (MAX_WIDTH * MAX_HEIGHT)).
  assert (D : display (tick (set_display z (skip c))) = z)
    by (rewrite tick_eq; reflexivity).
  assert (L : len z = MAX_WIDTH * MAX_HEIGHT)
    by (apply len_zeroed; vm_compute; discriminate).
  assert (Z0 : in_range 1 z) by (apply in_range_zeroed; lia).
  eexists. split; [reflexivity|]. rewrite D.
  split; [exact L|]. split; [|reflexivity].
  intros i Hi.
  pose proof (in_range_lookup_total 1 z (Z.to_nat i) Z0) as R.
  unfold len in L. specialize (R ltac:(lia)). lia.
Qed.

(** X16: 00FF enters extended mode (128 x 64, cyan on navy) and 00FE
    leaves it (64 x 32, white on black), whatever the second digit; both
    clear the display, so a switch loses the picture, and both keep the
    machine well formed. *)
Theorem mode_switch :
  (fetchOpcode c = Ok (opcode_of 0 x 0xF 0xF) ->
   exists c',
     emulateCycle env c = Ok c' /\ wf c' /\ in_range 1 (display c')
     /\ (extended_mode c', screen_width c', screen_height c')
        = (1, EXT_WIDTH, EXT_HEIGHT)
     /\ (fg c', bg c') = ((0, 255, 255), (0, 0, 128))
     /\ (memory c', V c', I c', stack c', sp c')
        = (memory c, V c, I c, stack c, sp c))
  /\ (fetchOpcode c = Ok (opcode_of 0 x 0xF 0xE) ->
      exists c',
        emulateCycle env c = Ok c' /\ wf c' /\ in_range 1 (display c')
        /\ (extended_mode c', screen_width c', screen_height c')
           = (0, NORMAL_WIDTH, NORMAL_HEIGHT)
        /\ (fg c', bg c') = ((255, 255, 255), (0, 0, 0))
        /\ (memory c', V c', I c', stack c', sp c')
           = (memory c, V c, I c, stack c, sp c)).
Proof.
  assert (NF : nibble 0xF) by (unfold nibble; lia).
  assert (NE : nibble 0xE) by (unfold nibble; lia).
  assert (N0 : nibble 0) by (unfold nibble; lia).
  set (z := zeroed (MAX_WIDTH * MAX_HEIGHT)).
  assert (L : len z = MAX_WIDTH * MAX_HEIGHT)
    by (apply len_zeroed; vm_compute; discriminate).
  assert (Z1 : in_range 1 z) by (apply in_range_zeroed; lia).
  assert (Z256 : in_range 256 z) by (apply in_range_zeroed; lia).
  pose proof (wf_skip c W) as Ws.
  split; intros Hfetch;
    [ rewrite (emulateCycle_dispatch env c 0 x 0xF 0xF N0 Hx NF NF Hfetch)
    | rewrite (emulateCycle_dispatch env c 0 x 0xF 0xE N0 Hx NF NE Hfetch) ];
    cbn [Z.eqb andb Pos.eqb]; fold z;
    (eexists; split; [reflexivity|]);
    (split; [|split; [exact Z1|repeat split]]);
    destruct Ws; constructor; simpl; try assumption;
    first [left; repeat split; reflexivity | right; repeat split; reflexivity].
Qed.

(** X17: the six extended instructions return before the timer update at
    the end of [emulateCycle]: a cycle that runs one of them leaves both
    timers as they were, also at a nonzero value. *)
Theorem extended_instructions_skip_timer_update (c' : Chip8) :
  fetchOpcode c = Ok (opcode_of 0 x y n) ->
  y = 0xC \/ (y = 0xF /\ 0xB <= n) ->
  emulateCycle env c = Ok c' ->
  delay_timer c' = delay_timer c /\ sound_timer c' = sound_timer c.
Proof.
  intros Hfetch Hext E.
  assert (N0 : nibble 0) by (unfold nibble; lia).
  rewrite (emulateCycle_dispatch env c 0 x y n N0 Hx Hy Hn Hfetch) in E.
  change (0 =? 0) with true in E. cbv beta iota in E. simpl andb in E.
  assert (Kd : forall o, (o = scroll_horizontal 1 (skip c)
                          \/ o = scroll_horizontal (-1) (skip c)
                          \/ o = scroll_down n (skip c)) ->
               o = Ok c' ->
               delay_timer c' = delay_timer c
               /\ sound_timer c' = sound_timer c).
  { intros o Ho Eo. split.
    - destruct Ho as [->| [->| ->]];
        [ apply (keeps_scroll_horizontal delay_timer ltac:(reflexivity)
                   (delay_timer c) 1 (skip c) eq_refl c' Eo)
        | apply (keeps_scroll_horizontal delay_timer ltac:(reflexivity)
                   (delay_timer c) (-1) (skip c) eq_refl c' Eo)
        | apply (keeps_scroll_down delay_timer ltac:(reflexivity)
                   (delay_timer c) n (skip c) eq_refl c' Eo) ].
    - destruct Ho as [->| [->| ->]];
        [ apply (keeps_scroll_horizontal sound_timer ltac:(reflexivity)
                   (sound_timer c) 1 (skip c) eq_refl c' Eo)
        | apply (keeps_scroll_horizontal sound_timer ltac:(reflexivity)
                   (sound_timer c) (-1) (skip c) eq_refl c' Eo)
        | apply (keeps_scroll_down sound_timer ltac:(reflexivity)
                   (sound_timer c) n (skip c) eq_refl c' Eo) ]. }
  unfold nibble in *.
  destruct (Z.eqb_spec y 0xF) as [Ey|Ey].
  - destruct (Z.eqb_spec n 0xB); [eapply Kd; [|exact E]; tauto|].
    destruct (Z.eqb_spec n 0xC); [eapply Kd; [|exact E]; tauto|].
    destruct (Z.eqb_spec n 0xD); [discriminate|].
    destruct (Z.eqb_spec n 0xE); [injection E as <-; split; reflexivity|].
    destruct (Z.eqb_spec n 0xF); [injection E as <-; split; reflexivity|].
    lia.
  - destruct (Z.eqb_spec y 0xC); [|lia].
    eapply Kd; [|exact E]; tauto.
Qed.
End ZeroPage.

(** * Memory instructions *)

Lemma memory_tick (c : Chip8) : memory (tick c) = memory c.
Proof. rewrite tick_eq. reflexivity. Qed.

Lemma byte_at_tick (c : Chip8) (a : Z) : byte_at (tick c) a = byte_at c a.
Proof. unfold byte_at. rewrite memory_tick. reflexivity. Qed.

(** The loop of Fx55 over the register numbers [l]. *)
Lemma store_registers_loop (l : list Z) : forall c : Chip8,
  len (memory c) = MEMORY_SIZE -> len (V c) = REGISTER_COUNT -> NoDup l ->
  (forall i, i ∈ l -> 0 <= i < 16 /\ 0 <= I c + i < MEMORY_SIZE) ->
  exists c',
    forM l (fun i c => let* vi := get_V i c in put_memory (I c + i) vi c) c
    = Ok c'
    /\ c' = set_memory (memory c') c
    /\ len (memory c') = MEMORY_SIZE
    /\ (forall i, i ∈ l -> byte_at c' (I c + i) = reg c i)
    /\ (forall a, 0 <= a -> (forall i, i ∈ l -> a <> I c + i) ->
        byte_at c' a = byte_at c a).
Proof.
  unfold MEMORY_SIZE, REGISTER_COUNT.
  induction l as [|i l IH]; intros c HM HV ND Hl.
  - exists c. split; [reflexivity|]. split; [destruct c; reflexivity|].
    split; [exact HM|]. split; [intros i Hi; inversion Hi|reflexivity].
  - apply list.NoDup_cons in ND as [Hi ND].
    destruct (Hl i ltac:(left)) as [Bi Ai].
    simpl forM. rewrite get_V_reg, bind_Ok by (unfold nibble; lia).
    unfold put_memory. rewrite store_total by (unfold len in HM; lia).
    rewrite !bind_Ok.
    set (c1 := set_memory (<[Z.to_nat (I c + i):=reg c i]> (memory c)) c).
    destruct (IH c1) as (c' & E & Ec' & L' & Hin & Hout).
    + unfold c1, len. simpl. rewrite length_insert. exact HM.
    + exact HV.
    + exact ND.
    + intros j Hj. apply Hl. right. exact Hj.
    + exists c'. split; [exact E|]. split; [rewrite Ec'; reflexivity|].
      split; [exact L'|]. change (I c1) with (I c) in *. split.
      * intros j Hj. apply elem_of_cons in Hj as [Ej|Hj].
        -- subst j.
           rewrite Hout; [| lia | intros k Hk Ek; assert (i = k) by lia;
                                  subst; contradiction].
           unfold byte_at, c1. simpl.
           apply list_lookup_total_insert_eq. unfold len in HM. lia.
        -- rewrite (Hin j Hj). reflexivity.
      * intros a Ha Hne. rewrite Hout.
        -- unfold byte_at, c1. simpl. apply list_lookup_total_insert_ne.
           specialize (Hne i ltac:(left)). lia.
        -- exact Ha.
        -- intros k Hk. apply Hne. right. exact Hk.
Qed.

(** The loop of Fx65 over the register numbers [l]. *)
Lemma load_registers_loop (l : list Z) : forall c : Chip8,
  len (memory c) = MEMORY_SIZE -> len (V c) = REGISTER_COUNT -> NoDup l ->
  (forall i, i ∈ l -> 0 <= i < 16 /\ 0 <= I c + i < MEMORY_SIZE) ->
  exists c',
    forM l (fun i c => let* b := load (memory c) (I c + i) in put_V i b c) c
    = Ok c'
    /\ c' = set_V (V c') c
    /\ len (V c') = REGISTER_COUNT
    /\ (forall i, i ∈ l -> reg c' i = byte_at c (I c + i))
    /\ (forall j, 0 <= j -> j ∉ l -> reg c' j = reg c j).
Proof.
  unfold MEMORY_SIZE, REGISTER_COUNT.
  induction l as [|i l IH]; intros c HM HV ND Hl.
  - exists c. split; [reflexivity|]. split; [destruct c; reflexivity|].
    split; [exact HV|]. split; [intros i Hi; inversion Hi|reflexivity].
  - apply list.NoDup_cons in ND as [Hi ND].
    destruct (Hl i ltac:(left)) as [Bi Ai].
    simpl forM. rewrite load_total by (unfold len in HM; lia).
    rewrite bind_Ok. fold (byte_at c (I c + i)).
    unfold put_V. rewrite store_total by (unfold len in HV; lia).
    rewrite !bind_Ok.
    set (c1 := set_V (<[Z.to_nat i:=byte_at c (I c + i)]> (V c)) c).
    destruct (IH c1) as (c' & E & Ec' & L' & Hin & Hout).
    + exact HM.
    + unfold c1, len. simpl. rewrite length_insert. exact HV.
    + exact ND.
    + intros j Hj. apply Hl. right. exact Hj.
    + exists c'. split; [exact E|]. split; [rewrite Ec'; reflexivity|].
      split; [exact L'|]. change (I c1) with (I c) in *.
      change (byte_at c1) with (byte_at c) in *. split.
      * intros j Hj. apply elem_of_cons in Hj as [Ej|Hj].
        -- subst j. rewrite Hout by (first [lia | exact Hi]).
           unfold reg, c1. simpl.
           apply list_lookup_total_insert_eq. unfold len in HV. lia.
        -- exact (Hin j Hj).
      * intros j Hj Hne. apply not_elem_of_cons in Hne as [Hji Hjl].
        rewrite Hout by assumption.
        unfold reg, c1. simpl. apply list_lookup_total_insert_ne. lia.
Qed.

Section Memory.
Variables (env : Env) (c : Chip8) (x : Z).
Hypothesis Hx : nibble x.
Hypothesis W : wf c.

(** X18: Fx55 copies V0..Vx to memory[I..I+x] and leaves every other
    byte, the registers and I as they are (I is not advanced); when the
    block does not fit below the end of memory the write is out of
    bounds. *)
Theorem store_registers :
  fetchOpcode c = Ok (opcode_of 0xF x 5 5) ->
  (I c + x < MEMORY_SIZE ->
   exists c',
     emulateCycle env c = Ok c'
     /\ (forall i, 0 <= i <= x -> byte_at c' (I c + i) = reg c i)
     /\ (forall a, 0 <= a -> ~ (I c <= a <= I c + x) ->
         byte_at c' a = byte_at c a)
     /\ V c' = V c /\ I c' = I c)
  /\ (MEMORY_SIZE <= I c -> emulateCycle env c = Fault).
Proof.
  intros Hfetch.
  pose proof (wf_V_size c W : len (V (skip c)) = 16) as HV.
  pose proof (wf_memory_size c W : len (memory (skip c)) = MEMORY_SIZE) as HM.
  pose proof (wf_I c W) as HI.
  assert (N5 : nibble 5) by (unfold nibble; lia).
  split.
  - intros Hfit.
    destruct (store_registers_loop (range 0 (x + 1)) (skip c) HM HV)
      as (c' & E & Ec' & L' & Hin & Hout).
    { apply NoDup_seqZ. }
    { intros i Hi. apply elem_of_seqZ in Hi. change (I (skip c)) with (I c).
      unfold nibble in *. lia. }
    exists (tick c'). split.
    { run_standard Hfetch. run_inner Hfetch. rewrite E, bind_Ok.
      reflexivity. }
    change (I (skip c)) with (I c) in *.
    pose proof (byte_at_tick c') as Hb.
    split; [|split; [|split]].
    + intros i Hi. rewrite Hb. rewrite Hin by (apply elem_of_seqZ; lia).
      reflexivity.
    + intros a Ha Hna. rewrite Hb. rewrite Hout; [reflexivity|exact Ha|].
      intros i Hi. apply elem_of_seqZ in Hi. lia.
    + rewrite V_tick, Ec'. reflexivity.
    + rewrite I_tick, Ec'. reflexivity.
  - intros Hout. run_standard Hfetch. run_inner Hfetch.
    unfold range. rewrite seqZ_cons by (unfold nibble in *; lia).
    simpl forM. rewrite get_V_reg, bind_Ok by (unfold nibble; lia).
    unfold put_memory, store. change (I (skip c)) with (I c).
    unfold len, MEMORY_SIZE in *.
    destruct (Z.ltb_spec (I c + 0) (Z.of_nat (length (memory (skip c)))));
      [lia|].
    rewrite andb_false_r. reflexivity.
Qed.

(** X19: Fx65 loads V0..Vx from memory[I..I+x] and leaves the registers
    above Vx, the memory and I as they are. *)
Theorem load_registers :
  fetchOpcode c = Ok (opcode_of 0xF x 6 5) ->
  I c + x < MEMORY_SIZE ->
  exists c',
    emulateCycle env c = Ok c'
    /\ (forall i, 0 <= i <= x -> reg c' i = byte_at c (I c + i))
    /\ (forall j, x < j -> reg c' j = reg c j)
    /\ memory c' = memory c /\ I c' = I c.
Proof.
  intros Hfetch Hfit.
  pose proof (wf_V_size c W : len (V (skip c)) = 16) as HV.
  pose proof (wf_memory_size c W : len (memory (skip c)) = MEMORY_SIZE) as HM.
  pose proof (wf_I c W) as HI.
  assert (N5 : nibble 5) by (unfold nibble; lia).
  assert (N6 : nibble 6) by (unfold nibble; lia).
  destruct (load_registers_loop (range 0 (x + 1)) (skip c) HM HV)
    as (c' & E & Ec' & L' & Hin & Hout).
  { apply NoDup_seqZ. }
  { intros i Hi. apply elem_of_seqZ in Hi. change (I (skip c)) with (I c).
    unfold nibble in *. lia. }
  exists (tick c'). split.
  { run_standard Hfetch. run_inner Hfetch. rewrite E, bind_Ok.
    reflexivity. }
  change (I (skip c)) with (I c) in *.
  change (byte_at (skip c)) with (byte_at c) in *.
  change (reg (skip c)) with (reg c) in *.
  split; [|split; [|split]].
  - intros i Hi. rewrite reg_tick. apply Hin. apply elem_of_seqZ. lia.
  - intros j Hj. rewrite reg_tick. apply Hout; [unfold nibble in *; lia|].
    intros Hin'. apply elem_of_seqZ in Hin'. lia.
  - rewrite memory_tick, Ec'. reflexivity.
  - rewrite I_tick, Ec'. reflexivity.
Qed.

(** X20: Fx33 writes the hundreds, tens and ones digit of Vx to
    memory[I], memory[I+1] and memory[I+2] and nothing else; with
    I + 2 outside memory a write is out of bounds. *)
Theorem bcd_digits :
  fetchOpcode c = Ok (opcode_of 0xF x 3 3) ->
  (I c + 2 < MEMORY_SIZE ->
   exists c',
     emulateCycle env c = Ok c'
     /\ 100 * byte_at c' (I c) + 10 * byte_at c' (I c + 1)
        + byte_at c' (I c + 2) = reg c x
     /\ 0 <= byte_at c' (I c) < 3
     /\ 0 <= byte_at c' (I c + 1) < 10
     /\ 0 <= byte_at c' (I c + 2) < 10
     /\ (forall a, 0 <= a -> ~ (I c <= a <= I c + 2) ->
         byte_at c' a = byte_at c a)
     /\ V c' = V c /\ I c' = I c)
  /\ (MEMORY_SIZE <= I c + 2 -> emulateCycle env c = Fault).
Proof.
  intros Hfetch.
  pose proof (wf_V_size c W : len (V (skip c)) = 16) as HV.
  pose proof (wf_memory_size c W) as HM.
  pose proof (wf_I c W) as HI.
  pose proof (wf_reg_byte c x W Hx) as Bx.
  assert (N3 : nibble 3) by (unfold nibble; lia).
  unfold MEMORY_SIZE, len in *.
  run_standard Hfetch. run_inner Hfetch.
  rewrite get_V_reg, bind_Ok by nibbles.
  change (reg (skip c) x) with (reg c x).
  rewrite !Z.quot_div_nonneg by lia.
  rewrite !Z.rem_mod_nonneg by (try apply Z.div_pos; lia).
  set (h := reg c x / 100). set (t := (reg c x / 10) mod 10).
  set (o := reg c x mod 10).
  assert (Hh : 0 <= h < 3).
  { unfold h. split; [apply Z.div_pos; lia|].
    apply Z.div_lt_upper_bound; lia. }
  assert (Ht : 0 <= t < 10) by (apply Z.mod_pos_bound; lia).
  assert (Ho : 0 <= o < 10) by (apply Z.mod_pos_bound; lia).
  assert (Hsum : 100 * h + 10 * t + o = reg c x).
  { unfold h, t, o.
    pose proof (Z.div_mod (reg c x) 10 ltac:(lia)).
    pose proof (Z.div_mod (reg c x / 10) 10 ltac:(lia)).
    rewrite Z.div_div in * by lia. change (10 * 10) with 100 in *. lia. }
  rewrite !wrap8_small by lia.
  unfold put_memory. change (I (skip c)) with (I c).
  change (memory (skip c)) with (memory c).
  split.
  - intros Hfit.
    rewrite store_total, !bind_Ok by lia. simpl memory. simpl I.
    rewrite store_total, !bind_Ok by (rewrite length_insert; lia).
    simpl memory. simpl I.
    rewrite store_total, !bind_Ok by (rewrite !length_insert; lia).
    eexists. split; [reflexivity|].
    rewrite !byte_at_tick, V_tick, I_tick. unfold byte_at.
    simpl memory. simpl V. simpl I.
    assert (E2 : forall m : list Z, Z.of_nat (length m) = 4096 ->
                 <[Z.to_nat (I c + 2):=o]> m !!! Z.to_nat (I c + 2) = o)
      by (intros m Hm; apply list_lookup_total_insert_eq; lia).
    assert (E1 : forall m : list Z, Z.of_nat (length m) = 4096 ->
                 <[Z.to_nat (I c + 1):=t]> m !!! Z.to_nat (I c + 1) = t)
      by (intros m Hm; apply list_lookup_total_insert_eq; lia).
    assert (E0 : forall m : list Z, Z.of_nat (length m) = 4096 ->
                 <[Z.to_nat (I c):=h]> m !!! Z.to_nat (I c) = h)
      by (intros m Hm; apply list_lookup_total_insert_eq; lia).
    rewrite E2 by (rewrite !length_insert; lia).
    rewrite (list_lookup_total_insert_ne _ (Z.to_nat (I c + 2))
               (Z.to_nat (I c + 1))) by lia.
    rewrite E1 by (rewrite !length_insert; lia).
    rewrite (list_lookup_total_insert_ne _ (Z.to_nat (I c + 2))
               (Z.to_nat (I c))) by lia.
    rewrite (list_lookup_total_insert_ne _ (Z.to_nat (I c + 1))
               (Z.to_nat (I c))) by lia.
    rewrite E0 by lia.
    repeat (split; [first [exact Hsum | lia | reflexivity]|]).
    split; [|split; reflexivity].
    intros a Ha Hna. rewrite memory_tick. simpl memory.
    rewrite !list_lookup_total_insert_ne by lia. reflexivity.
  - intros Hout. unfold store. simpl memory. simpl I.
    destruct (Z.ltb_spec (I c) (Z.of_nat (length (memory c))));
      [|rewrite andb_false_r; reflexivity].
    destruct (Z.leb_spec 0 (I c)); [|lia]. simpl andb. cbv iota.
    rewrite !bind_Ok. simpl memory. simpl I. rewrite length_insert.
    destruct (Z.ltb_spec (I c + 1) (Z.of_nat (length (memory c))));
      [|rewrite andb_false_r; reflexivity].
    destruct (Z.leb_spec 0 (I c + 1)); [|lia]. simpl andb. cbv iota.
    rewrite !bind_Ok. simpl memory. simpl I. rewrite !length_insert.
    destruct (Z.ltb_spec (I c + 2) (Z.of_nat (length (memory c))));
      [lia|]. rewrite andb_false_r. reflexivity.
Qed.

(** X21: Fx29 points I at 0x50 + 5 * Vx: in a machine whose font table is
    still where [initializeChip8] put it, that is the five-byte glyph of
    the digit in Vx. *)
Theorem font_glyph_address :
  fetchOpcode c = Ok (opcode_of 0xF x 2 9) ->
  (forall i, 0 <= i < 80 ->
   byte_at c (0x50 + i) = chip8_fontset !!! Z.to_nat i) ->
  reg c x < 16 ->
  exists c',
    emulateCycle env c = Ok c'
    /\ I c' = 0x50 + 5 * reg c x
    /\ (forall j, 0 <= j < 5 ->
        byte_at c' (I c' + j) = chip8_fontset !!! Z.to_nat (5 * reg c x + j)).
Proof.
  intros Hfetch Hfont Hdigit.
  pose proof (wf_V_size c W : len (V (skip c)) = 16) as HV.
  pose proof (wf_reg_byte c x W Hx) as Bx.
  assert (N2 : nibble 2) by (unfold nibble; lia).
  assert (N9 : nibble 9) by (unfold nibble; lia).
  eexists. split.
  { run_standard Hfetch. run_inner Hfetch.
    rewrite get_V_reg, !bind_Ok by nibbles. reflexivity. }
  rewrite I_tick. simpl I. change (reg (skip c) x) with (reg c x).
  unfold wrap16. rewrite Z.mod_small by lia.
  split; [lia|]. intros j Hj.
  rewrite byte_at_tick. unfold byte_at. simpl memory.
  replace (80 + reg c x * 5 + j) with (0x50 + (5 * reg c x + j)) by lia.
  apply Hfont. lia.
Qed.
End Memory.

(** * The keypad *)

(** X22: the sixteen mapped keys are sent one-to-one onto the key numbers
    0..15, and every other key to -1. *)
Theorem keypad_layout :
  (forall sym, sym <> SDLK_other -> 0 <= mapKey sym < 16)
  /\ (forall sym sym', mapKey sym = mapKey sym' -> sym = sym')
  /\ (forall k, 0 <= k < 16 -> exists sym, mapKey sym = k)
  /\ (forall sym, mapKey sym = -1 <-> sym = SDLK_other).
Proof.
  split; [exact mapKey_range|]. split; [|split].
  - intros sym sym' E. destruct sym, sym'; simpl in E;
      first [reflexivity | discriminate E].
  - intros k Hk.
    assert (C : k = 0 \/ k = 1 \/ k = 2 \/ k = 3 \/ k = 4 \/ k = 5 \/ k = 6
                \/ k = 7 \/ k = 8 \/ k = 9 \/ k = 10 \/ k = 11 \/ k = 12
                \/ k = 13 \/ k = 14 \/ k = 15) by lia.
    repeat (destruct C as [->|C]); [..|subst k];
      first [ exists SDLK_x; reflexivity | exists SDLK_1; reflexivity
            | exists SDLK_2; reflexivity | exists SDLK_3; reflexivity
            | exists SDLK_q; reflexivity | exists SDLK_w; reflexivity
            | exists SDLK_e; reflexivity | exists SDLK_a; reflexivity
            | exists SDLK_s; reflexivity | exists SDLK_d; reflexivity
            | exists SDLK_z; reflexivity | exists SDLK_c; reflexivity
            | exists SDLK_4; reflexivity | exists SDLK_r; reflexivity
            | exists SDLK_f; reflexivity | exists SDLK_v; reflexivity ].
  - intros sym. split; [|intros ->; reflexivity].
    destruct sym; simpl; intros E; first [reflexivity | discriminate E].
Qed.

Lemma mapKey_other (sym : SDL_Keycode) :
  (mapKey sym =? -1) = true -> sym = SDLK_other.
Proof. destruct sym; simpl; intros E; first [reflexivity | discriminate E]. Qed.

Lemma poll_key_mapped (x : Z) (sym : SDL_Keycode) (events : list SDL_Event)
  (pressed : bool) (c : Chip8) :
  (mapKey sym =? -1) = false ->
  poll_key x (SDL_KEYDOWN sym :: events) pressed c
  = let* v := store (V c) x (mapKey sym) in poll_key x events true (set_V v c).
Proof. destruct sym; simpl; intros E; first [reflexivity | discriminate E]. Qed.

Lemma poll_key_no_quit (x : Z) (events : list SDL_Event) :
  forall pressed c,
    nibble x -> len (V c) = 16 -> has_quit events = false ->
    poll_key x events pressed c
    = Ok (match last_key events with
          | Some sym => (true, with_reg x (mapKey sym) c)
          | None => (pressed, c)
          end).
Proof.
  induction events as [|e events IH]; intros pressed c Hx HV Hq.
  - reflexivity.
  - destruct e as [sym|sym| |]; simpl in Hq; try discriminate Hq;
      try (simpl; rewrite (IH pressed c Hx HV Hq);
           destruct (last_key events); reflexivity).
    destruct (mapKey sym =? -1) eqn:Em.
    + apply mapKey_other in Em. subst sym. simpl.
      rewrite (IH pressed c Hx HV Hq). destruct (last_key events); reflexivity.
    + rewrite (poll_key_mapped x sym events pressed c Em).
      rewrite store_total, bind_Ok by (unfold nibble, len in *; lia).
      rewrite IH; [|exact Hx| |exact Hq].
      * simpl last_key. rewrite Em.
        destruct (last_key events); [|reflexivity].
        unfold with_reg. simpl. rewrite list_insert_insert_eq. reflexivity.
      * unfold len. simpl. rewrite length_insert. exact HV.
Qed.

Lemma poll_key_quit (x : Z) (events : list SDL_Event) :
  forall pressed c,
    nibble x -> len (V c) = 16 -> has_quit events = true ->
    poll_key x events pressed c = Exit 0.
Proof.
  induction events as [|e events IH]; intros pressed c Hx HV Hq.
  - discriminate Hq.
  - destruct e as [sym|sym| |]; simpl in Hq;
      try reflexivity; try (simpl; apply IH; assumption).
    destruct (mapKey sym =? -1) eqn:Em.
    + apply mapKey_other in Em. subst sym. simpl. apply IH; assumption.
    + rewrite (poll_key_mapped x sym events pressed c Em).
      rewrite store_total, bind_Ok by (unfold nibble, len in *; lia).
      apply IH; [exact Hx| |exact Hq].
      unfold len. simpl. rewrite length_insert. exact HV.
Qed.

Lemma wait_key_idle (x : Z) (before rest : list (list SDL_Event)) (c : Chip8) :
  nibble x -> len (V c) = 16 -> Forall idle before ->
  wait_key x (before ++ rest) c = wait_key x rest c.
Proof.
  intros Hx HV Hq. induction Hq as [|events before [Hquit Hlast] _ IH].
  - reflexivity.
  - simpl. rewrite (poll_key_no_quit x events false c Hx HV Hquit), Hlast.
    rewrite bind_Ok. simpl. exact IH.
Qed.

Section KeyWait.
Variables (env : Env) (c : Chip8) (x : Z) (before : list (list SDL_Event)).
Hypothesis Hx : nibble x.
Hypothesis W : wf c.
Hypothesis Hfetch : fetchOpcode c = Ok (opcode_of 0xF x 0 0xA).
Hypothesis Hquiet : Forall idle before.

(** X23: Fx0A polls batch after batch of events until one holds a mapped
    key-down; the whole batch is read, so Vx receives the key of its last
    mapped key-down.  A window-close event in that batch or before ends
    the process with status 0, also after a key of the batch was taken;
    without a key the instruction does not complete. *)
Theorem key_wait :
  (forall events rest sym,
     polls env = before ++ events :: rest ->
     has_quit events = false -> last_key events = Some sym ->
     emulateCycle env c = Ok (tick (with_reg x (mapKey sym) (skip c))))
  /\ (forall events rest,
        polls env = before ++ events :: rest -> has_quit events = true ->
        emulateCycle env c = Exit 0)
  /\ (polls env = before -> emulateCycle env c = Pending).
Proof.
  pose proof (wf_V_size c W : len (V (skip c)) = 16) as HV.
  assert (N0 : nibble 0) by (unfold nibble; lia).
  assert (NA : nibble 0xA) by (unfold nibble; lia).
  assert (E : emulateCycle env c
              = let* c' := wait_key x (polls env) (skip c) in Ok (tick c')).
  { run_standard Hfetch. run_inner Hfetch. reflexivity. }
  rewrite E. split; [|split].
  - intros events rest sym -> Hq Hl.
    rewrite (wait_key_idle x before _ (skip c) Hx HV Hquiet). simpl.
    rewrite (poll_key_no_quit x events false (skip c) Hx HV Hq), Hl.
    reflexivity.
  - intros events rest -> Hq.
    rewrite (wait_key_idle x before _ (skip c) Hx HV Hquiet). simpl.
    rewrite (poll_key_quit x events false (skip c) Hx HV Hq). reflexivity.
  - intros ->. rewrite <- (app_nil_r before).
    rewrite (wait_key_idle x before [] (skip c) Hx HV Hquiet). reflexivity.
Qed.
End KeyWait.

(** * The event loop of main *)

(** The event loop at the head of a frame returns, changes only the key
    latches, and clears [running] when the batch holds a window-close
    event. *)
Lemma pump_returns (events : list SDL_Event) :
  forall (running : bool) (c : Chip8),
    len (keys c) = 16 ->
    exists c',
      pump events running c = Ok (running && negb (has_quit events), c')
      /\ c' = set_keys (keys c') c
      /\ len (keys c') = 16.
Proof.
  induction events as [|e events IH]; intros running c HK.
  - exists c. simpl. rewrite andb_true_r. split; [reflexivity|].
    split; [destruct c; reflexivity|exact HK].
  - assert (Hstep : forall sym v, (mapKey sym =? -1) = false ->
              exists c',
                (let* k := store (keys c) (mapKey sym) v in
                 pump events running (set_keys k c))
                = Ok (running && negb (has_quit events), c')
                /\ c' = set_keys (keys c') c
                /\ len (keys c') = 16).
    { intros sym v Em.
      assert (Hm : 0 <= mapKey sym < 16)
        by (apply mapKey_range; intros ->; discriminate Em).
      rewrite store_total, bind_Ok by (unfold len in HK; lia).
      destruct (IH running
                  (set_keys (<[Z.to_nat (mapKey sym):=v]> (keys c)) c))
        as (c' & E & Ec' & L').
      { unfold len. simpl. rewrite length_insert. exact HK. }
      exists c'. split; [exact E|].
      split; [rewrite Ec'; reflexivity|exact L']. }
    destruct e as [sym|sym| |]; simpl pump; simpl has_quit.
    + destruct (mapKey sym =? -1) eqn:Em; simpl negb; cbv iota;
        [apply (IH running c HK)|apply Hstep, Em].
    + destruct (mapKey sym =? -1) eqn:Em; simpl negb; cbv iota;
        [apply (IH running c HK)|apply Hstep, Em].
    + destruct (IH false c HK) as (c' & E & R).
      exists c'. rewrite andb_false_r. simpl in E. split; [exact E|exact R].
    + apply (IH running c HK).
Qed.

(** X24: the event loop at the head of a frame never fails on a machine
    with its 16 key latches; it changes only the latches, each according to
    the last event that concerns it, keeps them 0 or 1, and clears
    [running] exactly when the batch holds a window-close event, after
    which it still reads the rest of the batch. *)
Theorem pump_latches_keys (events : list SDL_Event) :
  forall (running : bool) (c : Chip8),
    len (keys c) = 16 ->
    exists c',
      pump events running c = Ok (running && negb (has_quit events), c')
      /\ c' = set_keys (keys c') c
      /\ len (keys c') = 16
      /\ (forall k, 0 <= k < 16 -> key c' k = key_after k events (key c k))
      /\ (in_range 2 (keys c) -> in_range 2 (keys c')).
Proof.
  induction events as [|e events IH]; intros running c HK.
  - exists c. simpl. rewrite andb_true_r. split; [reflexivity|].
    split; [destruct c; reflexivity|]. split; [exact HK|].
    split; [reflexivity|tauto].
  - assert (Hstep : forall sym v, sym <> SDLK_other -> 0 <= v < 2 ->
              exists c',
                (let* k := store (keys c) (mapKey sym) v in
                 pump events running (set_keys k c))
                = Ok (running && negb (has_quit events), c')
                /\ c' = set_keys (keys c') c
                /\ len (keys c') = 16
                /\ (forall k, 0 <= k < 16 ->
                    key c' k
                    = key_after k events
                        (if mapKey sym =? k then v else key c k))
                /\ (in_range 2 (keys c) -> in_range 2 (keys c'))).
    { intros sym v Hs Hv. pose proof (mapKey_range sym Hs) as Hm.
      rewrite store_total, bind_Ok by (unfold len in HK; lia).
      set (c1 := set_keys (<[Z.to_nat (mapKey sym):=v]> (keys c)) c).
      destruct (IH running c1) as (c' & E & Ec' & L' & Hk & Hr).
      { unfold c1, len. simpl. rewrite length_insert. exact HK. }
      exists c'. split; [exact E|]. split; [rewrite Ec'; reflexivity|].
      split; [exact L'|]. split.
      - intros k Hk'. rewrite (Hk k Hk'). f_equal. unfold key, c1. simpl.
        destruct (Z.eqb_spec (mapKey sym) k) as [->|Hne].
        + apply list_lookup_total_insert_eq. unfold len in HK. lia.
        + apply list_lookup_total_insert_ne. lia.
      - intros H2. apply Hr. unfold c1. simpl.
        apply Forall_insert; [exact H2|lia]. }
    destruct e as [sym|sym| |]; simpl pump; simpl has_quit; simpl key_after.
    + destruct (mapKey sym =? -1) eqn:Em.
      * apply Z.eqb_eq in Em. simpl negb. cbv iota.
        destruct (IH running c HK) as (c' & E & R).
        exists c'. split; [exact E|]. destruct R as (R1 & R2 & R3 & R4).
        repeat split; try assumption. intros k Hk. rewrite (R3 k Hk), Em.
        destruct (Z.eqb_spec (-1) k); [lia|reflexivity].
      * simpl negb. cbv iota.
        apply Hstep; [intros ->; discriminate Em|lia].
    + destruct (mapKey sym =? -1) eqn:Em.
      * apply Z.eqb_eq in Em. simpl negb. cbv iota.
        destruct (IH running c HK) as (c' & E & R).
        exists c'. split; [exact E|]. destruct R as (R1 & R2 & R3 & R4).
        repeat split; try assumption. intros k Hk. rewrite (R3 k Hk), Em.
        destruct (Z.eqb_spec (-1) k); [lia|reflexivity].
      * simpl negb. cbv iota.
        apply Hstep; [intros ->; discriminate Em|lia].
    + destruct (IH false c HK) as (c' & E & R).
      exists c'. rewrite andb_false_r. simpl in E. split; [exact E|exact R].
    + apply (IH running c HK).
Qed.

(** * Scrolling *)

(** A loop of in-place copies [display[dst i] = display[src i]]: when no
    later iteration reads or writes a cell written by an earlier one, every
    destination receives the value its source had before the loop. *)
Lemma copy_loop (dst src : Z -> Z) (l : list Z) : forall c : Chip8,
  (forall i, i ∈ l ->
   0 <= dst i < len (display c) /\ 0 <= src i < len (display c)) ->
  ForallOrdPairs (fun i j => dst j <> dst i /\ src j <> dst i) l ->
  exists c',
    forM l (fun i c => copy_cell (dst i) (src i) c) c = Ok c'
    /\ c' = set_display (display c') c
    /\ len (display c') = len (display c)
    /\ (forall i, i ∈ l ->
        display c' !!! Z.to_nat (dst i) = display c !!! Z.to_nat (src i))
    /\ (forall a, 0 <= a -> (forall i, i ∈ l -> a <> dst i) ->
        display c' !!! Z.to_nat a = display c !!! Z.to_nat a).
Proof.
  induction l as [|i l IH]; intros c Hb Hord.
  - exists c. split; [reflexivity|]. split; [destruct c; reflexivity|].
    split; [reflexivity|]. split; [intros i Hi; inversion Hi|reflexivity].
  - inversion Hord as [|? ? Hi Hl]; subst.
    destruct (Hb i ltac:(left)) as [Bd Bs]. unfold len in Bd, Bs.
    simpl forM. unfold copy_cell.
    rewrite load_total, bind_Ok by lia.
    rewrite store_total, !bind_Ok by lia.
    set (v := display c !!! Z.to_nat (src i)).
    set (c1 := set_display (<[Z.to_nat (dst i):=v]> (display c)) c).
    assert (L1 : len (display c1) = len (display c))
      by (unfold c1, len; simpl; rewrite length_insert; reflexivity).
    destruct (IH c1) as (c' & E & Ec' & L' & Hin & Hout).
    { intros j Hj. rewrite L1. apply Hb. right. exact Hj. }
    { exact Hl. }
    exists c'. split; [exact E|]. split; [rewrite Ec'; reflexivity|].
    split; [rewrite L', L1; reflexivity|].
    rewrite Forall_forall in Hi. split.
    + intros j Hj. apply elem_of_cons in Hj as [Ej|Hj].
      * subst j. rewrite Hout; [|lia|].
        -- unfold c1. simpl. apply list_lookup_total_insert_eq. lia.
        -- intros k Hk. apply list_elem_of_In in Hk.
           destruct (Hi k Hk) as [Hne _]. congruence.
      * rewrite (Hin j Hj). unfold c1. simpl.
        apply list_lookup_total_insert_ne.
        assert (Hj' := Hj). apply list_elem_of_In in Hj'.
        destruct (Hi j Hj') as [_ Hne].
        destruct (Hb j ltac:(right; exact Hj)) as [_ Bj]. lia.
    + intros a Ha Hne. rewrite Hout.
      * unfold c1. simpl. apply list_lookup_total_insert_ne.
        specialize (Hne i ltac:(left)). lia.
      * exact Ha.
      * intros k Hk. apply Hne. right. exact Hk.
Qed.

(** A loop of [display[dst i] = 0]. *)
Lemma clear_loop (dst : Z -> Z) (l : list Z) : forall c : Chip8,
  (forall i, i ∈ l -> 0 <= dst i < len (display c)) ->
  exists c',
    forM l (fun i c => clear_cell (dst i) c) c = Ok c'
    /\ c' = set_display (display c') c
    /\ len (display c') = len (display c)
    /\ (forall i, i ∈ l -> display c' !!! Z.to_nat (dst i) = 0)
    /\ (forall a, 0 <= a -> (forall i, i ∈ l -> a <> dst i) ->
        display c' !!! Z.to_nat a = display c !!! Z.to_nat a).
Proof.
  induction l as [|i l IH]; intros c Hb.
  - exists c. split; [reflexivity|]. split; [destruct c; reflexivity|].
    split; [reflexivity|]. split; [intros i Hi; inversion Hi|reflexivity].
  - pose proof (Hb i ltac:(left)) as Bd. unfold len in Bd.
    simpl forM. unfold clear_cell.
    rewrite store_total, !bind_Ok by lia.
    set (c1 := set_display (<[Z.to_nat (dst i):=0]> (display c)) c).
    assert (L1 : len (display c1) = len (display c))
      by (unfold c1, len; simpl; rewrite length_insert; reflexivity).
    destruct (IH c1) as (c' & E & Ec' & L' & Hin & Hout).
    { intros j Hj. rewrite L1. apply Hb. right. exact Hj. }
    exists c'. split; [exact E|]. split; [rewrite Ec'; reflexivity|].
    split; [rewrite L', L1; reflexivity|]. split.
    + intros j Hj.
      apply elem_of_cons in Hj as [Ej|Hj]; [subst j|exact (Hin j Hj)].
      destruct (decide (dst i ∈ dst <$> l)) as [Hm|Hm].
      * apply list_elem_of_fmap_1 in Hm as (k & Ek & Hk).
        rewrite Ek. exact (Hin k Hk).
      * rewrite Hout; [|lia|].
        -- unfold c1. simpl. apply list_lookup_total_insert_eq. lia.
        -- intros k Hk Ek. apply Hm. rewrite Ek.
           apply list_elem_of_fmap_2. exact Hk.
    + intros a Ha Hne. rewrite Hout.
      * unfold c1. simpl. apply list_lookup_total_insert_ne.
        specialize (Hne i ltac:(left)). lia.
      * exact Ha.
      * intros k Hk. apply Hne. right. exact Hk.
Qed.

Lemma ordered_seqZ (a m : Z) : ForallOrdPairs (fun i j => i < j) (seqZ a m).
Proof.
  destruct (Z.le_gt_cases m 0) as [Hm|Hm].
  - rewrite seqZ_nil by lia. constructor.
  - rewrite <- (Z2Nat.id m) by lia. clear Hm.
    generalize (Z.to_nat m) as k. intros k. revert a.
    induction k as [|k IH]; intros a.
    + simpl. constructor.
    + rewrite seqZ_cons by lia. constructor.
      * apply Forall_forall. intros j Hj. apply list_elem_of_In in Hj.
        apply elem_of_seqZ in Hj. lia.
      * replace (Z.pred (Z.of_nat (S k))) with (Z.of_nat k) by lia.
        apply IH.
Qed.

Lemma ordered_reverse_seqZ (a m : Z) :
  ForallOrdPairs (fun i j => j < i) (reverse (seqZ a m)).
Proof.
  destruct (Z.le_gt_cases m 0) as [Hm|Hm].
  - rewrite seqZ_nil by lia. constructor.
  - rewrite <- (Z2Nat.id m) by lia. clear Hm.
    generalize (Z.to_nat m) as k. intros k.
    induction k as [|k IH].
    + simpl. constructor.
    + rewrite seqZ_S, reverse_snoc. constructor; [|exact IH].
      apply Forall_forall. intros j Hj. apply list_elem_of_In in Hj.
      apply elem_of_reverse, elem_of_seqZ in Hj. lia.
Qed.

Lemma ordered_impl (R R' : Z -> Z -> Prop) (l : list Z) :
  (forall i j, R i j -> R' i j) -> ForallOrdPairs R l -> ForallOrdPairs R' l.
Proof.
  intros HR H. induction H as [|i l Hi Hl IH]; constructor; [|exact IH].
  rewrite Forall_forall in *. intros j Hj. apply HR, Hi, Hj.
Qed.

Lemma ordered_members (R : Z -> Z -> Prop) (l : list Z) :
  ForallOrdPairs R l ->
  ForallOrdPairs (fun i j => R i j /\ i ∈ l /\ j ∈ l) l.
Proof.
  intros H. induction H as [|i l Hi Hl IH]; constructor.
  - rewrite Forall_forall in *. intros j Hj.
    split; [exact (Hi j Hj)|]. split; [left|right].
    apply list_elem_of_In. exact Hj.
  - eapply ordered_impl; [|exact IH]. intros a b (HR & Ha & Hb).
    split; [exact HR|]. split; right; assumption.
Qed.

Lemma ordered_cons_inv (R : Z -> Z -> Prop) (i : Z) (l : list Z) :
  ForallOrdPairs R (i :: l) -> Forall (R i) l /\ ForallOrdPairs R l.
Proof. intros H. inversion H; subst. split; assumption. Qed.

(** Rows that are rewritten independently of each other: [body y] sets
    the cells of row [y] below column [w] to values that depend on that
    row alone, and touches nothing else. *)
Section IndependentRows.
Variables (w : Z) (body : Z -> Chip8 -> Outcome Chip8).
Variable val : list Z -> Z -> Z -> Z.
Hypothesis Hw : 0 <= w <= MAX_WIDTH.
Hypothesis Hbody : forall y c,
  0 <= y < MAX_HEIGHT -> len (display c) = MAX_WIDTH * MAX_HEIGHT ->
  screen_width c = w ->
  exists c',
    body y c = Ok c'
    /\ c' = set_display (display c') c
    /\ len (display c') = MAX_WIDTH * MAX_HEIGHT
    /\ (forall x, 0 <= x < w -> cell_at (display c') x y = val (display c) x y)
    /\ (forall a, 0 <= a -> ~ (y * MAX_WIDTH <= a < y * MAX_WIDTH + w) ->
        display c' !!! Z.to_nat a = display c !!! Z.to_nat a).
Hypothesis Hval : forall d d' x y,
  0 <= x < w ->
  (forall x', 0 <= x' < w -> cell_at d x' y = cell_at d' x' y) ->
  val d x y = val d' x y.

Lemma rows_loop (ys : list Z) : forall c : Chip8,
  NoDup ys -> (forall y, y ∈ ys -> 0 <= y < MAX_HEIGHT) ->
  len (display c) = MAX_WIDTH * MAX_HEIGHT -> screen_width c = w ->
  exists c',
    forM ys body c = Ok c'
    /\ c' = set_display (display c') c
    /\ len (display c') = MAX_WIDTH * MAX_HEIGHT
    /\ (forall x y, y ∈ ys -> 0 <= x < w ->
        cell_at (display c') x y = val (display c) x y)
    /\ (forall x y, 0 <= x < MAX_WIDTH -> 0 <= y -> ~ (y ∈ ys /\ x < w) ->
        cell_at (display c') x y = cell_at (display c) x y).
Proof.
  unfold MAX_WIDTH, MAX_HEIGHT, EXT_WIDTH, EXT_HEIGHT in *.
  induction ys as [|y ys IH]; intros c ND Hys HL HW.
  - exists c. split; [reflexivity|]. split; [destruct c; reflexivity|].
    split; [exact HL|]. split; [intros x y Hy; inversion Hy|reflexivity].
  - apply list.NoDup_cons in ND as [Hy ND].
    destruct (Hbody y c (Hys y ltac:(left)) HL HW)
      as (c1 & E1 & Ec1 & L1 & Hin1 & Hout1).
    simpl forM. rewrite E1, bind_Ok.
    destruct (IH c1 ND) as (c' & E & Ec' & L' & Hin & Hout).
    { intros y' Hy'. apply Hys. right. exact Hy'. }
    { exact L1. }
    { rewrite Ec1. exact HW. }
    exists c'. split; [exact E|].
    split; [rewrite Ec', Ec1; reflexivity|]. split; [exact L'|].
    pose proof (Hys y ltac:(left)) as By. split.
    + intros x y0 Hy0 Hx. apply elem_of_cons in Hy0 as [E0|Hy0].
      * subst y0. rewrite Hout by (first [lia | tauto]). apply Hin1, Hx.
      * rewrite (Hin x y0 Hy0 Hx). apply Hval; [exact Hx|]. intros x' Hx'.
        unfold cell_at, MAX_WIDTH, EXT_WIDTH. apply Hout1.
        -- pose proof (Hys y0 ltac:(right; exact Hy0)). lia.
        -- assert (y0 <> y) by congruence. lia.
    + intros x y0 Hx Hy0 Hno. rewrite Hout.
      * unfold cell_at, MAX_WIDTH, EXT_WIDTH. apply Hout1; [lia|].
        destruct (decide (y0 = y)) as [->|Hne].
        -- assert (~ x < w) by (intros ?; apply Hno; split; [left|]; auto).
           lia.
        -- lia.
      * exact Hx.
      * exact Hy0.
      * intros [Hm Hxw]. apply Hno. split; [right|]; assumption.
Qed.
End IndependentRows.

Section Rows.
Variable w : Z.
Hypothesis Hw : 4 <= w <= MAX_WIDTH.

(** One row of the scroll to the right. *)
Lemma row_right (y : Z) (c : Chip8) :
  0 <= y < MAX_HEIGHT -> len (display c) = MAX_WIDTH * MAX_HEIGHT ->
  screen_width c = w ->
  exists c',
    (let* c :=
       forM (reverse (range 4 (screen_width c))) (fun x c =>
         copy_cell (y * MAX_WIDTH + x) (y * MAX_WIDTH + (x - 4)) c) c in
     forM (range 0 4) (fun x c => clear_cell (y * MAX_WIDTH + x) c) c) = Ok c'
    /\ c' = set_display (display c') c
    /\ len (display c') = MAX_WIDTH * MAX_HEIGHT
    /\ (forall x, 0 <= x < w ->
        cell_at (display c') x y
        = if x <? 4 then 0 else cell_at (display c) (x - 4) y)
    /\ (forall a, 0 <= a -> ~ (y * MAX_WIDTH <= a < y * MAX_WIDTH + w) ->
        display c' !!! Z.to_nat a = display c !!! Z.to_nat a).
Proof.
  unfold MAX_WIDTH, MAX_HEIGHT, EXT_WIDTH, EXT_HEIGHT in *.
  intros Hy HL HW. rewrite HW.
  destruct (copy_loop (fun x => y * 128 + x) (fun x => y * 128 + (x - 4))
              (reverse (range 4 w)) c)
    as (c1 & E1 & Ec1 & L1 & Hin1 & Hout1).
  { intros x Hx. apply elem_of_reverse, elem_of_seqZ in Hx. lia. }
  { eapply ordered_impl; [|apply ordered_reverse_seqZ].
    cbv beta. intros i j Hij. lia. }
  rewrite E1, bind_Ok.
  destruct (clear_loop (fun x => y * 128 + x) (range 0 4) c1)
    as (c' & E & Ec' & L' & Hin & Hout).
  { intros x Hx. apply elem_of_seqZ in Hx. lia. }
  exists c'. split; [exact E|]. split; [rewrite Ec', Ec1; reflexivity|].
  split; [lia|]. unfold cell_at, MAX_WIDTH, EXT_WIDTH. split.
  - intros x Hx. destruct (Z.ltb_spec x 4).
    + apply (Hin x). apply elem_of_seqZ. lia.
    + rewrite Hout; [|lia|intros i Hi; apply elem_of_seqZ in Hi; lia].
      apply (Hin1 x). apply elem_of_reverse, elem_of_seqZ. lia.
  - intros a Ha Hna.
    rewrite Hout; [|lia|intros i Hi; apply elem_of_seqZ in Hi; lia].
    apply Hout1; [lia|].
    intros i Hi. apply elem_of_reverse, elem_of_seqZ in Hi. lia.
Qed.

(** One row of the scroll to the left. *)
Lemma row_left (y : Z) (c : Chip8) :
  0 <= y < MAX_HEIGHT -> len (display c) = MAX_WIDTH * MAX_HEIGHT ->
  screen_width c = w ->
  exists c',
    (let* c :=
       forM (range 0 (screen_width c - 4)) (fun x c =>
         copy_cell (y * MAX_WIDTH + x) (y * MAX_WIDTH + (x + 4)) c) c in
     forM (range (screen_width c - 4) (screen_width c)) (fun x c =>
       clear_cell (y * MAX_WIDTH + x) c) c) = Ok c'
    /\ c' = set_display (display c') c
    /\ len (display c') = MAX_WIDTH * MAX_HEIGHT
    /\ (forall x, 0 <= x < w ->
        cell_at (display c') x y
        = if x <? w - 4 then cell_at (display c) (x + 4) y else 0)
    /\ (forall a, 0 <= a -> ~ (y * MAX_WIDTH <= a < y * MAX_WIDTH + w) ->
        display c' !!! Z.to_nat a = display c !!! Z.to_nat a).
Proof.
  unfold MAX_WIDTH, MAX_HEIGHT, EXT_WIDTH, EXT_HEIGHT in *.
  intros Hy HL HW. rewrite HW.
  destruct (copy_loop (fun x => y * 128 + x) (fun x => y * 128 + (x + 4))
              (range 0 (w - 4)) c)
    as (c1 & E1 & Ec1 & L1 & Hin1 & Hout1).
  { intros x Hx. apply elem_of_seqZ in Hx. lia. }
  { eapply ordered_impl; [|apply ordered_seqZ].
    cbv beta. intros i j Hij. lia. }
  rewrite E1, bind_Ok.
  assert (HW1 : screen_width c1 = w) by (rewrite Ec1; exact HW).
  rewrite HW1.
  destruct (clear_loop (fun x => y * 128 + x) (range (w - 4) w) c1)
    as (c' & E & Ec' & L' & Hin & Hout).
  { intros x Hx. apply elem_of_seqZ in Hx. lia. }
  exists c'. split; [exact E|]. split; [rewrite Ec', Ec1; reflexivity|].
  split; [lia|]. unfold cell_at, MAX_WIDTH, EXT_WIDTH. split.
  - intros x Hx. destruct (Z.ltb_spec x (w - 4)).
    + rewrite Hout; [|lia|intros i Hi; apply elem_of_seqZ in Hi; lia].
      apply (Hin1 x). apply elem_of_seqZ. lia.
    + apply (Hin x). apply elem_of_seqZ. lia.
  - intros a Ha Hna.
    rewrite Hout; [|lia|intros i Hi; apply elem_of_seqZ in Hi; lia].
    apply Hout1; [lia|].
    intros i Hi. apply elem_of_seqZ in Hi. lia.
Qed.

(** One row of the second loop of [scroll_down]. *)
Lemma row_clear (y : Z) (c : Chip8) :
  0 <= y < MAX_HEIGHT -> len (display c) = MAX_WIDTH * MAX_HEIGHT ->
  screen_width c = w ->
  exists c',
    forM (range 0 (screen_width c)) (fun x c =>
      clear_cell (y * MAX_WIDTH + x) c) c = Ok c'
    /\ c' = set_display (display c') c
    /\ len (display c') = MAX_WIDTH * MAX_HEIGHT
    /\ (forall x, 0 <= x < w -> cell_at (display c') x y = 0)
    /\ (forall a, 0 <= a -> ~ (y * MAX_WIDTH <= a < y * MAX_WIDTH + w) ->
        display c' !!! Z.to_nat a = display c !!! Z.to_nat a).
Proof.
  unfold MAX_WIDTH, MAX_HEIGHT, EXT_WIDTH, EXT_HEIGHT in *.
  intros Hy HL HW. rewrite HW.
  destruct (clear_loop (fun x => y * 128 + x) (range 0 w) c)
    as (c' & E & Ec' & L' & Hin & Hout).
  { intros x Hx. apply elem_of_seqZ in Hx. lia. }
  exists c'. split; [exact E|]. split; [exact Ec'|].
  split; [lia|]. unfold cell_at, MAX_WIDTH, EXT_WIDTH. split.
  - intros x Hx. apply (Hin x). apply elem_of_seqZ. lia.
  - intros a Ha Hna. apply Hout; [lia|].
    intros i Hi. apply elem_of_seqZ in Hi. lia.
Qed.

(** One row of the first loop of [scroll_down]. *)
Lemma row_down (n y : Z) (c : Chip8) :
  0 <= n <= y -> y < MAX_HEIGHT ->
  len (display c) = MAX_WIDTH * MAX_HEIGHT -> screen_width c = w ->
  exists c',
    forM (range 0 (screen_width c)) (fun x c =>
      copy_cell (y * MAX_WIDTH + x) ((y - n) * MAX_WIDTH + x) c) c = Ok c'
    /\ c' = set_display (display c') c
    /\ len (display c') = MAX_WIDTH * MAX_HEIGHT
    /\ (forall x, 0 <= x < w ->
        cell_at (display c') x y = cell_at (display c) x (y - n))
    /\ (forall a, 0 <= a -> ~ (y * MAX_WIDTH <= a < y * MAX_WIDTH + w) ->
        display c' !!! Z.to_nat a = display c !!! Z.to_nat a).
Proof.
  unfold MAX_WIDTH, MAX_HEIGHT, EXT_WIDTH, EXT_HEIGHT in *.
  intros Hn Hy HL HW. rewrite HW.
  destruct (copy_loop (fun x => y * 128 + x) (fun x => (y - n) * 128 + x)
              (range 0 w) c)
    as (c' & E & Ec' & L' & Hin & Hout).
  { intros x Hx. apply elem_of_seqZ in Hx. nia. }
  { eapply ordered_impl; [|apply ordered_members, ordered_seqZ].
    cbv beta. intros i j (Hij & Hi & Hj).
    apply elem_of_seqZ in Hi, Hj. nia. }
  exists c'. split; [exact E|]. split; [exact Ec'|].
  split; [lia|]. unfold cell_at, MAX_WIDTH, EXT_WIDTH. split.
  - intros x Hx. apply (Hin x). apply elem_of_seqZ. lia.
  - intros a Ha Hna. apply Hout; [lia|].
    intros i Hi. apply elem_of_seqZ in Hi. lia.
Qed.

(** The first loop of [scroll_down] over rows taken from the bottom up:
    every row copied was not yet written when it is read. *)
Lemma rows_down (n : Z) (ys : list Z) : forall c : Chip8,
  0 <= n ->
  ForallOrdPairs (fun y y' => y' < y) ys ->
  (forall y, y ∈ ys -> n <= y < MAX_HEIGHT) ->
  len (display c) = MAX_WIDTH * MAX_HEIGHT -> screen_width c = w ->
  exists c',
    forM ys (fun y c =>
      forM (range 0 (screen_width c)) (fun x c =>
        copy_cell (y * MAX_WIDTH + x) ((y - n) * MAX_WIDTH + x) c) c) c
    = Ok c'
    /\ c' = set_display (display c') c
    /\ len (display c') = MAX_WIDTH * MAX_HEIGHT
    /\ (forall x y, y ∈ ys -> 0 <= x < w ->
        cell_at (display c') x y = cell_at (display c) x (y - n))
    /\ (forall x y, 0 <= x < MAX_WIDTH -> 0 <= y -> ~ (y ∈ ys /\ x < w) ->
        cell_at (display c') x y = cell_at (display c) x y).
Proof.
  pose proof (row_down n) as RD.
  induction ys as [|y ys IH]; intros c Hn Hord Hys HL HW.
  - exists c. split; [reflexivity|]. split; [destruct c; reflexivity|].
    split; [exact HL|]. split; [intros x y Hy; inversion Hy|reflexivity].
  - apply ordered_cons_inv in Hord as [Hlt Hord'].
    rewrite Forall_forall in Hlt.
    pose proof (Hys y ltac:(left)) as By.
    destruct (RD y c ltac:(lia) ltac:(lia) HL HW)
      as (c1 & E1 & Ec1 & L1 & Hin1 & Hout1).
    simpl forM. rewrite E1, bind_Ok.
    destruct (IH c1 Hn Hord') as (c' & E & Ec' & L' & Hin & Hout).
    { intros y' Hy'. apply Hys. right. exact Hy'. }
    { exact L1. }
    { rewrite Ec1. exact HW. }
    exists c'. split; [exact E|].
    split; [rewrite Ec', Ec1; reflexivity|]. split; [exact L'|].
    assert (Hbelow : forall y', y' ∈ ys -> y' < y)
      by (intros y' Hy'; apply Hlt, list_elem_of_In, Hy').
    unfold MAX_WIDTH, MAX_HEIGHT, EXT_WIDTH, EXT_HEIGHT in *. split.
    + intros x y0 Hy0 Hx. apply elem_of_cons in Hy0 as [E0|Hy0].
      * subst y0. rewrite Hout; [apply Hin1, Hx|lia|lia|].
        intros [Hm _]. specialize (Hbelow y Hm). lia.
      * rewrite (Hin x y0 Hy0 Hx).
        unfold cell_at, MAX_WIDTH, EXT_WIDTH. apply Hout1.
        -- pose proof (Hys y0 ltac:(right; exact Hy0)). lia.
        -- specialize (Hbelow y0 Hy0).
           pose proof (Hys y0 ltac:(right; exact Hy0)). lia.
    + intros x y0 Hx Hy0 Hno. rewrite Hout.
      * unfold cell_at, MAX_WIDTH, EXT_WIDTH. apply Hout1; [lia|].
        destruct (decide (y0 = y)) as [->|Hne].
        -- assert (~ x < w) by (intros ?; apply Hno; split; [left|]; auto).
           lia.
        -- lia.
      * exact Hx.
      * exact Hy0.
      * intros [Hm Hxw]. apply Hno. split; [right|]; assumption.
Qed.
End Rows.

Lemma screen_cases (c : Chip8) :
  wf c ->
  len (display c) = MAX_WIDTH * MAX_HEIGHT
  /\ 4 <= screen_width c <= MAX_WIDTH
  /\ 32 <= screen_height c <= MAX_HEIGHT.
Proof.
  intros W. split; [apply (wf_display_size c W)|].
  destruct (wf_mode c W) as [(_ & -> & ->)|(_ & -> & ->)];
    vm_compute; repeat split; discriminate.
Qed.

Lemma scroll_right_cells (c : Chip8) :
  wf c ->
  exists c',
    scroll_horizontal 1 c = Ok c'
    /\ c' = set_display (display c') c
    /\ forall x y, 0 <= x < MAX_WIDTH -> 0 <= y < MAX_HEIGHT ->
       cell_at (display c') x y
       = if (x <? screen_width c) && (y <? screen_height c)
         then if x <? 4 then 0 else cell_at (display c) (x - 4) y
         else cell_at (display c) x y.
Proof.
  intros W. destruct (screen_cases c W) as (HL & Hw & Hh).
  destruct (rows_loop (screen_width c)
              (fun y c =>
                 let* c :=
                   forM (reverse (range 4 (screen_width c))) (fun x c =>
                     copy_cell (y * MAX_WIDTH + x)
                       (y * MAX_WIDTH + (x - 4)) c) c in
                 forM (range 0 4) (fun x c =>
                   clear_cell (y * MAX_WIDTH + x) c) c)
              (fun d x y => if x <? 4 then 0 else cell_at d (x - 4) y)
              ltac:(lia) (row_right (screen_width c) Hw)) with
    (ys := range 0 (screen_height c)) (c := c)
    as (c' & E & Ec' & L' & Hin & Hout).
  { intros d d' x y Hx Hd. cbv beta.
    destruct (Z.ltb_spec x 4); [reflexivity|]. apply Hd. lia. }
  { apply NoDup_seqZ. }
  { intros y Hy. apply elem_of_seqZ in Hy. lia. }
  { exact HL. }
  { reflexivity. }
  exists c'. split; [exact E|]. split; [exact Ec'|].
  intros x y Hx Hy.
  destruct (Z.ltb_spec x (screen_width c)), (Z.ltb_spec y (screen_height c));
    simpl andb; cbv iota;
    first [ apply Hin; [apply elem_of_seqZ|]; lia
          | apply Hout; [lia|lia|];
            intros [Hm ?]; apply elem_of_seqZ in Hm; lia ].
Qed.

Lemma scroll_left_cells (c : Chip8) :
  wf c ->
  exists c',
    scroll_horizontal (-1) c = Ok c'
    /\ c' = set_display (display c') c
    /\ forall x y, 0 <= x < MAX_WIDTH -> 0 <= y < MAX_HEIGHT ->
       cell_at (display c') x y
       = if (x <? screen_width c) && (y <? screen_height c)
         then if x <? screen_width c - 4
              then cell_at (display c) (x + 4) y else 0
         else cell_at (display c) x y.
Proof.
  intros W. destruct (screen_cases c W) as (HL & Hw & Hh).
  destruct (rows_loop (screen_width c)
              (fun y c0 =>
                 let* c1 :=
                   forM (range 0 (screen_width c0 - 4)) (fun x c =>
                     copy_cell (y * MAX_WIDTH + x)
                       (y * MAX_WIDTH + (x + 4)) c) c0 in
                 forM (range (screen_width c1 - 4) (screen_width c1))
                   (fun x c => clear_cell (y * MAX_WIDTH + x) c) c1)
              (fun d x y =>
                 if x <? screen_width c - 4 then cell_at d (x + 4) y else 0)
              ltac:(lia) (row_left (screen_width c) Hw)) with
    (ys := range 0 (screen_height c)) (c := c)
    as (c' & E & Ec' & L' & Hin & Hout).
  { intros d d' x y Hx Hd. cbv beta.
    destruct (Z.ltb_spec x (screen_width c - 4)); [|reflexivity].
    apply Hd. lia. }
  { apply NoDup_seqZ. }
  { intros y Hy. apply elem_of_seqZ in Hy. lia. }
  { exact HL. }
  { reflexivity. }
  exists c'. split; [exact E|]. split; [exact Ec'|].
  intros x y Hx Hy.
  destruct (Z.ltb_spec x (screen_width c)), (Z.ltb_spec y (screen_height c));
    simpl andb; cbv iota;
    first [ apply Hin; [apply elem_of_seqZ|]; lia
          | apply Hout; [lia|lia|];
            intros [Hm ?]; apply elem_of_seqZ in Hm; lia ].
Qed.

Lemma scroll_down_cells (n : Z) (c : Chip8) :
  wf c -> nibble n ->
  exists c',
    scroll_down n c = Ok c'
    /\ c' = set_display (display c') c
    /\ forall x y, 0 <= x < MAX_WIDTH -> 0 <= y < MAX_HEIGHT ->
       cell_at (display c') x y
       = if (x <? screen_width c) && (y <? screen_height c)
         then if y <? n then 0 else cell_at (display c) x (y - n)
         else cell_at (display c) x y.
Proof.
  intros W Hn. destruct (screen_cases c W) as (HL & Hw & Hh).
  unfold nibble in Hn.
  destruct (rows_down (screen_width c) Hw n
              (reverse (range n (screen_height c))) c)
    as (c1 & E1 & Ec1 & L1 & Hin1 & Hout1).
  { lia. }
  { apply ordered_reverse_seqZ. }
  { intros y Hy. apply elem_of_reverse, elem_of_seqZ in Hy. lia. }
  { exact HL. }
  { reflexivity. }
  assert (HW1 : screen_width c1 = screen_width c) by (rewrite Ec1; reflexivity).
  destruct (rows_loop (screen_width c)
              (fun y c =>
                 forM (range 0 (screen_width c)) (fun x c =>
                   clear_cell (y * MAX_WIDTH + x) c) c)
              (fun d x y => 0)
              ltac:(lia) (row_clear (screen_width c) Hw)) with
    (ys := range 0 n) (c := c1)
    as (c' & E & Ec' & L' & Hin & Hout).
  { reflexivity. }
  { apply NoDup_seqZ. }
  { intros y Hy. apply elem_of_seqZ in Hy. unfold MAX_HEIGHT, EXT_HEIGHT. lia. }
  { exact L1. }
  { exact HW1. }
  exists c'. split.
  { unfold scroll_down. rewrite E1, bind_Ok. exact E. }
  split; [rewrite Ec', Ec1; reflexivity|].
  intros x y Hx Hy.
  destruct (Z.ltb_spec x (screen_width c)), (Z.ltb_spec y (screen_height c));
    simpl andb; cbv iota.
  - destruct (Z.ltb_spec y n).
    + apply Hin; [apply elem_of_seqZ|]; lia.
    + rewrite Hout;
        [|lia|lia|intros [Hm ?]; apply elem_of_seqZ in Hm; lia].
      apply Hin1; [apply elem_of_reverse, elem_of_seqZ|]; lia.
  - rewrite Hout; [|lia|lia|intros [Hm ?]; apply elem_of_seqZ in Hm; lia].
    apply Hout1; [lia|lia|].
    intros [Hm ?]. apply elem_of_reverse, elem_of_seqZ in Hm. lia.
  - rewrite Hout; [|lia|lia|intros [Hm ?]; lia].
    apply Hout1; [lia|lia|]. intros [Hm ?]. lia.
  - rewrite Hout; [|lia|lia|intros [Hm ?]; lia].
    apply Hout1; [lia|lia|]. intros [Hm ?]. lia.
Qed.

Section Scroll.
Variables (env : Env) (c : Chip8) (x n : Z).
Hypotheses (Hx : nibble x) (Hn : nibble n).
Hypothesis W : wf c.

(** X25: 00FB moves every row of the logical screen four cells to the
    right and 00FC four cells to the left, in place and without losing a
    cell to the copy order; the four columns that open up are cleared, and
    the cells of the backing array outside the logical screen are not
    touched (in normal mode the scroll is by four cells as well). *)
Theorem scroll_sideways :
  (fetchOpcode c = Ok (opcode_of 0 x 0xF 0xB) ->
   exists c',
     emulateCycle env c = Ok c'
     /\ c' = set_display (display c') (skip c)
     /\ forall col row, 0 <= col < MAX_WIDTH -> 0 <= row < MAX_HEIGHT ->
        cell_at (display c') col row
        = if (col <? screen_width c) && (row <? screen_height c)
          then if col <? 4 then 0 else cell_at (display c) (col - 4) row
          else cell_at (display c) col row)
  /\ (fetchOpcode c = Ok (opcode_of 0 x 0xF 0xC) ->
      exists c',
        emulateCycle env c = Ok c'
        /\ c' = set_display (display c') (skip c)
        /\ forall col row, 0 <= col < MAX_WIDTH -> 0 <= row < MAX_HEIGHT ->
           cell_at (display c') col row
           = if (col <? screen_width c) && (row <? screen_height c)
             then if col <? screen_width c - 4
                  then cell_at (display c) (col + 4) row else 0
             else cell_at (display c) col row).
Proof.
  assert (NF : nibble 0xF) by (unfold nibble; lia).
  assert (NB : nibble 0xB) by (unfold nibble; lia).
  assert (NC : nibble 0xC) by (unfold nibble; lia).
  assert (N0 : nibble 0) by (unfold nibble; lia).
  pose proof (wf_skip c W) as Ws.
  split; intros Hfetch.
  - rewrite (emulateCycle_dispatch env c 0 x 0xF 0xB N0 Hx NF NB Hfetch).
    cbn [Z.eqb andb Pos.eqb]. exact (scroll_right_cells (skip c) Ws).
  - rewrite (emulateCycle_dispatch env c 0 x 0xF 0xC N0 Hx NF NC Hfetch).
    cbn [Z.eqb andb Pos.eqb]. exact (scroll_left_cells (skip c) Ws).
Qed.

(** X26: 00Cn moves every row of the logical screen down by n rows, from
    the bottom row up so that no row is read after it was written, clears
    the n rows at the top and leaves the rest of the backing array alone;
    00C0 copies every cell onto itself. *)
Theorem scroll_down_rows :
  fetchOpcode c = Ok (opcode_of 0 x 0xC n) ->
  exists c',
    emulateCycle env c = Ok c'
    /\ c' = set_display (display c') (skip c)
    /\ forall col row, 0 <= col < MAX_WIDTH -> 0 <= row < MAX_HEIGHT ->
       cell_at (display c') col row
       = if (col <? screen_width c) && (row <? screen_height c)
         then if row <? n then 0 else cell_at (display c) col (row - n)
         else cell_at (display c) col row.
Proof.
  intros Hfetch.
  assert (NC : nibble 0xC) by (unfold nibble; lia).
  assert (N0 : nibble 0) by (unfold nibble; lia).
  pose proof (wf_skip c W) as Ws.
  rewrite (emulateCycle_dispatch env c 0 x 0xC n N0 Hx NC Hn Hfetch).
  cbn [Z.eqb andb Pos.eqb]. exact (scroll_down_cells n (skip c) Ws Hn).
Qed.
End Scroll.

(** * Fetching *)

Lemma lor_shifted_byte (hi lo : Z) :
  0 <= hi -> 0 <= lo < 256 -> Z.lor (Z.shiftl hi 8) lo = 256 * hi + lo.
Proof.
  intros Hhi Hlo.
  assert (D : Z.land (Z.shiftl hi 8) lo = 0).
  { apply Z.bits_inj'. intros m Hm. rewrite Z.land_spec, Z.bits_0.
    destruct (Z.lt_ge_cases m 8).
    - rewrite Z.shiftl_spec_low by lia. reflexivity.
    - destruct (Z.eq_dec lo 0) as [->|Hz];
        [rewrite Z.bits_0; apply andb_false_r|].
      rewrite (Z.bits_above_log2 lo m), andb_false_r; [reflexivity|lia|].
      pose proof (byte_log2 lo Hlo). lia. }
  rewrite <- Z.lxor_lor by exact D.
  rewrite <- Z.add_nocarry_lxor by exact D.
  rewrite Z.shiftl_mul_pow2 by lia. change (2 ^ 8) with 256. lia.
Qed.

(** X27: an opcode is the big-endian pair of bytes at pc and pc + 1; with
    pc at the last byte of memory or beyond, the fetch reads outside
    [memory] (pc is not checked), whatever the instruction. *)
Theorem fetch_is_big_endian (env : Env) (c : Chip8) :
  wf c ->
  (pc c + 1 < MEMORY_SIZE ->
   fetchOpcode c = Ok (256 * byte_at c (pc c) + byte_at c (pc c + 1)))
  /\ (MEMORY_SIZE <= pc c + 1 ->
      fetchOpcode c = Fault /\ emulateCycle env c = Fault).
Proof.
  intros W. pose proof (wf_memory_size c W) as HM.
  pose proof (wf_pc c W) as Hpc.
  pose proof (wf_memory c W) as Hb.
  unfold MEMORY_SIZE, len in *. split.
  - intros Hfit. unfold fetchOpcode.
    rewrite !load_total, !bind_Ok by lia. fold (byte_at c (pc c)).
    fold (byte_at c (pc c + 1)).
    assert (B0 : 0 <= byte_at c (pc c) < 256)
      by (apply in_range_lookup_total; [exact Hb|lia]).
    assert (B1 : 0 <= byte_at c (pc c + 1) < 256)
      by (apply in_range_lookup_total; [exact Hb|lia]).
    rewrite lor_shifted_byte by lia.
    unfold wrap16. rewrite Z.mod_small by lia. reflexivity.
  - intros Hout.
    assert (F : fetchOpcode c = Fault).
    { unfold fetchOpcode, load.
      destruct (Z.leb_spec 0 (pc c)); [|lia].
      destruct (Z.leb_spec 0 (pc c + 1)); [|lia].
      rewrite (lookup_ge_None_2 (memory c) (Z.to_nat (pc c + 1))) by lia.
      destruct (memory c !! Z.to_nat (pc c)); reflexivity. }
    split; [exact F|]. unfold emulateCycle. rewrite F. reflexivity.
Qed.

(** * main *)

(** X28: [main] returns 1 without having run a cycle when it has no ROM
    argument, when the ROM cannot be opened or is longer than
    4096 - 0x200 bytes, and when one of the three SDL set-up calls fails;
    otherwise it enters the main loop with the machine that
    [initializeChip8] and [loadROM] built. *)
Theorem main_set_up (argc : Z) (rom : option (list Z)) (host : Host)
  (frames : list Frame) :
  (argc < 2 \/ rom = None
   \/ (exists bytes,
         rom = Some bytes /\ MEMORY_SIZE - START_ADDRESS < len bytes)
   \/ sdl_init_ok host = false \/ window_ok host = false
   \/ renderer_ok host = false ->
   main argc rom host frames = (Ok 1, 0%nat))
  /\ (forall bytes,
        2 <= argc -> rom = Some bytes ->
        len bytes <= MEMORY_SIZE - START_ADDRESS ->
        sdl_init_ok host = true -> window_ok host = true ->
        renderer_ok host = true ->
        main argc rom host frames = main_loop frames (boot bytes) 0%nat).
Proof.
  unfold main. split.
  - intros H. destruct (Z.ltb_spec argc 2); [reflexivity|].
    destruct H as [H|H]; [lia|].
    destruct rom as [bytes|]; [|reflexivity].
    rewrite loadROM_file.
    destruct (Z.gtb_spec (len bytes) (MEMORY_SIZE - START_ADDRESS));
      [reflexivity|].
    destruct H as [H|H]; [discriminate H|].
    destruct H as [(b & [= <-] & Hb)|H]; [lia|].
    change (1 =? 0) with false. cbv iota.
    destruct (sdl_init_ok host); [|reflexivity].
    destruct (window_ok host); [|reflexivity].
    destruct (renderer_ok host); [|reflexivity].
    destruct H as [H|[H|H]]; discriminate H.
  - intros bytes Hargc -> Hlen H1 H2 H3.
    destruct (Z.ltb_spec argc 2); [lia|].
    unfold boot. rewrite loadROM_file.
    destruct (Z.gtb_spec (len bytes) (MEMORY_SIZE - START_ADDRESS)); [lia|].
    change (1 =? 0) with false. rewrite H1, H2, H3. reflexivity.
Qed.

(** X29: a frame whose events hold a window-close event still runs its
    cycle, on the machine with the key latches of the whole batch; the
    loop ends after that cycle, with status 0 when the cycle returns, and
    no later frame is looked at. *)
Theorem quit_frame_runs_one_more_cycle (f : Frame) (frames : list Frame)
  (c : Chip8) (n : nat) :
  len (keys c) = 16 ->
  has_quit (frame_events f) = true ->
  exists c1,
    pump (frame_events f) true c = Ok (false, c1)
    /\ c1 = set_keys (keys c1) c
    /\ main_loop (f :: frames) c n
       = (match emulateCycle (frame_env f) c1 with
          | Ok _ => Ok 0
          | Exit code => Exit code
          | Fault => Fault
          | Pending => Pending
          end, S n).
Proof.
  intros HK Hq.
  destruct (pump_returns (frame_events f) true c HK) as (c1 & E & Ec1 & _).
  rewrite Hq in E. simpl in E.
  exists c1. split; [exact E|]. split; [exact Ec1|].
  simpl main_loop. rewrite E.
  destruct (emulateCycle (frame_env f) c1); reflexivity.
Qed.

(** * Rendering *)

Lemma draw_row (c : Chip8) (fr fg0 fb y : Z) (xs : list Z) :
  fg c = (fr, fg0, fb) ->
  (forall x, x ∈ xs -> 0 <= y * MAX_WIDTH + x < len (display c)) ->
  forall calls,
    forM xs (fun x calls =>
      let* v := load (display c) (y * MAX_WIDTH + x) in
      if negb (v =? 0) then
        Ok (calls ++
              [SDL_SetRenderDrawColor fr fg0 fb 255;
               SDL_RenderFillRect (x * WINDOW_SCALE) (y * WINDOW_SCALE)
                 WINDOW_SCALE WINDOW_SCALE])
      else Ok calls) calls
    = Ok (calls ++ row_calls c xs y).
Proof.
  intros Hfg. induction xs as [|x xs IH]; intros Hb calls.
  - unfold row_calls. simpl. rewrite app_nil_r. reflexivity.
  - simpl forM. rewrite load_total, bind_Ok
      by (apply (Hb x); left).
    fold (cell_at (display c) x y).
    unfold row_calls at 1. rewrite bind_cons. fold (row_calls c xs y).
    rewrite Hfg. simpl fst. simpl snd.
    destruct (negb (cell_at (display c) x y =? 0)); rewrite bind_Ok;
      rewrite IH by (intros x' Hx'; apply Hb; right; exact Hx').
    + rewrite <- app_assoc. reflexivity.
    + reflexivity.
Qed.

Lemma draw_rows (c : Chip8) (fr fg0 fb : Z) (xs ys : list Z) :
  fg c = (fr, fg0, fb) ->
  (forall x y, x ∈ xs -> y ∈ ys ->
   0 <= y * MAX_WIDTH + x < len (display c)) ->
  forall calls,
    forM ys (fun y calls =>
      forM xs (fun x calls =>
        let* v := load (display c) (y * MAX_WIDTH + x) in
        if negb (v =? 0) then
          Ok (calls ++
                [SDL_SetRenderDrawColor fr fg0 fb 255;
                 SDL_RenderFillRect (x * WINDOW_SCALE) (y * WINDOW_SCALE)
                   WINDOW_SCALE WINDOW_SCALE])
        else Ok calls) calls) calls
    = Ok (calls ++ screen_calls c xs ys).
Proof.
  intros Hfg. induction ys as [|y ys IH]; intros Hb calls.
  - unfold screen_calls. simpl. rewrite app_nil_r. reflexivity.
  - simpl forM.
    rewrite (draw_row c fr fg0 fb y xs Hfg)
      by (intros x Hx; apply Hb; [exact Hx|left]).
    rewrite bind_Ok.
    rewrite IH by (intros x y' Hx Hy'; apply Hb; [exact Hx|right; exact Hy']).
    unfold screen_calls. rewrite bind_cons, app_assoc. reflexivity.
Qed.

Lemma fill_in_row (c : Chip8) (xs : list Z) (y x0 y0 : Z) :
  SDL_RenderFillRect (x0 * WINDOW_SCALE) (y0 * WINDOW_SCALE)
    WINDOW_SCALE WINDOW_SCALE ∈ row_calls c xs y
  <-> y0 = y /\ x0 ∈ xs /\ cell_at (display c) x0 y <> 0.
Proof.
  unfold row_calls, WINDOW_SCALE. rewrite list_elem_of_bind. split.
  - intros (x & Hin & Hx).
    destruct (Z.eqb_spec (cell_at (display c) x y) 0) as [E|E]; simpl in Hin.
    + inversion Hin.
    + apply elem_of_cons in Hin as [Hin|Hin]; [discriminate Hin|].
      apply list_elem_of_singleton in Hin. injection Hin as Ex Ey.
      assert (x0 = x) by lia. assert (y0 = y) by lia. subst. auto.
  - intros (-> & Hx & Hlit). exists x0. split; [|exact Hx].
    destruct (Z.eqb_spec (cell_at (display c) x0 y) 0) as [E|E];
      [contradiction|]. simpl. right. left.
Qed.

(** X30: [drawGraphics] clears the window to the background colour, then
    fills one square of 10 x 10 pixels, in the foreground colour, for
    exactly the nonzero cells of the logical screen (any nonzero value
    counts as lit, cells of the backing array outside the logical screen
    are never shown), row by row, and presents the frame; it never reads
    outside [display]. *)
Theorem frame_shows_lit_cells (c : Chip8) :
  wf c ->
  exists squares,
    drawGraphics c
    = Ok ([SDL_SetRenderDrawColor (bg c).1.1 (bg c).1.2 (bg c).2 255;
           SDL_RenderClear] ++ squares ++ [SDL_RenderPresent])
    /\ squares
       = screen_calls c (range 0 (screen_width c)) (range 0 (screen_height c))
    /\ (forall x y,
          SDL_RenderFillRect (x * WINDOW_SCALE) (y * WINDOW_SCALE)
            WINDOW_SCALE WINDOW_SCALE ∈ squares
          <-> (0 <= x < screen_width c /\ 0 <= y < screen_height c)
              /\ cell_at (display c) x y <> 0)
    /\ (forall call, call ∈ squares ->
          call = SDL_SetRenderDrawColor (fg c).1.1 (fg c).1.2 (fg c).2 255
          \/ exists x y,
               call = SDL_RenderFillRect (x * WINDOW_SCALE) (y * WINDOW_SCALE)
                        WINDOW_SCALE WINDOW_SCALE).
Proof.
  intros W. destruct (screen_cases c W) as (HL & Hw & Hh).
  eexists. split; [|split; [reflexivity|split]].
  - unfold drawGraphics.
    destruct (bg c) as [[br bg0] bb]. destruct (fg c) as [[fr fg0] fb] eqn:Hfg.
    rewrite (draw_rows c fr fg0 fb _ _ Hfg).
    + rewrite bind_Ok, <- app_assoc. reflexivity.
    + intros x y Hx Hy. apply elem_of_seqZ in Hx, Hy.
      unfold MAX_WIDTH, MAX_HEIGHT, EXT_WIDTH, EXT_HEIGHT in *. lia.
  - intros x y. unfold screen_calls. rewrite list_elem_of_bind. split.
    + intros (y' & Hin & Hy'). apply fill_in_row in Hin as (-> & Hx & Hlit).
      apply elem_of_seqZ in Hx, Hy'. split; [lia|exact Hlit].
    + intros ([Hx Hy] & Hlit). exists y. split.
      * apply fill_in_row. split; [reflexivity|].
        split; [apply elem_of_seqZ; lia|exact Hlit].
      * apply elem_of_seqZ. lia.
  - intros call. unfold screen_calls, row_calls.
    rewrite list_elem_of_bind. intros (y & Hin & _).
    apply list_elem_of_bind in Hin as (x & Hin & _).
    destruct (negb (cell_at (display c) x y =? 0)); [|inversion Hin].
    apply elem_of_cons in Hin as [->|Hin]; [left; reflexivity|].
    apply list_elem_of_singleton in Hin. right. exists x, y. exact Hin.
Qed.

(** * The theorems on concrete machines *)

Ltac by_computation := vm_compute; reflexivity.
Ltac digit := unfold nibble; lia.

Lemma skip_on_registers_witness :
  wf example_skip
  /\ fetchOpcode example_skip = Ok (opcode_of 5 1 2 3)
  /\ emulateCycle quiet example_skip
     = Ok (tick (if reg example_skip 1 =? reg example_skip 2
                 then skip (skip example_skip) else skip example_skip)).
Proof.
  assert (W : wf example_skip) by (apply wfb_sound; by_computation).
  assert (F : fetchOpcode example_skip = Ok (opcode_of 5 1 2 3))
    by by_computation.
  split; [exact W|]. split; [exact F|].
  apply (proj1 (skip_on_registers_ignores_last_digit quiet example_skip 1 2 3
                  ltac:(digit) ltac:(digit) ltac:(digit) W)).
  exact F.
Defined.

Lemma shifts_witness :
  wf example_shr
  /\ fetchOpcode example_shr = Ok (opcode_of 8 3 4 6)
  /\ emulateCycle quiet example_shr
     = Ok (tick (with_reg 3 0x42 (with_reg 0xF 1 (skip example_shr)))).
Proof.
  assert (W : wf example_shr) by (apply wfb_sound; by_computation).
  assert (F : fetchOpcode example_shr = Ok (opcode_of 8 3 4 6))
    by by_computation.
  split; [exact W|]. split; [exact F|].
  exact (proj1 (shifts_ignore_Vy quiet example_shr 3 4
                  ltac:(digit) ltac:(digit) W) F).
Defined.

Lemma add_to_I_witness :
  wf example_add_I
  /\ fetchOpcode example_add_I = Ok (opcode_of 0xF 0 1 0xE)
  /\ exists c', emulateCycle quiet example_add_I = Ok c'
       /\ I c' = (I example_add_I + reg example_add_I 0) mod 65536.
Proof.
  assert (W : wf example_add_I) by (apply wfb_sound; by_computation).
  assert (F : fetchOpcode example_add_I = Ok (opcode_of 0xF 0 1 0xE))
    by by_computation.
  split; [exact W|]. split; [exact F|].
  destruct (add_to_I_wraps_at_16_bits quiet example_add_I 0 ltac:(digit) W F)
    as (c' & E & HI & _).
  exists c'. split; [exact E|exact HI].
Defined.

(** C3 as stated fails: with I = 0xFFFF and V0 = 1 the sum is 0x10000 and
    F01E leaves I = 0. *)
Lemma add_to_I_literal_sum_fails :
  wf example_add_I
  /\ fetchOpcode example_add_I = Ok (opcode_of 0xF 0 1 0xE)
  /\ I example_add_I + reg example_add_I 0 = 65536
  /\ exists c', emulateCycle quiet example_add_I = Ok c' /\ I c' = 0.
Proof.
  split; [apply wfb_sound; by_computation|].
  split; [by_computation|]. split; [by_computation|].
  eexists. split; by_computation.
Qed.

Lemma extended_dispatch_witness :
  fetchOpcode (example_scroll 3) = Ok (opcode_of 0 3 0xF 0xB)
  /\ emulateCycle quiet (example_scroll 3)
     = scroll_horizontal 1 (skip (example_scroll 3)).
Proof.
  assert (F : fetchOpcode (example_scroll 3) = Ok (opcode_of 0 3 0xF 0xB))
    by by_computation.
  split; [exact F|].
  exact (proj1 (extended_dispatch_ignores_second_digit quiet
                  (example_scroll 3) 0 3 0xF 0xB ltac:(digit) ltac:(digit)
                  ltac:(digit) ltac:(digit) F) eq_refl eq_refl eq_refl).
Defined.

(** C4 as stated fails: 01FB is not the pattern 00FB, and the cycle on it
    is the scroll to the right (the set cell moves from column 0 to
    column 4, and the timer update is skipped). *)
Lemma scroll_on_01FB :
  wf (example_scroll 1)
  /\ fetchOpcode (example_scroll 1) = Ok 0x01FB
  /\ 0x01FB <> 0x00FB
  /\ emulateCycle quiet (example_scroll 1)
     = scroll_horizontal 1 (skip (example_scroll 1))
  /\ exists c',
       emulateCycle quiet (example_scroll 1) = Ok c'
       /\ display (example_scroll 1) !! 0%nat = Some 1
       /\ display (example_scroll 1) !! 4%nat = Some 0
       /\ display c' !! 0%nat = Some 0
       /\ display c' !! 4%nat = Some 1.
Proof.
  split; [apply wfb_sound; by_computation|].
  split; [by_computation|]. split; [discriminate|].
  split; [by_computation|].
  eexists. split; [by_computation|]. repeat split; by_computation.
Qed.

Lemma call_then_return_witness :
  wf example_call
  /\ fetchOpcode example_call = Ok (opcode_of 2 2 0 8)
  /\ sp example_call < STACK_SIZE
  /\ exists c1 c2,
       emulateCycle quiet example_call = Ok c1
       /\ emulateCycle quiet c1 = Ok c2
       /\ pc c2 = pc example_call + 2 /\ sp c2 = sp example_call.
Proof.
  assert (W : wf example_call) by (apply wfb_sound; by_computation).
  assert (F : fetchOpcode example_call = Ok (opcode_of 2 2 0 8))
    by by_computation.
  assert (S : sp example_call < STACK_SIZE) by by_computation.
  split; [exact W|]. split; [exact F|]. split; [exact S|].
  destruct (call_then_return quiet quiet example_call 2 0 8
              ltac:(digit) ltac:(digit) ltac:(digit) W F S)
    as (c1 & E1 & Hpc & Hsp & Hslot & Hret).
  destruct (Hret c1 eq_refl Hslot) as (c2 & E2 & Hpc2 & Hsp2).
  - unfold fetchOpcode. rewrite Hpc.
    injection (eq_trans (eq_sym E1)
                 (eq_refl : emulateCycle quiet example_call = _)) as ->.
    by_computation.
  - exists c1, c2. auto.
Defined.

Lemma timers_witness :
  let c' := tick (with_reg 0 0x0A (skip example_timer)) in
  wf example_timer
  /\ fetchOpcode example_timer = Ok (opcode_of 6 0 0 0xA)
  /\ emulateCycle quiet example_timer = Ok c'
  /\ delay_timer (tick example_timer) = 2
  /\ delay_timer c' <= delay_timer example_timer
  /\ sound_timer c' <= sound_timer example_timer.
Proof.
  intros c'.
  assert (W : wf example_timer) by (apply wfb_sound; by_computation).
  assert (F : fetchOpcode example_timer = Ok (opcode_of 6 0 0 0xA))
    by by_computation.
  assert (E : emulateCycle quiet example_timer = Ok c') by by_computation.
  destruct (timers_only_count_down quiet example_timer c' _ W F E)
    as (Hd & _ & _ & _ & Hdelay & Hsound).
  split; [exact W|]. split; [exact F|]. split; [exact E|].
  split; [exact Hd|].
  split; [apply Hdelay|apply Hsound];
    intros x Hx; unfold opcode_of, nibble in *; lia.
Defined.

Lemma load_program_witness :
  let c := initializeChip8 chip8_static in
  len (memory c) = MEMORY_SIZE
  /\ fst (loadROM c (Some [0x12; 0x00])) = 1
  /\ memory (snd (loadROM c (Some [0x12; 0x00])))
       !! Z.to_nat (START_ADDRESS + 0) = Some 0x12
  /\ main 2 None (mkHost true true true) [] = (Ok 1, 0%nat).
Proof.
  intros c.
  assert (M : len (memory c) = MEMORY_SIZE) by by_computation.
  destruct (load_program c (Some [0x12; 0x00]) M) as (_ & _ & Hok & _).
  destruct (Hok [0x12; 0x00] eq_refl ltac:(vm_compute; discriminate))
    as (H1 & _ & _ & Hin & _).
  destruct (load_program c None M) as (_ & _ & _ & Hmain).
  split; [exact M|]. split; [exact H1|].
  split; [exact (Hin 0 ltac:(vm_compute; split; [discriminate|reflexivity]))|].
  apply Hmain. reflexivity.
Defined.

Lemma draw_witness :
  wf example_draw
  /\ fetchOpcode example_draw = Ok (opcode_of 0xD 0 1 5)
  /\ I example_draw + sprite_bytes example_draw 5 <= MEMORY_SIZE
  /\ exists c',
       emulateCycle quiet example_draw = Ok c'
       /\ display c'
          = fst (xor_cells (targets example_draw 0 1 5)
                   (display example_draw))
       /\ reg c' 0xF
          = Z.b2z (snd (xor_cells (targets example_draw 0 1 5)
                          (display example_draw))).
Proof.
  assert (W : wf example_draw) by (apply wfb_sound; by_computation).
  assert (F : fetchOpcode example_draw = Ok (opcode_of 0xD 0 1 5))
    by by_computation.
  assert (B : I example_draw + sprite_bytes example_draw 5 <= MEMORY_SIZE)
    by (vm_compute; discriminate).
  split; [exact W|]. split; [exact F|]. split; [exact B|].
  destruct (draw_xors_sprite quiet example_draw 0 1 5 W
              ltac:(digit) ltac:(digit) ltac:(digit)
              ltac:(discriminate) ltac:(discriminate) F B)
    as (c' & E & Hd & Hf & _).
  exists c'. split; [exact E|]. split; [exact Hd|exact Hf].
Defined.

(** C1 as stated fails when x is F: VF is reset before the coordinates
    are read, so DF01 with VF = 5 XORs the cells 0..3 of the top row, not
    the cells 5..8 that (Vx + col) designates. *)
Lemma draw_with_VF_operand :
  wf example_draw_VF
  /\ fetchOpcode example_draw_VF = Ok (opcode_of 0xD 0xF 0 1)
  /\ I example_draw_VF + sprite_bytes example_draw_VF 1 <= MEMORY_SIZE
  /\ reg example_draw_VF 0xF = 5
  /\ targets example_draw_VF 0xF 0 1 = [5; 6; 7; 8]
  /\ exists c',
       emulateCycle quiet example_draw_VF = Ok c'
       /\ display c' !! 0%nat = Some 1
       /\ display c' !! 5%nat = Some 0
       /\ fst (xor_cells (targets example_draw_VF 0xF 0 1)
                 (display example_draw_VF)) !! 0%nat = Some 0
       /\ fst (xor_cells (targets example_draw_VF 0xF 0 1)
                 (display example_draw_VF)) !! 5%nat = Some 1.
Proof.
  split; [apply wfb_sound; by_computation|].
  split; [by_computation|].
  split; [vm_compute; discriminate|].
  split; [by_computation|]. split; [by_computation|].
  eexists. split; [by_computation|]. repeat split; by_computation.
Qed.

Lemma double_draw_witness :
  wf example_draw
  /\ fetchOpcode example_draw = Ok (opcode_of 0xD 0 1 5)
  /\ fetchOpcode (skip example_draw) = Ok (opcode_of 0xD 0 1 5)
  /\ I example_draw + sprite_bytes example_draw 5 <= MEMORY_SIZE
  /\ exists c1 c2,
       emulateCycle quiet example_draw = Ok c1
       /\ emulateCycle quiet c1 = Ok c2
       /\ display c2 = display example_draw.
Proof.
  assert (W : wf example_draw) by (apply wfb_sound; by_computation).
  assert (F : fetchOpcode example_draw = Ok (opcode_of 0xD 0 1 5))
    by by_computation.
  assert (F' : fetchOpcode (skip example_draw) = Ok (opcode_of 0xD 0 1 5))
    by by_computation.
  assert (B : I example_draw + sprite_bytes example_draw 5 <= MEMORY_SIZE)
    by (vm_compute; discriminate).
  split; [exact W|]. split; [exact F|]. split; [exact F'|]. split; [exact B|].
  destruct (double_draw_restores quiet quiet example_draw 0 1 5 W
              ltac:(digit) ltac:(digit) ltac:(digit)
              ltac:(discriminate) ltac:(discriminate) F F' B)
    as (c1 & c2 & E1 & E2 & _ & Hd & _).
  exists c1, c2. auto.
Defined.

(** C5 as stated fails when x is F: DF01 twice on a clear display with
    VF = V0 = 0 and the sprite row 0xC0.  The first draw sets the cells
    0 and 1 without collision, so I, Vx, Vy, the mode and the memory are
    the same for the second draw; the second draw clears cell 0, sets VF,
    and then sets cell 2: the display is not the one before the draws. *)
Lemma double_draw_with_VF_operand :
  wf example_double_VF
  /\ fetchOpcode example_double_VF = Ok (opcode_of 0xD 0xF 0 1)
  /\ I example_double_VF + sprite_bytes example_double_VF 1 <= MEMORY_SIZE
  /\ exists c1 c2,
       emulateCycle quiet example_double_VF = Ok c1
       /\ fetchOpcode c1 = Ok (opcode_of 0xD 0xF 0 1)
       /\ emulateCycle quiet c1 = Ok c2
       /\ I c1 = I example_double_VF
       /\ reg c1 0xF = reg example_double_VF 0xF
       /\ reg c1 0 = reg example_double_VF 0
       /\ memory c1 = memory example_double_VF
       /\ extended_mode c1 = extended_mode example_double_VF
       /\ display example_double_VF !! 2%nat = Some 0
       /\ display c2 !! 2%nat = Some 1.
Proof.
  split; [apply wfb_sound; by_computation|].
  split; [by_computation|].
  split; [vm_compute; discriminate|].
  eexists. eexists. split; [by_computation|].
  split; [by_computation|]. split; [by_computation|].
  repeat split; by_computation.
Qed.

(** C2 at equal operands: the programs 6007 6107 8015 and 6007 6107 8017
    subtract 7 from 7 without borrow, and the third cycle leaves V0 = 0
    and VF = 0. *)
Lemma sub_equal_operands_clears_flag :
  (exists c2 c3,
     run 2 quiet example_sub = Ok c2
     /\ fetchOpcode c2 = Ok (opcode_of 8 0 1 5)
     /\ reg c2 0 = 7 /\ reg c2 1 = 7
     /\ emulateCycle quiet c2 = Ok c3
     /\ reg c3 0 = 0 /\ reg c3 0xF = 0)
  /\ (exists c2 c3,
        run 2 quiet example_subn = Ok c2
        /\ fetchOpcode c2 = Ok (opcode_of 8 0 1 7)
        /\ reg c2 0 = 7 /\ reg c2 1 = 7
        /\ emulateCycle quiet c2 = Ok c3
        /\ reg c3 0 = 0 /\ reg c3 0xF = 0).
Proof.
  split; eexists; eexists; (split; [by_computation|]);
    repeat split; by_computation.
Qed.

(** * The further theorems on concrete machines *)

Lemma cycle_keeps_well_formed_witness :
  let c' := tick (with_reg 0xA 0x2B (skip example_load_imm)) in
  wf example_load_imm
  /\ emulateCycle quiet example_load_imm = Ok c'
  /\ wf c'.
Proof.
  intros c'.
  assert (W : wf example_load_imm) by (apply wfb_sound; by_computation).
  assert (E : emulateCycle quiet example_load_imm = Ok c') by by_computation.
  split; [exact W|]. split; [exact E|].
  exact (cycle_keeps_well_formed quiet example_load_imm c' W E).
Defined.

Lemma cycle_keeps_cells_binary_witness :
  let c' := tick (with_reg 0xF 0 (skip example_draw_none)) in
  wf example_draw_none
  /\ in_range 2 (display example_draw_none)
  /\ emulateCycle quiet example_draw_none = Ok c'
  /\ in_range 2 (display c').
Proof.
  intros c'.
  assert (W : wf example_draw_none) by (apply wfb_sound; by_computation).
  assert (B : in_range 2 (display example_draw_none))
    by (apply in_rangeb_sound; by_computation).
  assert (E : emulateCycle quiet example_draw_none = Ok c') by by_computation.
  split; [exact W|]. split; [exact B|]. split; [exact E|].
  exact (cycle_keeps_cells_binary quiet example_draw_none c' W B E).
Defined.


Lemma reachable_machines_are_sound_witness :
  let c := tick (with_reg 0xA 0x2B (skip (boot [0x6A; 0x2B]))) in
  in_range 256 [0x6A; 0x2B]
  /\ len [0x6A; 0x2B] <= MEMORY_SIZE - START_ADDRESS
  /\ run_envs [quiet] (boot [0x6A; 0x2B]) = Ok c
  /\ wf c /\ in_range 2 (display c).
Proof.
  intros c.
  assert (B : in_range 256 [0x6A; 0x2B])
    by (apply in_rangeb_sound; by_computation).
  assert (L : len [0x6A; 0x2B] <= MEMORY_SIZE - START_ADDRESS)
    by (vm_compute; discriminate).
  assert (E : run_envs [quiet] (boot [0x6A; 0x2B]) = Ok c) by by_computation.
  split; [exact B|]. split; [exact L|]. split; [exact E|].
  exact (reachable_machines_are_sound [0x6A; 0x2B] [quiet] c B L E).
Defined.

Lemma add_with_carry_witness :
  wf example_add
  /\ fetchOpcode example_add = Ok (opcode_of 8 0 1 4)
  /\ emulateCycle quiet example_add
     = Ok (tick
             (with_reg 0 ((reg example_add 0 + reg example_add 1) mod 256)
                (with_reg 0xF
                   (if reg example_add 0 + reg example_add 1 >? 255
                    then 1 else 0)
                   (skip example_add)))).
Proof.
  assert (W : wf example_add) by (apply wfb_sound; by_computation).
  assert (F : fetchOpcode example_add = Ok (opcode_of 8 0 1 4))
    by by_computation.
  split; [exact W|]. split; [exact F|].
  exact (add_with_carry quiet example_add 0 1 ltac:(digit) ltac:(digit) W F).
Defined.

Lemma immediate_operand_instructions_witness :
  wf example_load_imm
  /\ fetchOpcode example_load_imm = Ok (opcode_of 6 0xA 2 0xB)
  /\ emulateCycle quiet example_load_imm
     = Ok (tick (with_reg 0xA (16 * 2 + 0xB) (skip example_load_imm)))
  /\ wf example_jump_V0
  /\ fetchOpcode example_jump_V0 = Ok (opcode_of 0xB 0xF 0xF 0xF)
  /\ emulateCycle quiet example_jump_V0
     = Ok (tick (set_pc (256 * 0xF + 16 * 0xF + 0xF + reg example_jump_V0 0)
                   (skip example_jump_V0))).
Proof.
  assert (W : wf example_load_imm) by (apply wfb_sound; by_computation).
  assert (F : fetchOpcode example_load_imm = Ok (opcode_of 6 0xA 2 0xB))
    by by_computation.
  assert (W' : wf example_jump_V0) by (apply wfb_sound; by_computation).
  assert (F' : fetchOpcode example_jump_V0 = Ok (opcode_of 0xB 0xF 0xF 0xF))
    by by_computation.
  split; [exact W|]. split; [exact F|].
  split; [exact (proj1 (immediate_operand_instructions quiet example_load_imm
                          0xA 2 0xB ltac:(digit) ltac:(digit) ltac:(digit) W)
                   F)|].
  split; [exact W'|]. split; [exact F'|].
  exact (proj2 (proj2 (proj2 (proj2
           (immediate_operand_instructions quiet example_jump_V0 0xF 0xF 0xF
              ltac:(digit) ltac:(digit) ltac:(digit) W')))) F').
Defined.

Lemma bitwise_operations_witness :
  wf example_or
  /\ fetchOpcode example_or = Ok (opcode_of 8 0 1 1)
  /\ emulateCycle quiet example_or
     = Ok (tick (with_reg 0 (Z.lor (reg example_or 0) (reg example_or 1))
                   (skip example_or))).
Proof.
  assert (W : wf example_or) by (apply wfb_sound; by_computation).
  assert (F : fetchOpcode example_or = Ok (opcode_of 8 0 1 1))
    by by_computation.
  split; [exact W|]. split; [exact F|].
  exact (proj1 (proj2 (bitwise_operations quiet example_or 0 1
                         ltac:(digit) ltac:(digit) W)) F).
Defined.

Lemma skip_on_immediate_witness :
  wf example_skip_imm
  /\ fetchOpcode example_skip_imm = Ok (opcode_of 3 2 3 3)
  /\ emulateCycle quiet example_skip_imm
     = Ok (tick (if reg example_skip_imm 2 =? 16 * 3 + 3
                 then skip (skip example_skip_imm)
                 else skip example_skip_imm)).
Proof.
  assert (W : wf example_skip_imm) by (apply wfb_sound; by_computation).
  assert (F : fetchOpcode example_skip_imm = Ok (opcode_of 3 2 3 3))
    by by_computation.
  split; [exact W|]. split; [exact F|].
  exact (proj1 (skip_on_immediate quiet example_skip_imm 2 3 3
                  ltac:(digit) ltac:(digit) ltac:(digit) W) F).
Defined.


Lemma skip_on_key_witness :
  wf example_key
  /\ reg example_key 0 < 16
  /\ fetchOpcode example_key = Ok (opcode_of 0xE 0 9 0xE)
  /\ emulateCycle quiet example_key
     = Ok (tick (if key example_key (reg example_key 0) =? 0
                 then skip example_key else skip (skip example_key)))
  /\ wf example_key_out
  /\ 16 <= reg example_key_out 0
  /\ fetchOpcode example_key_out = Ok (opcode_of 0xE 0 0xA 1)
  /\ emulateCycle quiet example_key_out = Fault.
Proof.
  assert (W : wf example_key) by (apply wfb_sound; by_computation).
  assert (R : reg example_key 0 < 16) by by_computation.
  assert (F : fetchOpcode example_key = Ok (opcode_of 0xE 0 9 0xE))
    by by_computation.
  assert (W' : wf example_key_out) by (apply wfb_sound; by_computation).
  assert (R' : 16 <= reg example_key_out 0) by (vm_compute; discriminate).
  assert (F' : fetchOpcode example_key_out = Ok (opcode_of 0xE 0 0xA 1))
    by by_computation.
  split; [exact W|]. split; [exact R|]. split; [exact F|].
  split; [exact (proj1 (proj1 (skip_on_key quiet example_key 0
                                 ltac:(digit) W) R) F)|].
  split; [exact W'|]. split; [exact R'|]. split; [exact F'|].
  exact (proj2 (skip_on_key quiet example_key_out 0 ltac:(digit) W') R'
           (or_intror F')).
Defined.

Lemma random_is_masked_witness :
  wf example_random
  /\ 0 <= rand example_rand
  /\ fetchOpcode example_random = Ok (opcode_of 0xC 0 0 0xF)
  /\ emulateCycle example_rand example_random
     = Ok (tick (with_reg 0
                   (Z.land (rand example_rand mod 256) (16 * 0 + 0xF))
                   (skip example_random)))
  /\ 0 <= Z.land (rand example_rand mod 256) (16 * 0 + 0xF) <= 16 * 0 + 0xF.
Proof.
  assert (W : wf example_random) by (apply wfb_sound; by_computation).
  assert (R : 0 <= rand example_rand) by (vm_compute; discriminate).
  assert (F : fetchOpcode example_random = Ok (opcode_of 0xC 0 0 0xF))
    by by_computation.
  destruct (random_is_masked example_rand example_random 0 0 0xF
              ltac:(digit) ltac:(digit) ltac:(digit) W R F) as (E & _ & B).
  split; [exact W|]. split; [exact R|]. split; [exact F|].
  split; [exact E|exact B].
Defined.

Lemma draw_without_rows_witness :
  wf example_draw_none
  /\ extended_mode example_draw_none = 0
  /\ fetchOpcode example_draw_none = Ok (opcode_of 0xD 0 1 0)
  /\ emulateCycle quiet example_draw_none
     = Ok (tick (with_reg 0xF 0 (skip example_draw_none))).
Proof.
  assert (W : wf example_draw_none) by (apply wfb_sound; by_computation).
  assert (M : extended_mode example_draw_none = 0) by by_computation.
  assert (F : fetchOpcode example_draw_none = Ok (opcode_of 0xD 0 1 0))
    by by_computation.
  split; [exact W|]. split; [exact M|]. split; [exact F|].
  exact (draw_without_rows quiet example_draw_none 0 1
           ltac:(digit) ltac:(digit) W M F).
Defined.

Lemma stack_overflow_and_underflow_witness :
  wf example_return
  /\ sp example_return = 0
  /\ fetchOpcode example_return = Ok 0x00EE
  /\ emulateCycle quiet example_return = Fault
  /\ wf example_deep_call
  /\ STACK_SIZE <= sp example_deep_call
  /\ fetchOpcode example_deep_call = Ok (opcode_of 2 2 0 0)
  /\ emulateCycle quiet example_deep_call = Fault.
Proof.
  assert (W : wf example_return) by (apply wfb_sound; by_computation).
  assert (S : sp example_return = 0) by by_computation.
  assert (F : fetchOpcode example_return = Ok 0x00EE) by by_computation.
  assert (W' : wf example_deep_call) by (apply wfb_sound; by_computation).
  assert (S' : STACK_SIZE <= sp example_deep_call)
    by (vm_compute; discriminate).
  assert (F' : fetchOpcode example_deep_call = Ok (opcode_of 2 2 0 0))
    by by_computation.
  split; [exact W|]. split; [exact S|]. split; [exact F|].
  split; [exact (proj2 (stack_overflow_and_underflow quiet example_return
                          0 0 0 ltac:(digit) ltac:(digit) ltac:(digit) W)
                   S F)|].
  split; [exact W'|]. split; [exact S'|]. split; [exact F'|].
  exact (proj1 (stack_overflow_and_underflow quiet example_deep_call 2 0 0
                  ltac:(digit) ltac:(digit) ltac:(digit) W') S' F').
Defined.

Lemma delay_timer_read_back_witness :
  wf example_timer_read
  /\ fetchOpcode example_timer_read = Ok (opcode_of 0xF 0 1 5)
  /\ fetchOpcode (skip example_timer_read) = Ok (opcode_of 0xF 1 0 7)
  /\ exists c1 c2,
       emulateCycle quiet example_timer_read = Ok c1
       /\ emulateCycle quiet c1 = Ok c2
       /\ reg c2 1 = Z.max 0 (reg example_timer_read 0 - 1).
Proof.
  assert (W : wf example_timer_read) by (apply wfb_sound; by_computation).
  assert (F : fetchOpcode example_timer_read = Ok (opcode_of 0xF 0 1 5))
    by by_computation.
  assert (F' : fetchOpcode (skip example_timer_read)
               = Ok (opcode_of 0xF 1 0 7)) by by_computation.
  split; [exact W|]. split; [exact F|]. split; [exact F'|].
  destruct (delay_timer_read_back quiet example_timer_read 0 1
              ltac:(digit) ltac:(digit) W quiet F F')
    as (c1 & c2 & E1 & E2 & _ & R & _).
  exists c1, c2. split; [exact E1|]. split; [exact E2|exact R].
Defined.

Lemma unknown_opcodes_are_ignored_witness :
  fetchOpcode example_sys = Ok (opcode_of 0 1 2 3)
  /\ emulateCycle quiet example_sys = Ok (tick (skip example_sys))
  /\ fetchOpcode example_unknown = Ok (opcode_of 0xF 0 0xF 0xF)
  /\ emulateCycle quiet example_unknown = Ok (tick (skip example_unknown)).
Proof.
  assert (F : fetchOpcode example_sys = Ok (opcode_of 0 1 2 3))
    by by_computation.
  assert (F' : fetchOpcode example_unknown = Ok (opcode_of 0xF 0 0xF 0xF))
    by by_computation.
  split; [exact F|]. split; [|split; [exact F'|]].
  - apply (unknown_opcodes_are_ignored quiet example_sys 1 2 3
             ltac:(digit) ltac:(digit) ltac:(digit) 0 F).
    left. repeat split; lia.
  - apply (unknown_opcodes_are_ignored quiet example_unknown 0 0xF 0xF
             ltac:(digit) ltac:(digit) ltac:(digit) 0xF F').
    right. right. right. split; [reflexivity|].
    repeat constructor; discriminate.
Defined.

Lemma clear_display_witness :
  fetchOpcode example_clear = Ok 0x00E0
  /\ display example_clear !!! Z.to_nat 200 = 1
  /\ exists c',
       emulateCycle quiet example_clear = Ok c'
       /\ display c' !!! Z.to_nat 200 = 0.
Proof.
  assert (F : fetchOpcode example_clear = Ok 0x00E0) by by_computation.
  split; [exact F|]. split; [by_computation|].
  destruct (clear_display quiet example_clear F) as (c' & E & _ & Hz & _).
  exists c'. split; [exact E|].
  exact (Hz 200 ltac:(vm_compute; split; [discriminate|reflexivity])).
Defined.

Lemma mode_switch_witness :
  wf example_mode
  /\ fetchOpcode example_mode = Ok (opcode_of 0 0 0xF 0xF)
  /\ exists c',
       emulateCycle quiet example_mode = Ok c'
       /\ wf c'
       /\ (extended_mode c', screen_width c', screen_height c')
          = (1, EXT_WIDTH, EXT_HEIGHT).
Proof.
  assert (W : wf example_mode) by (apply wfb_sound; by_computation).
  assert (F : fetchOpcode example_mode = Ok (opcode_of 0 0 0xF 0xF))
    by by_computation.
  split; [exact W|]. split; [exact F|].
  destruct (proj1 (mode_switch quiet example_mode 0 ltac:(digit) W) F)
    as (c' & E & W' & _ & M & _).
  exists c'. split; [exact E|]. split; [exact W'|exact M].
Defined.

Lemma extended_instructions_skip_timer_update_witness :
  let c' := set_display (zeroed (MAX_WIDTH * MAX_HEIGHT))
              (skip example_scroll_timer) in
  fetchOpcode example_scroll_timer = Ok (opcode_of 0 0 0xF 0xB)
  /\ emulateCycle quiet example_scroll_timer = Ok c'
  /\ delay_timer example_scroll_timer = 9
  /\ delay_timer c' = delay_timer example_scroll_timer
  /\ sound_timer c' = sound_timer example_scroll_timer.
Proof.
  intros c'.
  assert (F : fetchOpcode example_scroll_timer = Ok (opcode_of 0 0 0xF 0xB))
    by by_computation.
  assert (E : emulateCycle quiet example_scroll_timer = Ok c')
    by by_computation.
  assert (X : 0xF = 0xC \/ (0xF = 0xF /\ 0xB <= 0xB))
    by (right; split; [reflexivity|lia]).
  split; [exact F|]. split; [exact E|]. split; [reflexivity|].
  exact (extended_instructions_skip_timer_update quiet example_scroll_timer
           0 0xF 0xB ltac:(digit) ltac:(digit) ltac:(digit) c' F X E).
Defined.

Lemma store_registers_witness :
  wf example_store
  /\ fetchOpcode example_store = Ok (opcode_of 0xF 1 5 5)
  /\ I example_store + 1 < MEMORY_SIZE
  /\ exists c',
       emulateCycle quiet example_store = Ok c'
       /\ byte_at c' (I example_store + 0) = reg example_store 0
       /\ byte_at c' (I example_store + 1) = reg example_store 1
       /\ I c' = I example_store.
Proof.
  assert (W : wf example_store) by (apply wfb_sound; by_computation).
  assert (F : fetchOpcode example_store = Ok (opcode_of 0xF 1 5 5))
    by by_computation.
  assert (B : I example_store + 1 < MEMORY_SIZE) by by_computation.
  split; [exact W|]. split; [exact F|]. split; [exact B|].
  destruct (proj1 (store_registers quiet example_store 1 ltac:(digit) W F) B)
    as (c' & E & Hin & _ & _ & HI).
  exists c'. split; [exact E|].
  split; [exact (Hin 0 ltac:(lia))|].
  split; [exact (Hin 1 ltac:(lia))|exact HI].
Defined.

Lemma load_registers_witness :
  wf example_load
  /\ fetchOpcode example_load = Ok (opcode_of 0xF 1 6 5)
  /\ I example_load + 1 < MEMORY_SIZE
  /\ exists c',
       emulateCycle quiet example_load = Ok c'
       /\ reg c' 1 = byte_at example_load (I example_load + 1)
       /\ reg c' 2 = reg example_load 2.
Proof.
  assert (W : wf example_load) by (apply wfb_sound; by_computation).
  assert (F : fetchOpcode example_load = Ok (opcode_of 0xF 1 6 5))
    by by_computation.
  assert (B : I example_load + 1 < MEMORY_SIZE) by by_computation.
  split; [exact W|]. split; [exact F|]. split; [exact B|].
  destruct (load_registers quiet example_load 1 ltac:(digit) W F B)
    as (c' & E & Hin & Hout & _).
  exists c'. split; [exact E|].
  split; [exact (Hin 1 ltac:(lia))|exact (Hout 2 ltac:(lia))].
Defined.

Lemma bcd_digits_witness :
  wf example_bcd
  /\ fetchOpcode example_bcd = Ok (opcode_of 0xF 0 3 3)
  /\ I example_bcd + 2 < MEMORY_SIZE
  /\ exists c',
       emulateCycle quiet example_bcd = Ok c'
       /\ 100 * byte_at c' (I example_bcd)
          + 10 * byte_at c' (I example_bcd + 1)
          + byte_at c' (I example_bcd + 2) = reg example_bcd 0
       /\ 0 <= byte_at c' (I example_bcd + 1) < 10.
Proof.
  assert (W : wf example_bcd) by (apply wfb_sound; by_computation).
  assert (F : fetchOpcode example_bcd = Ok (opcode_of 0xF 0 3 3))
    by by_computation.
  assert (B : I example_bcd + 2 < MEMORY_SIZE) by by_computation.
  split; [exact W|]. split; [exact F|]. split; [exact B|].
  destruct (proj1 (bcd_digits quiet example_bcd 0 ltac:(digit) W F) B)
    as (c' & E & Hsum & _ & Ht & _).
  exists c'. split; [exact E|]. split; [exact Hsum|exact Ht].
Defined.

Lemma font_glyph_address_witness :
  wf example_font
  /\ fetchOpcode example_font = Ok (opcode_of 0xF 0 2 9)
  /\ reg example_font 0 < 16
  /\ exists c',
       emulateCycle quiet example_font = Ok c'
       /\ I c' = 0x50 + 5 * reg example_font 0
       /\ byte_at c' (I c' + 0)
          = chip8_fontset !!! Z.to_nat (5 * reg example_font 0 + 0).
Proof.
  assert (W : wf example_font) by (apply wfb_sound; by_computation).
  assert (F : fetchOpcode example_font = Ok (opcode_of 0xF 0 2 9))
    by by_computation.
  assert (R : reg example_font 0 < 16) by by_computation.
  assert (T : forall i, 0 <= i < 80 ->
              byte_at example_font (0x50 + i) = chip8_fontset !!! Z.to_nat i).
  { intros i Hi.
    assert (C : forallb (fun i => byte_at example_font (0x50 + i)
                                  =? chip8_fontset !!! Z.to_nat i)
                  (seqZ 0 80) = true) by by_computation.
    rewrite forallb_forall in C. apply Z.eqb_eq, C.
    apply list_elem_of_In, elem_of_seqZ. lia. }
  split; [exact W|]. split; [exact F|]. split; [exact R|].
  destruct (font_glyph_address quiet example_font 0 ltac:(digit) W F T R)
    as (c' & E & HI & Hg).
  exists c'. split; [exact E|]. split; [exact HI|exact (Hg 0 ltac:(lia))].
Defined.

Lemma keypad_layout_witness :
  0 <= mapKey SDLK_q < 16 /\ exists sym, mapKey sym = 0xC.
Proof.
  destruct keypad_layout as (Hr & _ & Hs & _).
  split; [exact (Hr SDLK_q ltac:(discriminate))|exact (Hs 0xC ltac:(lia))].
Defined.

Lemma key_wait_witness :
  wf example_wait
  /\ fetchOpcode example_wait = Ok (opcode_of 0xF 0 0 0xA)
  /\ Forall idle [[SDL_OTHER; SDL_KEYUP SDLK_q]]
  /\ emulateCycle example_polls example_wait
     = Ok (tick (with_reg 0 (mapKey SDLK_w) (skip example_wait))).
Proof.
  assert (W : wf example_wait) by (apply wfb_sound; by_computation).
  assert (F : fetchOpcode example_wait = Ok (opcode_of 0xF 0 0 0xA))
    by by_computation.
  assert (Q : Forall idle [[SDL_OTHER; SDL_KEYUP SDLK_q]])
    by (repeat constructor).
  split; [exact W|]. split; [exact F|]. split; [exact Q|].
  exact (proj1 (key_wait example_polls example_wait 0 _ ltac:(digit) W F Q)
           [SDL_KEYDOWN SDLK_q; SDL_KEYDOWN SDLK_other; SDL_KEYDOWN SDLK_w]
           [[SDL_QUIT]] SDLK_w eq_refl eq_refl eq_refl).
Defined.

Lemma pump_latches_keys_witness :
  len (keys example_wait) = 16
  /\ exists c',
       pump [SDL_KEYDOWN SDLK_q; SDL_KEYUP SDLK_q; SDL_KEYDOWN SDLK_w] true
         example_wait = Ok (true, c')
       /\ key c' 5
          = key_after 5 [SDL_KEYDOWN SDLK_q; SDL_KEYUP SDLK_q;
                         SDL_KEYDOWN SDLK_w] (key example_wait 5).
Proof.
  assert (K : len (keys example_wait) = 16) by by_computation.
  split; [exact K|].
  destruct (pump_latches_keys
              [SDL_KEYDOWN SDLK_q; SDL_KEYUP SDLK_q; SDL_KEYDOWN SDLK_w]
              true example_wait K) as (c' & E & _ & _ & Hk & _).
  exists c'. split; [exact E|exact (Hk 5 ltac:(lia))].
Defined.

Lemma scroll_sideways_witness :
  wf example_scroll_left
  /\ fetchOpcode example_scroll_left = Ok (opcode_of 0 0 0xF 0xC)
  /\ cell_at (display example_scroll_left) 9 0 = 1
  /\ exists c',
       emulateCycle quiet example_scroll_left = Ok c'
       /\ cell_at (display c') 5 0
          = if (5 <? screen_width example_scroll_left)
               && (0 <? screen_height example_scroll_left)
            then if 5 <? screen_width example_scroll_left - 4
                 then cell_at (display example_scroll_left) (5 + 4) 0 else 0
            else cell_at (display example_scroll_left) 5 0.
Proof.
  assert (W : wf example_scroll_left) by (apply wfb_sound; by_computation).
  assert (F : fetchOpcode example_scroll_left = Ok (opcode_of 0 0 0xF 0xC))
    by by_computation.
  split; [exact W|]. split; [exact F|]. split; [by_computation|].
  destruct (proj2 (scroll_sideways quiet example_scroll_left 0
                     ltac:(digit) W) F) as (c' & E & _ & Hc).
  exists c'. split; [exact E|].
  exact (Hc 5 0 ltac:(vm_compute; split; [discriminate|reflexivity])
           ltac:(vm_compute; split; [discriminate|reflexivity])).
Defined.

Lemma scroll_down_rows_witness :
  wf example_scroll_down
  /\ fetchOpcode example_scroll_down = Ok (opcode_of 0 0 0xC 3)
  /\ cell_at (display example_scroll_down) 9 0 = 1
  /\ exists c',
       emulateCycle quiet example_scroll_down = Ok c'
       /\ cell_at (display c') 9 3
          = if (9 <? screen_width example_scroll_down)
               && (3 <? screen_height example_scroll_down)
            then if 3 <? 3 then 0
                 else cell_at (display example_scroll_down) 9 (3 - 3)
            else cell_at (display example_scroll_down) 9 3.
Proof.
  assert (W : wf example_scroll_down) by (apply wfb_sound; by_computation).
  assert (F : fetchOpcode example_scroll_down = Ok (opcode_of 0 0 0xC 3))
    by by_computation.
  split; [exact W|]. split; [exact F|]. split; [by_computation|].
  destruct (scroll_down_rows quiet example_scroll_down 0 3
              ltac:(digit) ltac:(digit) W F) as (c' & E & _ & Hc).
  exists c'. split; [exact E|].
  exact (Hc 9 3 ltac:(vm_compute; split; [discriminate|reflexivity])
           ltac:(vm_compute; split; [discriminate|reflexivity])).
Defined.

Lemma fetch_is_big_endian_witness :
  wf example_load_imm
  /\ pc example_load_imm + 1 < MEMORY_SIZE
  /\ fetchOpcode example_load_imm
     = Ok (256 * byte_at example_load_imm (pc example_load_imm)
           + byte_at example_load_imm (pc example_load_imm + 1))
  /\ wf example_pc_end
  /\ MEMORY_SIZE <= pc example_pc_end + 1
  /\ emulateCycle quiet example_pc_end = Fault.
Proof.
  assert (W : wf example_load_imm) by (apply wfb_sound; by_computation).
  assert (B : pc example_load_imm + 1 < MEMORY_SIZE) by by_computation.
  assert (W' : wf example_pc_end) by (apply wfb_sound; by_computation).
  assert (B' : MEMORY_SIZE <= pc example_pc_end + 1)
    by (vm_compute; discriminate).
  split; [exact W|]. split; [exact B|].
  split; [exact (proj1 (fetch_is_big_endian quiet example_load_imm W) B)|].
  split; [exact W'|]. split; [exact B'|].
  exact (proj2 (proj2 (fetch_is_big_endian quiet example_pc_end W') B')).
Defined.

Lemma main_set_up_witness :
  main 2 (Some [0x00; 0xFD]) (mkHost true false true) [] = (Ok 1, 0%nat)
  /\ main 2 (Some [0x00; 0xFD]) (mkHost true true true) []
     = main_loop [] (boot [0x00; 0xFD]) 0%nat.
Proof.
  split.
  - apply (proj1 (main_set_up 2 (Some [0x00; 0xFD]) (mkHost true false true)
                    [])).
    right. right. right. right. left. reflexivity.
  - apply (proj2 (main_set_up 2 (Some [0x00; 0xFD]) (mkHost true true true)
                    []) [0x00; 0xFD]);
      first [reflexivity | lia | (vm_compute; discriminate)].
Defined.

Lemma quit_frame_runs_one_more_cycle_witness :
  len (keys example_load_imm) = 16
  /\ has_quit (frame_events example_quit_frame) = true
  /\ exists c1,
       pump (frame_events example_quit_frame) true example_load_imm
       = Ok (false, c1)
       /\ main_loop [example_quit_frame] example_load_imm 0
          = (match emulateCycle (frame_env example_quit_frame) c1 with
             | Ok _ => Ok 0
             | Exit code => Exit code
             | Fault => Fault
             | Pending => Pending
             end, 1%nat).
Proof.
  assert (K : len (keys example_load_imm) = 16) by by_computation.
  assert (Q : has_quit (frame_events example_quit_frame) = true)
    by by_computation.
  split; [exact K|]. split; [exact Q|].
  destruct (quit_frame_runs_one_more_cycle example_quit_frame []
              example_load_imm 0 K Q) as (c1 & E & _ & M).
  exists c1. split; [exact E|exact M].
Defined.

Lemma frame_shows_lit_cells_witness :
  wf example_frame
  /\ cell_at (display example_frame) 2 1 <> 0
  /\ exists squares,
       drawGraphics example_frame
       = Ok ([SDL_SetRenderDrawColor (bg example_frame).1.1
                (bg example_frame).1.2 (bg example_frame).2 255;
              SDL_RenderClear] ++ squares ++ [SDL_RenderPresent])
       /\ SDL_RenderFillRect (2 * WINDOW_SCALE) (1 * WINDOW_SCALE)
            WINDOW_SCALE WINDOW_SCALE ∈ squares.
Proof.
  assert (W : wf example_frame) by (apply wfb_sound; by_computation).
  assert (L : cell_at (display example_frame) 2 1 <> 0)
    by (vm_compute; discriminate).
  split; [exact W|]. split; [exact L|].
  destruct (frame_shows_lit_cells example_frame W) as (squares & E & _ & H & _).
  exists squares. split; [exact E|]. apply H.
  split; [|exact L]. vm_compute. repeat split; discriminate.
Defined.
